(** * DOMAdvanced: element resolution, viewport convergence, mutation watch

    A shallow embedding of [src/DOMAdvanced.js] (the [DOMAdvanced] module,
    version 1.2.0).  JavaScript objects live in a store of property maps,
    the host page (document, clock, viewport, timers) is an abstract
    [World] with the accessors the library calls, and every library
    function is a computation in a small state-and-trace monad, so that
    the order of host calls is observable.

    An asynchronous function is run up to a horizon: [fuel] bounds the
    number of timer or animation-frame callbacks the host delivers, and the
    result is the state of the returned promise at that point.  Between
    two callbacks the page changes as the host says ([timer_fired],
    [frame_fired]); the store is touched by the library only. *)

From stdpp Require Import base gmap strings list.
From Stdlib Require Import ZArith QArith Lia.

Local Open Scope string_scope.
Local Open Scope Z_scope.
Local Open Scope list_scope.

(** ** JavaScript values held by configuration objects *)

(** The option table of the library holds numbers and booleans; a key that
    is absent reads as [undefined]. *)
Inductive JsVal : Type :=
| VUndefined
| VNull
| VBool (b : bool)
| VNum (n : Z).

(** ToBoolean. *)
Definition truthy (v : JsVal) : bool :=
  match v with
  | VUndefined | VNull => false
  | VBool b => b
  | VNum n => negb (n =? 0)
  end.

(** ToNumber; [None] stands for NaN. *)
Definition to_number (v : JsVal) : option Z :=
  match v with
  | VUndefined => None
  | VNull => Some 0
  | VBool b => Some (if b then 1 else 0)
  | VNum n => Some n
  end.

(** [a > b] and [a >= b] on numbers: any comparison with NaN is false. *)
Definition js_gt (a b : option Z) : bool :=
  match a, b with
  | Some x, Some y => y <? x
  | _, _ => false
  end.

Definition js_ge (a b : option Z) : bool :=
  match a, b with
  | Some x, Some y => y <=? x
  | _, _ => false
  end.

(** Unary minus. *)
Definition js_neg (a : option Z) : option Z := Z.opp <$> a.

(** ** Objects and the store *)

Abbreviation Obj := (gmap string JsVal).
Abbreviation loc := positive.

(** Property read: [o.k]. *)
Definition get (o : Obj) (k : string) : JsVal := default VUndefined (o !! k).

(** Object spread [{...a, ...b}]: the own properties of [a], then those of
    [b] written over them. *)
Definition spread2 (a b : Obj) : Obj := b ∪ a.

(** The literal [defaults] of the module (lines 9-16). *)
Definition initial_defaults : Obj :=
  <["timeout" := VNum 10000]>
  (<["pollInterval" := VNum 100]>
  (<["scrollStep" := VNum 100]>
  (<["maxScrollAttempts" := VNum 50]>
  (<["visibleCheck" := VBool true]>
  (<["throwErrors" := VBool false]> ∅))))).

(** ** The host page *)

Abbreviation Element := nat.

Record Style : Type := {
  display : string;
  visibility : string;
  opacity : string
}.

(** A [DOMRect], of which the library reads [top] and [bottom]. *)
Record Rect : Type := {
  top : Q;
  bottom : Q
}.

(** What the library consumes from the browser.  [inl name] is a thrown
    host exception.  [timer_fired d w] is the page when a timer set for
    delay [d] in page [w] runs its callback, [frame_fired w] the page at
    the next animation frame. *)
Record Host (World : Type) : Type := {
  querySelector : World → string → string + option Element;
  getComputedStyle : World → Element → Style;
  offsetWidth : World → Element → Z;
  offsetHeight : World → Element → Z;
  date_now : World → Z;
  timer_fired : JsVal → World → World;
  getBoundingClientRect : World → Element → Rect;
  innerHeight : World → Z;
  scrollBy : option Z → World → World;
  frame_fired : World → World;
  dispatchEvent : World → Element → string → string + World
}.

Arguments querySelector {World}.
Arguments getComputedStyle {World}.
Arguments offsetWidth {World}.
Arguments offsetHeight {World}.
Arguments date_now {World}.
Arguments timer_fired {World}.
Arguments getBoundingClientRect {World}.
Arguments innerHeight {World}.
Arguments scrollBy {World}.
Arguments frame_fired {World}.
Arguments dispatchEvent {World}.

(** ** Errors, promises, events *)

(** The [Error] objects the library builds, by the message template, and
    host exceptions passed through. *)
Inductive JsError : Type :=
| TimeoutError (selector : string) (timeout : JsVal)
| ElementNotFound (what : string)
| ScrollError (attempts : Z)
| TriggerNotFound (event : string)
| HostError (name : string).

(** State of the promise an async call returned, seen at the horizon of
    the run.  [Abandoned]: a timer callback threw, nothing will settle the
    promise.  [Suspended]: a timer or frame callback is still scheduled. *)
Inductive Promise (A : Type) : Type :=
| Fulfilled (a : A)
| Rejected (e : JsError)
| Abandoned
| Suspended.

Arguments Fulfilled {A}.
Arguments Rejected {A}.
Arguments Abandoned {A}.
Arguments Suspended {A}.

(** Host calls and diagnostics, in program order. *)
Inductive Event : Type :=
| EvQuery (selector : string)
| EvGetComputedStyle (e : Element)
| EvOffsetWidth (e : Element)
| EvOffsetHeight (e : Element)
| EvSetTimeout (delay : JsVal)
| EvWarn (err : JsError)
| EvWarnDispatch (event : string) (name : string)
| EvUncaught (name : string)
| EvMeasure (e : Element)
| EvScrollBy (amount : option Z)
| EvRequestFrame
| EvDispatch (e : Element) (event : string)
| EvCallback (e : Element) (observer : loc)
| EvDisconnect (observer : loc).

(** ** Process state and the monad of library code *)

(** [heap]: the objects allocated so far.  [observing]: the mutation
    observers currently connected to [document.body]. *)
Record Proc (World : Type) : Type := {
  heap : gmap loc Obj;
  observing : gset loc;
  world : World
}.

Arguments heap {World}.
Arguments observing {World}.
Arguments world {World}.

(** The module keeps its [defaults] object at a fixed address for the
    life of the page. *)
Definition defaults : loc := 1%positive.

Definition initial_proc {World : Type} (w : World) : Proc World :=
  {| heap := {[ defaults := initial_defaults ]}; observing := ∅; world := w |}.

Definition M (World A : Type) : Type := Proc World → A * list Event * Proc World.

Definition ret {World A : Type} (a : A) : M World A := λ st, (a, [], st).

(** The trace of a sequence is the trace of its first part followed by the
    trace of the rest. *)
Definition bind {World A B : Type} (m : M World A) (f : A → M World B) : M World B :=
  λ st, let '(a, t1, st1) := m st in
        let '(b, t2, st2) := f a st1 in
        (b, t1 ++ t2, st2).

#[export] Instance M_ret {World : Type} : MRet (M World) := λ A, ret.
#[export] Instance M_bind {World : Type} : MBind (M World) := λ A B f m, bind m f.

Notation "x <- m ;; k" := (bind m (λ x, k))
  (at level 100, m at next level, right associativity, only parsing).

Definition result {World A : Type} (r : A * list Event * Proc World) : A := r.1.1.
Definition trace {World A : Type} (r : A * list Event * Proc World) : list Event := r.1.2.
Definition final {World A : Type} (r : A * list Event * Proc World) : Proc World := r.2.

Section Primitives.
Context {World : Type}.

Definition emit (ev : Event) : M World unit := λ st, (tt, [ev], st).

(** Read a host accessor on the current page. *)
Definition page {A : Type} (f : World → A) : M World A :=
  λ st, (f (world st), [], st).

(** The page moves on. *)
Definition advance (f : World → World) : M World unit :=
  λ st, (tt, [], {| heap := heap st; observing := observing st; world := f (world st) |}).

(** The properties of the object at [l]. *)
Definition read (l : loc) : M World Obj :=
  λ st, (default ∅ (heap st !! l), [], st).

(** A new object, at an address not in use. *)
Definition alloc (o : Obj) : M World loc :=
  λ st, let l := fresh (dom (heap st)) in
        (l, [], {| heap := <[l := o]> (heap st); observing := observing st; world := world st |}).

(** [Object.assign(target, source)]: every own property of [source] is
    written into the object at [target]; the result is [target]. *)
Definition object_assign (target : loc) (source : Obj) : M World loc :=
  λ st, (target, [],
         {| heap := <[target := source ∪ default ∅ (heap st !! target)]> (heap st);
            observing := observing st; world := world st |}).

Definition set_observing (f : gset loc → gset loc) : M World unit :=
  λ st, (tt, [], {| heap := heap st; observing := f (observing st); world := world st |}).

Definition is_observing (l : loc) : M World bool :=
  λ st, (bool_decide (l ∈ observing st), [], st).
End Primitives.

(** ** The library *)

(** First argument of [scrollToSelector] and [triggerEvent]: a selector
    string, or an element the caller already holds (possibly [null]). *)
Inductive Target : Type :=
| Selector (s : string)
| Handle (e : option Element).

Section Library.
Context {World : Type} (host : Host World).

Local Abbreviation M := (M World).

(** An [options] parameter with default [{}]. *)
Definition options_or_empty (options : option loc) : M loc :=
  match options with
  | Some l => mret l
  | None => alloc ∅
  end.

(** [const config = { ...defaults, ...options }]. *)
Definition merge_config (options : option loc) : M loc :=
  opts <- options_or_empty options;;
  d <- read defaults;;
  o <- read opts;;
  alloc (spread2 d o).

(** Lines 19-27. *)
Definition isVisible (element : option Element) : M bool :=
  match element with
  | None => mret false
  | Some el =>
      emit (EvGetComputedStyle el);;
      style <- page (λ w, getComputedStyle host w el);;
      if negb (String.eqb (display style) "none")
         && negb (String.eqb (visibility style) "hidden")
         && negb (String.eqb (opacity style) "0")
      then
        emit (EvOffsetWidth el);;
        width <- page (λ w, offsetWidth host w el);;
        if 0 <? width then
          emit (EvOffsetHeight el);;
          height <- page (λ w, offsetHeight host w el);;
          mret (0 <? height)
        else mret false
      else mret false
  end.

(** [element && (!visibleCheck || isVisible(element))], lines 47 and 184. *)
Definition accepted (visibleCheck : JsVal) (element : option Element) : M bool :=
  match element with
  | None => mret false
  | Some _ => if negb (truthy visibleCheck) then mret true else isVisible element
  end.

(** Lines 44-60.  [in_executor] tells the call made by the promise
    executor (line 62), where a throw rejects the promise, from the calls
    made by a timer (line 58), where a throw is an uncaught exception.
    [fuel] is the number of timer callbacks the run includes. *)
Fixpoint checkSelector (fuel : nat) (selector : string)
    (timeout pollInterval visibleCheck throwErrors : JsVal)
    (startTime : Z) (in_executor : bool) : M (Promise (option Element)) :=
  emit (EvQuery selector);;
  found <- page (λ w, querySelector host w selector);;
  match found with
  | inl name =>
      if in_executor then mret (Rejected (HostError name))
      else emit (EvUncaught name);; mret Abandoned
  | inr element =>
      ok <- accepted visibleCheck element;;
      if ok then mret (Fulfilled element)
      else
        t <- page (date_now host);;
        if js_gt (Some (t - startTime)) (to_number timeout) then
          let error := TimeoutError selector timeout in
          if truthy throwErrors then mret (Rejected error)
          else emit (EvWarn error);; mret (Fulfilled None)
        else
          emit (EvSetTimeout pollInterval);;
          match fuel with
          | O => mret Suspended
          | S fuel' =>
              advance (timer_fired host pollInterval);;
              checkSelector fuel' selector timeout pollInterval visibleCheck
                throwErrors startTime false
          end
  end.

(** Lines 38-64. *)
Definition waitForSelector (fuel : nat) (selector : string) (options : option loc)
    : M (Promise (option Element)) :=
  config <- merge_config options;;
  c <- read config;;
  startTime <- page (date_now host);;
  checkSelector fuel selector (get c "timeout") (get c "pollInterval")
    (get c "visibleCheck") (get c "throwErrors") startTime true.

(** [rect.top >= 0 && rect.bottom <= window.innerHeight], line 93. *)
Definition in_viewport (rect : Rect) (viewportHeight : Z) : bool :=
  Qle_bool 0 (top rect) && Qle_bool (bottom rect) (inject_Z viewportHeight).

(** [rect.top < 0 ? -scrollStep : scrollStep], line 110. *)
Definition scroll_amount (rect : Rect) (scrollStep : JsVal) : option Z :=
  if negb (Qle_bool 0 (top rect)) then js_neg (to_number scrollStep)
  else to_number scrollStep.

(** Lines 89-115; [attempts] is the counter of line 87 on entry, [fuel]
    the number of animation frames the run includes. *)
Fixpoint scrollCheck (fuel : nat) (element : Element)
    (scrollStep maxScrollAttempts throwErrors : JsVal) (attempts : Z)
    : M (Promise (option Element)) :=
  let attempts := attempts + 1 in
  emit (EvMeasure element);;
  rect <- page (λ w, getBoundingClientRect host w element);;
  viewportHeight <- page (innerHeight host);;
  if in_viewport rect viewportHeight then mret (Fulfilled (Some element))
  else if js_ge (Some attempts) (to_number maxScrollAttempts) then
    let error := ScrollError attempts in
    if truthy throwErrors then mret (Rejected error)
    else emit (EvWarn error);; mret (Fulfilled (Some element))
  else
    let amount := scroll_amount rect scrollStep in
    emit (EvScrollBy amount);;
    advance (scrollBy host amount);;
    emit EvRequestFrame;;
    match fuel with
    | O => mret Suspended
    | S fuel' =>
        advance (frame_fired host);;
        scrollCheck fuel' element scrollStep maxScrollAttempts throwErrors attempts
    end.

(** Lines 72-119. *)
Definition scrollToSelector (fuel : nat) (selector : Target) (options : option loc)
    : M (Promise (option Element)) :=
  opts <- options_or_empty options;;
  config <- merge_config (Some opts);;
  c <- read config;;
  element <-
    match selector with
    | Selector s =>
        o <- read opts;;
        inner <- alloc (<["visibleCheck" := VBool false]> o);;
        waitForSelector fuel s (Some inner)
    | Handle e => mret (Fulfilled e)
    end;;
  match element with
  | Rejected e => mret (Rejected e)
  | Abandoned => mret Abandoned
  | Suspended => mret Suspended
  | Fulfilled None =>
      let error :=
        ElementNotFound
          match selector with
          | Selector s => s
          | Handle _ => "Elemento proporcionado"
          end in
      if truthy (get c "throwErrors") then mret (Rejected error)
      else emit (EvWarn error);; mret (Fulfilled None)
  | Fulfilled (Some el) =>
      scrollCheck fuel el (get c "scrollStep") (get c "maxScrollAttempts")
        (get c "throwErrors") 0
  end.

(** Lines 128-154. *)
Definition triggerEvent (fuel : nat) (selector : Target) (event : string)
    (options : option loc) : M (Promise bool) :=
  config <- merge_config options;;
  element <-
    match selector with
    | Selector s => waitForSelector fuel s (Some config)
    | Handle e => mret (Fulfilled e)
    end;;
  c <- read config;;
  match element with
  | Rejected e => mret (Rejected e)
  | Abandoned => mret Abandoned
  | Suspended => mret Suspended
  | Fulfilled None =>
      let error := TriggerNotFound event in
      if truthy (get c "throwErrors") then mret (Rejected error)
      else emit (EvWarn error);; mret (Fulfilled false)
  | Fulfilled (Some el) =>
      emit (EvDispatch el event);;
      outcome <- page (λ w, dispatchEvent host w el event);;
      match outcome with
      | inr w' => advance (λ _, w');; mret (Fulfilled true)
      | inl name =>
          if truthy (get c "throwErrors") then mret (Rejected (HostError name))
          else emit (EvWarnDispatch event name);; mret (Fulfilled false)
      end
  end.

(** [observer.disconnect()]. *)
Definition disconnect (observer : loc) : M unit :=
  emit (EvDisconnect observer);;
  set_observing (λ s, s ∖ {[observer]}).

(** The function given to [new MutationObserver], lines 182-187. *)
Definition on_mutations (selector : string) (callback : Element → loc → M unit)
    (config : loc) (obs : loc) : M unit :=
  emit (EvQuery selector);;
  found <- page (λ w, querySelector host w selector);;
  match found with
  | inl name => emit (EvUncaught name)
  | inr element =>
      c <- read config;;
      ok <- accepted (get c "visibleCheck") element;;
      match element with
      | Some el => if ok then emit (EvCallback el obs);; callback el obs else mret tt
      | None => mret tt
      end
  end.

(** A [MutationObserver] as the host keeps it: its identity and the
    function to call with each batch. *)
Record Observer : Type := {
  obs_id : loc;
  obs_handler : loc → M unit
}.

(** Lines 180-197. *)
Definition observeSelector (selector : string) (callback : Element → loc → M unit)
    (options : option loc) : M Observer :=
  config <- merge_config options;;
  observer <- alloc ∅;;
  set_observing (λ s, {[observer]} ∪ s);;
  mret {| obs_id := observer; obs_handler := on_mutations selector callback config |}.

(** Line 207: [config: (newConfig) => Object.assign(defaults, newConfig)]. *)
Definition config (newConfig : option loc) : M loc :=
  source <- match newConfig with
           | Some l => read l
           | None => mret ∅
           end;;
  object_assign defaults source.

(** The host side of a mutation observer: a batch of mutations is
    handed to the observer's function when, and only when, the observer
    is connected. *)
Definition deliver_batch (o : Observer) : M unit :=
  connected <- is_observing (obs_id o);;
  if connected then obs_handler o (obs_id o) else mret tt.

(** What happens around an installed watcher: the page mutates and the
    host hands the batch over, or the caller disposes the handle. *)
Inductive PageStep : Type :=
| MutationBatch (change : World → World)
| Dispose.

Fixpoint watch (o : Observer) (steps : list PageStep) : M unit :=
  match steps with
  | [] => mret tt
  | MutationBatch change :: rest =>
      advance change;; deliver_batch o;; watch o rest
  | Dispose :: rest =>
      disconnect (obs_id o);; watch o rest
  end.

(** [observeSelector] followed by the life of the page. *)
Definition observe_then (selector : string) (callback : Element → loc → M unit)
    (options : option loc) (steps : list PageStep) : M unit :=
  o <- observeSelector selector callback options;;
  watch o steps.

(** Calls a script makes on the public API, apart from [config]. *)
Inductive Call : Type :=
| CallWaitForSelector (fuel : nat) (selector : string) (options : option loc)
| CallScrollToSelector (fuel : nat) (selector : Target) (options : option loc)
| CallTriggerEvent (fuel : nat) (selector : Target) (event : string)
    (options : option loc)
| CallObserveSelector (selector : string) (callback : Element → loc → M unit)
    (options : option loc)
| CallIsVisible (element : option Element).

Definition run_call (c : Call) : M unit :=
  match c with
  | CallWaitForSelector fuel selector options =>
      waitForSelector fuel selector options;; mret tt
  | CallScrollToSelector fuel selector options =>
      scrollToSelector fuel selector options;; mret tt
  | CallTriggerEvent fuel selector event options =>
      triggerEvent fuel selector event options;; mret tt
  | CallObserveSelector selector callback options =>
      observeSelector selector callback options;; mret tt
  | CallIsVisible element =>
      isVisible element;; mret tt
  end.

Fixpoint run_calls (cs : list Call) : M unit :=
  match cs with
  | [] => mret tt
  | c :: rest => run_call c;; run_calls rest
  end.
End Library.

(** ** Vocabulary of the statements *)

Section Vocabulary.
Context {World : Type}.

(** The module has been evaluated: its [defaults] object exists. *)
Definition loaded (st : Proc World) : Prop := is_Some (heap st !! defaults).

(** The object an [options] argument denotes in a state. *)
Definition options_object (st : Proc World) (options : option loc) : Obj :=
  match options with
  | Some l => default ∅ (heap st !! l)
  | None => ∅
  end.

(** The options argument, when given, is an object of the store. *)
Definition options_valid (st : Proc World) (options : option loc) : Prop :=
  match options with
  | Some l => is_Some (heap st !! l)
  | None => True
  end.

(** The current [defaults] object. *)
Definition baseline (st : Proc World) : Obj := default ∅ (heap st !! defaults).

(** The Configuration of a call made in [st] with [options]. *)
Definition effective (st : Proc World) (options : option loc) : Obj :=
  spread2 (baseline st) (options_object st options).

(** What a caller and the page can see of a run: the value, the host
    calls and diagnostics, and the page afterwards. *)
Definition behaviour {A : Type} (m : M World A) (st : Proc World)
    : A * list Event * World :=
  (result (m st), trace (m st), world (final (m st))).

Definition is_scroll (ev : Event) : bool :=
  match ev with EvScrollBy _ => true | _ => false end.

Definition is_measure (ev : Event) : bool :=
  match ev with EvMeasure _ => true | _ => false end.

Definition is_query (ev : Event) : bool :=
  match ev with EvQuery _ => true | _ => false end.

Definition is_callback (ev : Event) : bool :=
  match ev with EvCallback _ _ => true | _ => false end.

Definition is_dispatch (ev : Event) : bool :=
  match ev with EvDispatch _ _ => true | _ => false end.

(** An event of the scroll loop of [scrollToSelector]. *)
Definition is_scroll_loop (ev : Event) : bool :=
  match ev with
  | EvMeasure _ | EvScrollBy _ | EvRequestFrame => true
  | _ => false
  end.

Definition count (p : Event → bool) (tr : list Event) : nat :=
  length (filter (λ ev, p ev = true) tr).

(** A computation none of whose events satisfies [p]. *)
Definition silent_for {A : Type} (p : Event → bool) (m : M World A) : Prop :=
  ∀ st, count p (trace (m st)) = 0%nat.

(** Events the resolver never produces: those of the scroll loop, of
    event dispatch and of a watcher. *)
Definition not_resolver_event (ev : Event) : bool :=
  is_scroll_loop ev || is_dispatch ev || is_callback ev.

End Vocabulary.

(** The library functions once their Configuration is resolved: the same
    bodies, reading the tunables from the object [c].  They serve to state
    that a call depends on [defaults] and [options] through the merged
    object only. *)
Section Configured.
Context {World : Type} (host : Host World).

Local Abbreviation M := (M World).

(** A computation that reads and moves the page only: it behaves the
    same in two states that agree on the page, and leaves the store as
    it found it. *)
Definition pagewise {A : Type} (m : M A) : Prop :=
  (∀ st1 st2, world st1 = world st2 → behaviour m st1 = behaviour m st2)
  ∧ (∀ st, heap (final (m st)) = heap st ∧ observing (final (m st)) = observing st).

(** A computation that writes to no object that existed before it. *)
Definition extends_store {A : Type} (m : M A) : Prop :=
  ∀ st, heap st ⊆ heap (final (m st)).

Definition wait_with (fuel : nat) (selector : string) (c : Obj)
    : M (Promise (option Element)) :=
  startTime <- page (date_now host);;
  checkSelector host fuel selector (get c "timeout") (get c "pollInterval")
    (get c "visibleCheck") (get c "throwErrors") startTime true.

(** The resolver as [scrollToSelector] runs it: the tunables of [c],
    except that visibility is not required. *)
Definition presence_check (fuel : nat) (selector : string) (c : Obj)
    : M (Promise (option Element)) :=
  startTime <- page (date_now host);;
  checkSelector host fuel selector (get c "timeout") (get c "pollInterval")
    (VBool false) (get c "throwErrors") startTime true.

Definition scroll_found (fuel : nat) (selector : Target) (c : Obj)
    (element : Promise (option Element)) : M (Promise (option Element)) :=
  match element with
  | Rejected e => mret (Rejected e)
  | Abandoned => mret Abandoned
  | Suspended => mret Suspended
  | Fulfilled None =>
      let error :=
        ElementNotFound
          match selector with
          | Selector s => s
          | Handle _ => "Elemento proporcionado"
          end in
      if truthy (get c "throwErrors") then mret (Rejected error)
      else emit (EvWarn error);; mret (Fulfilled None)
  | Fulfilled (Some el) =>
      scrollCheck host fuel el (get c "scrollStep") (get c "maxScrollAttempts")
        (get c "throwErrors") 0
  end.

Definition scroll_with (fuel : nat) (selector : Target) (c : Obj)
    : M (Promise (option Element)) :=
  element <-
    match selector with
    | Selector s => wait_with fuel s (<["visibleCheck" := VBool false]> c)
    | Handle e => mret (Fulfilled e)
    end;;
  scroll_found fuel selector c element.

Definition trigger_found (event : string) (c : Obj)
    (element : Promise (option Element)) : M (Promise bool) :=
  match element with
  | Rejected e => mret (Rejected e)
  | Abandoned => mret Abandoned
  | Suspended => mret Suspended
  | Fulfilled None =>
      let error := TriggerNotFound event in
      if truthy (get c "throwErrors") then mret (Rejected error)
      else emit (EvWarn error);; mret (Fulfilled false)
  | Fulfilled (Some el) =>
      emit (EvDispatch el event);;
      outcome <- page (λ w, dispatchEvent host w el event);;
      match outcome with
      | inr w' => advance (λ _, w');; mret (Fulfilled true)
      | inl name =>
          if truthy (get c "throwErrors") then mret (Rejected (HostError name))
          else emit (EvWarnDispatch event name);; mret (Fulfilled false)
      end
  end.

Definition trigger_with (fuel : nat) (selector : Target) (event : string) (c : Obj)
    : M (Promise bool) :=
  element <-
    match selector with
    | Selector s => wait_with fuel s c
    | Handle e => mret (Fulfilled e)
    end;;
  trigger_found event c element.
End Configured.

(** ** More vocabulary: kinds of events *)

Definition is_timer (ev : Event) : bool :=
  match ev with EvSetTimeout _ => true | _ => false end.

Definition is_warning (ev : Event) : bool :=
  match ev with EvWarn _ | EvWarnDispatch _ _ => true | _ => false end.


Definition is_scroll_warning (ev : Event) : bool :=
  match ev with EvWarn (ScrollError _) => true | _ => false end.

(** A promise that is still waiting for a timer or a frame. *)
Definition is_suspended {A : Type} (p : Promise A) : bool :=
  match p with Suspended => true | _ => false end.

(** The resolver gave up: the timeout error, thrown or downgraded to [null]. *)
Definition gave_up (p : Promise (option Element)) : Prop :=
  p = Fulfilled None ∨ ∃ s t, p = Rejected (TimeoutError s t).

Definition is_inspection (ev : Event) : bool :=
  match ev with
  | EvGetComputedStyle _ | EvOffsetWidth _ | EvOffsetHeight _ => true
  | _ => false
  end.

(** The same process with the page replaced. *)
Definition at_page {World : Type} (st : Proc World) (w : World) : Proc World :=
  {| heap := heap st; observing := observing st; world := w |}.

(** The process once a timer set for [delay] has fired. *)
Definition after_timer {World : Type} (host : Host World) (delay : JsVal)
    (st : Proc World) : Proc World :=
  {| heap := heap st; observing := observing st;
     world := timer_fired host delay (world st) |}.

(** The process at the next animation frame after [scrollBy(amount)]. *)
Definition after_scroll {World : Type} (host : Host World) (amount : option Z)
    (st : Proc World) : Proc World :=
  {| heap := heap st; observing := observing st;
     world := frame_fired host (scrollBy host amount (world st)) |}.

(** The number of warnings a result of the resolver calls for. *)
Definition warnings_owed (p : Promise (option Element)) : nat :=
  match p with Fulfilled None => 1 | _ => 0 end.

(** ** Vocabulary of the watcher *)

(** The element a watcher on [selector] acts on in the state [s]: the
    first element matching the selector, provided it is visible when
    [visibleCheck] is set; none when nothing matches, when the match is
    not visible, or when the query is refused. *)
Definition matching {World : Type} (host : Host World) (selector : string)
    (visibleCheck : JsVal) (s : Proc World) : option Element :=
  match querySelector host (world s) selector with
  | inr (Some el) =>
      if negb (truthy visibleCheck) || result (isVisible host (Some el) s)
      then Some el else None
  | _ => None
  end.

(** The number of batches of [changes], delivered from the state [s] on,
    at which there is such an element.  The callback runs at each of them
    and may itself move the page. *)
Fixpoint matching_batches {World : Type} (host : Host World) (selector : string)
    (visibleCheck : JsVal) (callback : Element → loc → M World unit) (obs : loc)
    (changes : list (World → World)) (s : Proc World) : nat :=
  match changes with
  | [] => 0
  | change :: rest =>
      let s1 := at_page s (change (world s)) in
      match matching host selector visibleCheck s1 with
      | Some el =>
          S (matching_batches host selector visibleCheck callback obs rest
               (final (callback el obs s1)))
      | None =>
          matching_batches host selector visibleCheck callback obs rest s1
      end
  end.

(** A callback that disposes the registration it is handed. *)
Definition disposes_registration {World : Type} (callback : Element → loc → M World unit)
    : Prop :=
  ∀ el obs (s : Proc World), obs ∉ observing (final (callback el obs s)).

(** ** A concrete page

    A page whose state is the clock, in milliseconds.  ["#sticky"] is
    element 7, visible, pinned above the viewport whatever the scroll
    position; ["#late"] is element 3, inserted at time 300; ["#ghost"] is
    element 9, present with [display: none]; ["["] is not a selector. *)
Module StaticPage.
Definition shown : Style :=
  {| display := "block"; visibility := "visible"; opacity := "1" |}.

Definition undisplayed : Style :=
  {| display := "none"; visibility := "visible"; opacity := "1" |}.

Definition query (w : Z) (s : string) : string + option Element :=
  if String.eqb s "[" then inl "SyntaxError"
  else if String.eqb s "#sticky" then inr (Some 7%nat)
  else if String.eqb s "#late" then inr (if 300 <=? w then Some 3%nat else None)
  else if String.eqb s "#ghost" then inr (Some 9%nat)
  else inr None.

Definition rect_of (e : Element) : Rect :=
  if Nat.eqb e 7 then {| top := (-10) # 1; bottom := 30 # 1 |}
  else {| top := 10 # 1; bottom := 50 # 1 |}.

Definition host : Host Z := {|
  querySelector := query;
  getComputedStyle := λ _ e, if Nat.eqb e 9 then undisplayed else shown;
  offsetWidth := λ _ _, 10;
  offsetHeight := λ _ _, 10;
  date_now := λ w, w;
  timer_fired := λ d w, w + default 0 (to_number d);
  getBoundingClientRect := λ _ e, rect_of e;
  innerHeight := λ _, 600;
  scrollBy := λ _ w, w;
  frame_fired := λ w, w + 16;
  dispatchEvent := λ w _ _, inr w
|}.

(** The page at time 0, the module just loaded. *)
Definition start : Proc Z := initial_proc 0.

(** The same, after the caller built the object [o] to pass as options. *)
Definition start_with (o : Obj) : Proc Z :=
  {| heap := <[2%positive := o]> {[ defaults := initial_defaults ]};
     observing := ∅; world := 0 |}.

Definition caller_options : loc := 2%positive.
End StaticPage.

(** ** [selectAll]

    [document.querySelectorAll] is one more capability of the host: the
    matching elements in document order, or a thrown exception. *)
Section SelectAll.
Context {World : Type} (host : Host World)
        (querySelectorAll : World → string → string + list Element).

(** [elements.filter(isVisible)]: the predicate is called on each element
    in turn. *)
Fixpoint filter_visible (elements : list Element) : M World (list Element) :=
  match elements with
  | [] => mret []
  | el :: rest =>
      keep <- isVisible host (Some el);;
      kept <- filter_visible rest;;
      mret (if keep then el :: kept else kept)
  end.

(** Lines 166-170: what [selectAll] does once the awaited
    [waitForSelector] has settled.  Its value is not used: only its
    rejection matters. *)
Definition select_found (selector : string) (c : Obj)
    (waited : Promise (option Element)) : M World (Promise (list Element)) :=
  match waited with
  | Rejected e => mret (Rejected e)
  | Abandoned => mret Abandoned
  | Suspended => mret Suspended
  | Fulfilled _ =>
      found <- page (λ w, querySelectorAll w selector);;
      match found with
      | inl name => mret (Rejected (HostError name))
      | inr elements =>
          if truthy (get c "visibleCheck")
          then kept <- filter_visible elements;; mret (Fulfilled kept)
          else mret (Fulfilled elements)
      end
  end.

(** Lines 162-171. *)
Definition selectAll (fuel : nat) (selector : string) (options : option loc)
    : M World (Promise (list Element)) :=
  config <- merge_config options;;
  c <- read config;;
  inner <- alloc (<["visibleCheck" := VBool false]> c);;
  waited <- waitForSelector host fuel selector (Some inner);;
  select_found selector c waited.

(** The elements of a list that [isVisible] accepts on the page of [st]. *)
Definition visible_among (st : Proc World) (elements : list Element) : list Element :=
  List.filter (λ el, result (isVisible host (Some el) st)) elements.
End SelectAll.

(** The concrete page with lists: elements 7, 9 and 3 carry the class
    ["item"], other selectors match what they match on [StaticPage];
    [querySelector] answers the first element of [querySelectorAll]. *)
Module ListPage.
Definition query_all (w : Z) (s : string) : string + list Element :=
  if String.eqb s ".item" then inr [7%nat; 9%nat; 3%nat]
  else match StaticPage.query w s with
       | inl name => inl name
       | inr (Some el) => inr [el]
       | inr None => inr []
       end.

Definition host : Host Z := {|
  querySelector := λ w s, match query_all w s with
                          | inl name => inl name
                          | inr l => inr (head l)
                          end;
  getComputedStyle := getComputedStyle StaticPage.host;
  offsetWidth := offsetWidth StaticPage.host;
  offsetHeight := offsetHeight StaticPage.host;
  date_now := date_now StaticPage.host;
  timer_fired := timer_fired StaticPage.host;
  getBoundingClientRect := getBoundingClientRect StaticPage.host;
  innerHeight := innerHeight StaticPage.host;
  scrollBy := scrollBy StaticPage.host;
  frame_fired := frame_fired StaticPage.host;
  dispatchEvent := dispatchEvent StaticPage.host
|}.
End ListPage.

(** The concrete page again, except that dispatching at element 9 makes
    the host throw, and that a successful dispatch takes one millisecond. *)
Module FragilePage.
Definition host : Host Z := {|
  querySelector := StaticPage.query;
  getComputedStyle := getComputedStyle StaticPage.host;
  offsetWidth := offsetWidth StaticPage.host;
  offsetHeight := offsetHeight StaticPage.host;
  date_now := date_now StaticPage.host;
  timer_fired := timer_fired StaticPage.host;
  getBoundingClientRect := getBoundingClientRect StaticPage.host;
  innerHeight := innerHeight StaticPage.host;
  scrollBy := scrollBy StaticPage.host;
  frame_fired := frame_fired StaticPage.host;
  dispatchEvent := λ w e _, if Nat.eqb e 9 then inl "InvalidStateError" else inr (w + 1)
|}.
End FragilePage.

(** ** SelectorToolkit

    The second library of [src/DOMAdvanced.js] (its last part): a bounded
    wait written as a loop, a lookup that cannot throw, and [run], which
    waits for an element, activates it and outlines it.  It keeps no state
    of its own; its computations read and move the page and log what they
    do. *)

(** The errors the toolkit sees: its own timeout error (message
    [Selector "..." no disponible tras ...ms]) and host exceptions. *)
Inductive ToolkitError : Type :=
| Unavailable (selector : string) (timeout : JsVal)
| Thrown (name : string).

(** State of the promise of an async toolkit function at the horizon. *)
Inductive Outcome (A : Type) : Type :=
| Done (a : A)
| Failed (e : ToolkitError)
| Waiting.

Arguments Done {A}.
Arguments Failed {A}.
Arguments Waiting {A}.

Inductive Action : Type :=
| ActQuery (selector : string)
| ActSleep (delay : JsVal)
| ActWarnInvalid (selector : string) (name : string)
| ActWarnUnavailable
| ActLogError (e : ToolkitError)
| ActScrollIntoView (e : Element)
| ActClick (e : Element)
| ActFocus (e : Element)
| ActSetStyle (e : Element) (property : string) (value : string)
| ActSelect (e : Element)
| ActSelectNodeContents (e : Element)
| ActRemoveAllRanges
| ActAddRange (e : Element).

(** What the helper libraries do to elements.  [has_click], [has_focus]
    and [has_select] tell whether the element has the method;
    [has_createRange] whether the document has [createRange];
    [select_range] is the page once a range over the contents of the
    element has replaced the selection. *)
Record Dom (World : Type) : Type := {
  scrollIntoView : World → Element → World;
  has_click : World → Element → bool;
  click : World → Element → World;
  has_focus : World → Element → bool;
  focus : World → Element → World;
  set_style : World → Element → string → string → World;
  has_select : World → Element → bool;
  select : World → Element → World;
  has_createRange : World → bool;
  select_range : World → Element → World
}.

Arguments scrollIntoView {World}.
Arguments has_click {World}.
Arguments click {World}.
Arguments has_focus {World}.
Arguments focus {World}.
Arguments set_style {World}.
Arguments has_select {World}.
Arguments select {World}.
Arguments has_createRange {World}.
Arguments select_range {World}.

Definition Script (World A : Type) : Type := World → A * list Action * World.

Definition sret {World A : Type} (a : A) : Script World A := λ w, (a, [], w).

Definition sbind {World A B : Type} (m : Script World A) (f : A → Script World B)
    : Script World B :=
  λ w, let '(a, t1, w1) := m w in
       let '(b, t2, w2) := f a w1 in
       (b, t1 ++ t2, w2).

Notation "x <~ m ;; k" := (sbind m (λ x, k))
  (at level 100, m at next level, right associativity, only parsing).

Definition act {World : Type} (a : Action) : Script World unit := λ w, (tt, [a], w).
Definition look {World A : Type} (f : World → A) : Script World A := λ w, (f w, [], w).
Definition move {World : Type} (f : World → World) : Script World unit :=
  λ w, (tt, [], f w).

(** [a < b] on numbers; false when either side is NaN. *)
Definition js_lt (a b : option Z) : bool :=
  match a, b with
  | Some x, Some y => x <? y
  | _, _ => false
  end.

(** A parameter with a default value: the default replaces [undefined]. *)
Definition param_or (v fallback : JsVal) : JsVal :=
  match v with
  | VUndefined => fallback
  | _ => v
  end.

Definition is_toolkit_query (a : Action) : bool :=
  match a with ActQuery _ => true | _ => false end.

Definition is_error_log (a : Action) : bool :=
  match a with ActLogError _ => true | _ => false end.

Definition is_failed {A : Type} (o : Outcome A) : bool :=
  match o with Failed _ => true | _ => false end.

Definition tally (p : Action → bool) (tr : list Action) : nat :=
  length (List.filter p tr).

Definition outcome {World A : Type} (r : A * list Action * World) : A := r.1.1.
Definition actions {World A : Type} (r : A * list Action * World) : list Action := r.1.2.
Definition page_after {World A : Type} (r : A * list Action * World) : World := r.2.

Module SelectorToolkit.
Section Toolkit.
Context {World : Type} (host : Host World) (dom : Dom World).

(** The [while] loop of [waitForSelector]; [fuel] is the number of timer
    callbacks the run includes. *)
Fixpoint wait_loop (fuel : nat) (selector : string) (timeout interval : JsVal)
    (startTime : Z) : Script World (Outcome Element) :=
  now <~ look (date_now host);;
  if js_lt (Some (now - startTime)) (to_number timeout) then
    _ <~ act (ActQuery selector);;
    found <~ look (λ w, querySelector host w selector);;
    match found with
    | inl name => sret (Failed (Thrown name))
    | inr (Some el) => sret (Done el)
    | inr None =>
        _ <~ act (ActSleep interval);;
        match fuel with
        | O => sret Waiting
        | S fuel' =>
            _ <~ move (timer_fired host interval);;
            wait_loop fuel' selector timeout interval startTime
        end
    end
  else sret (Failed (Unavailable selector timeout)).

(** [waitForSelector(selector, timeout = 10000, interval = 200)]. *)
Definition waitForSelector (fuel : nat) (selector : string) (timeout interval : JsVal)
    : Script World (Outcome Element) :=
  startTime <~ look (date_now host);;
  wait_loop fuel selector (param_or timeout (VNum 10000))
    (param_or interval (VNum 200)) startTime.

Definition safeQuerySelector (selector : string) : Script World (option Element) :=
  _ <~ act (ActQuery selector);;
  found <~ look (λ w, querySelector host w selector);;
  match found with
  | inl name => _ <~ act (ActWarnInvalid selector name);; sret None
  | inr element => sret element
  end.

Definition activateElement (el : option Element) : Script World unit :=
  match el with
  | None => act ActWarnUnavailable
  | Some e =>
      _ <~ act (ActScrollIntoView e);;
      _ <~ move (λ w, scrollIntoView dom w e);;
      can_click <~ look (λ w, has_click dom w e);;
      _ <~ (if can_click
            then _ <~ act (ActClick e);; move (λ w, click dom w e)
            else sret tt);;
      can_focus <~ look (λ w, has_focus dom w e);;
      if can_focus
      then _ <~ act (ActFocus e);; move (λ w, focus dom w e)
      else sret tt
  end.

Definition highlightElement (el : option Element) : Script World unit :=
  match el with
  | None => sret tt
  | Some e =>
      _ <~ act (ActSetStyle e "outline" "2px solid #f00");;
      _ <~ move (λ w, set_style dom w e "outline" "2px solid #f00");;
      _ <~ act (ActSetStyle e "transition" "outline 0.3s ease-in-out");;
      move (λ w, set_style dom w e "transition" "outline 0.3s ease-in-out")
  end.

(** [run]: the [try] block awaits the wait, then activates and outlines;
    the [catch] logs. *)
Definition run (fuel : nat) (selector : string) : Script World (Outcome unit) :=
  waited <~ waitForSelector fuel selector VUndefined VUndefined;;
  match waited with
  | Done el =>
      _ <~ activateElement (Some el);;
      _ <~ highlightElement (Some el);;
      sret (Done tt)
  | Failed e =>
      _ <~ act (ActLogError e);;
      sret (Done tt)
  | Waiting => sret Waiting
  end.
End Toolkit.
End SelectorToolkit.

(** A concrete [Dom] over the clock pages: acting on an element takes no
    time; element 9 has no [click] method. *)
Definition static_dom : Dom Z := {|
  scrollIntoView := λ w _, w;
  has_click := λ _ e, negb (Nat.eqb e 9);
  click := λ w _, w;
  has_focus := λ _ _, true;
  focus := λ w _, w;
  set_style := λ w _ _ _, w;
  has_select := λ _ e, Nat.eqb e 3;
  select := λ w _, w;
  has_createRange := λ _, true;
  select_range := λ w _, w
|}.

(** ** utilsDOM

    [src/Utils.user.js]: synchronous helpers around [document.querySelector].
    A helper either returns ([inr]) or lets a host exception through
    ([inl]): a selector the document rejects, or a method the element does
    not have. *)
Module UtilsDOM.
Section Utils.
Context {World : Type} (host : Host World) (dom : Dom World).

(** [document.querySelector(selector)], then [k] on what it answers. *)
Definition with_element (selector : string)
    (k : option Element → Script World (string + option Element))
    : Script World (string + option Element) :=
  _ <~ act (ActQuery selector);;
  found <~ look (λ w, querySelector host w selector);;
  match found with
  | inl name => sret (inl name)
  | inr el => k el
  end.

(** [el.focus()]: a [TypeError] when the element has no such method. *)
Definition call_focus (e : Element) : Script World (string + unit) :=
  can_focus <~ look (λ w, has_focus dom w e);;
  if can_focus
  then _ <~ act (ActFocus e);; _ <~ move (λ w, focus dom w e);; sret (inr tt)
  else sret (inl "TypeError").

Definition qSelector (selector : string) : Script World (string + option Element) :=
  with_element selector (λ el, sret (inr el)).

Definition activarElemento (selector : string) : Script World (string + option Element) :=
  with_element selector (λ el,
    match el with
    | Some e =>
        focused <~ call_focus e;;
        match focused with
        | inl name => sret (inl name)
        | inr _ => sret (inr el)
        end
    | None => sret (inr el)
    end).

Definition seleccionarElemento (selector : string)
    : Script World (string + option Element) :=
  with_element selector (λ el,
    match el with
    | Some e =>
        can_select <~ look (λ w, has_select dom w e);;
        if can_select
        then _ <~ act (ActSelect e);; _ <~ move (λ w, select dom w e);; sret (inr el)
        else
          ranges <~ look (has_createRange dom);;
          if ranges
          then
            _ <~ act (ActSelectNodeContents e);;
            _ <~ act ActRemoveAllRanges;;
            _ <~ act (ActAddRange e);;
            _ <~ move (λ w, select_range dom w e);;
            sret (inr el)
          else sret (inr el)
    | None => sret (inr el)
    end).

Definition scrollElemento (selector : string) : Script World (string + option Element) :=
  with_element selector (λ el,
    match el with
    | Some e =>
        _ <~ act (ActScrollIntoView e);;
        _ <~ move (λ w, scrollIntoView dom w e);;
        sret (inr el)
    | None => sret (inr el)
    end).

(** [activateAndScroll(selector)]: its argument is an element, not a
    selector string. *)
Definition activateAndScroll (el : option Element) : Script World (string + unit) :=
  match el with
  | Some e =>
      _ <~ act (ActScrollIntoView e);;
      _ <~ move (λ w, scrollIntoView dom w e);;
      focused <~ call_focus e;;
      match focused with
      | inl name => sret (inl name)
      | inr _ =>
          can_select <~ look (λ w, has_select dom w e);;
          if can_select
          then _ <~ act (ActSelect e);; _ <~ move (λ w, select dom w e);; sret (inr tt)
          else sret (inr tt)
      end
  | None => sret (inr tt)
  end.
End Utils.
End UtilsDOM.

(** * Properties *)

(** ** Runs of sequenced computations *)

Section Runs.
Context {World : Type}.

Lemma bind_unfold {A B : Type} (m : M World A) (f : A → M World B) (st : Proc World) :
  bind m f st =
    (result (f (result (m st)) (final (m st))),
     trace (m st) ++ trace (f (result (m st)) (final (m st))),
     final (f (result (m st)) (final (m st)))).
Proof.
  unfold bind, result, trace, final.
  destruct (m st) as [[a t1] st1]; simpl.
  destruct (f a st1) as [[b t2] st2]; reflexivity.
Qed.

Lemma result_bind {A B : Type} (m : M World A) (f : A → M World B) st :
  result (bind m f st) = result (f (result (m st)) (final (m st))).
Proof. rewrite bind_unfold; reflexivity. Qed.

Lemma trace_bind {A B : Type} (m : M World A) (f : A → M World B) st :
  trace (bind m f st) = trace (m st) ++ trace (f (result (m st)) (final (m st))).
Proof. rewrite bind_unfold; reflexivity. Qed.

Lemma final_bind {A B : Type} (m : M World A) (f : A → M World B) st :
  final (bind m f st) = final (f (result (m st)) (final (m st))).
Proof. rewrite bind_unfold; reflexivity. Qed.

Lemma run_eta {A : Type} (r : A * list Event * Proc World) :
  r = (result r, trace r, final r).
Proof. destruct r as [[a t] s]; reflexivity. Qed.
End Runs.

(** ** The visibility predicate *)

Section Visibility.
Context {World : Type} (host : Host World).

(** C5.  For an element that exists, [isVisible] answers [true] exactly
    when the computed display is not "none", the computed visibility is
    not "hidden", the computed opacity is not the string "0", and the
    rendered width and height are both strictly positive. *)
Theorem isVisible_four_conditions (st : Proc World) (el : Element) :
  result (isVisible host (Some el) st) = true ↔
    display (getComputedStyle host (world st) el) ≠ "none"
    ∧ visibility (getComputedStyle host (world st) el) ≠ "hidden"
    ∧ opacity (getComputedStyle host (world st) el) ≠ "0"
    ∧ 0 < offsetWidth host (world st) el
    ∧ 0 < offsetHeight host (world st) el.
Proof.
  unfold isVisible, result, mbind, M_bind, mret, M_ret, bind, ret, emit, page; simpl.
  destruct (String.eqb_spec (display (getComputedStyle host (world st) el)) "none") as [Hd|Hd];
    simpl; [intuition congruence|].
  destruct (String.eqb_spec (visibility (getComputedStyle host (world st) el)) "hidden") as [Hv|Hv];
    simpl; [intuition congruence|].
  destruct (String.eqb_spec (opacity (getComputedStyle host (world st) el)) "0") as [Ho|Ho];
    simpl; [intuition congruence|].
  destruct (Z.ltb_spec 0 (offsetWidth host (world st) el)) as [Hw|Hw]; simpl.
  - destruct (Z.ltb_spec 0 (offsetHeight host (world st) el)) as [Hh|Hh]; simpl.
    + intuition.
    + split; [discriminate | intros (_ & _ & _ & _ & ?); lia].
  - split; [discriminate | intros (_ & _ & _ & ? & _); lia].
Qed.

(** C9.  On an absent element [isVisible] answers [false] at once: no
    style or geometry accessor is called and nothing changes. *)
Theorem isVisible_absent (st : Proc World) :
  isVisible host None st = (false, [], st).
Proof. unfold isVisible, mret, M_ret, ret. reflexivity. Qed.
End Visibility.

(** ** Computations that touch the page only *)

Section Pagewise.
Context {World : Type} (host : Host World).

Lemma pagewise_ret {A : Type} (a : A) : pagewise (ret a : M World A).
Proof.
  split; [|done].
  intros st1 st2 H; unfold behaviour, ret, result, trace, final; simpl; congruence.
Qed.

Lemma pagewise_emit (ev : Event) : pagewise (emit ev : M World unit).
Proof.
  split; [|done].
  intros st1 st2 H; unfold behaviour, emit, result, trace, final; simpl; congruence.
Qed.

Lemma pagewise_page {A : Type} (f : World → A) : pagewise (page f).
Proof.
  split; [|done].
  intros st1 st2 H; unfold behaviour, page, result, trace, final; simpl; congruence.
Qed.

Lemma pagewise_advance (f : World → World) : pagewise (advance f).
Proof.
  split; [|done].
  intros st1 st2 H; unfold behaviour, advance, result, trace, final; simpl; congruence.
Qed.

Lemma pagewise_bind {A B : Type} (m : M World A) (f : A → M World B) :
  pagewise m → (∀ a, pagewise (f a)) → pagewise (bind m f).
Proof.
  intros [Hm1 Hm2] Hf; split.
  - intros st1 st2 Hw. unfold behaviour.
    rewrite !result_bind, !trace_bind, !final_bind.
    specialize (Hm1 st1 st2 Hw). unfold behaviour in Hm1.
    injection Hm1 as Hr Ht Hw'.
    rewrite Hr, Ht.
    destruct (Hf (result (m st2))) as [Hf1 _].
    specialize (Hf1 _ _ Hw'). unfold behaviour in Hf1.
    injection Hf1 as Hr' Ht' Hw''. congruence.
  - intros st. rewrite final_bind.
    destruct (Hf (result (m st))) as [_ Hf2].
    destruct (Hf2 (final (m st))) as [-> ->]. apply Hm2.
Qed.

Lemma pagewise_seq {A B : Type} (m : M World A) (k : M World B) :
  pagewise m → pagewise k → pagewise (m ;; k).
Proof. intros; apply pagewise_bind; auto. Qed.

Lemma pagewise_mret {A : Type} (a : A) : pagewise (mret a : M World A).
Proof. apply pagewise_ret. Qed.

Lemma pagewise_behaviour {A : Type} (m : M World A) st1 st2 :
  pagewise m → world st1 = world st2 → behaviour m st1 = behaviour m st2.
Proof. intros [H _]; apply H. Qed.

Lemma pagewise_heap {A : Type} (m : M World A) st :
  pagewise m → heap (final (m st)) = heap st.
Proof. intros [_ H]; apply H. Qed.

Lemma pagewise_observing {A : Type} (m : M World A) st :
  pagewise m → observing (final (m st)) = observing st.
Proof. intros [_ H]; apply H. Qed.

Lemma pagewise_extends {A : Type} (m : M World A) : pagewise m → extends_store m.
Proof. intros H st. by rewrite (pagewise_heap m st H). Qed.
End Pagewise.

Section PagewiseLibrary.
Context {World : Type} (host : Host World).

Lemma pagewise_isVisible element : pagewise (isVisible host element).
Proof.
  destruct element as [el|]; simpl; [|apply pagewise_mret].
  apply pagewise_seq; [apply pagewise_emit|].
  apply pagewise_bind; [apply pagewise_page|intros style].
  destruct (_ && _); [|apply pagewise_mret].
  apply pagewise_seq; [apply pagewise_emit|].
  apply pagewise_bind; [apply pagewise_page|intros width].
  destruct (0 <? width); [|apply pagewise_mret].
  apply pagewise_seq; [apply pagewise_emit|].
  apply pagewise_bind; [apply pagewise_page|intros height]. apply pagewise_mret.
Qed.

Lemma pagewise_accepted visibleCheck element :
  pagewise (accepted host visibleCheck element).
Proof.
  destruct element as [el|]; cbn [accepted]; [|apply pagewise_mret].
  destruct (negb _); [apply pagewise_mret | apply (pagewise_isVisible (Some el))].
Qed.

Lemma pagewise_checkSelector fuel selector timeout pollInterval visibleCheck
    throwErrors startTime in_executor :
  pagewise (checkSelector host fuel selector timeout pollInterval visibleCheck
              throwErrors startTime in_executor).
Proof.
  revert in_executor.
  induction fuel as [|fuel IH]; intros in_executor; cbn [checkSelector].
  all: apply pagewise_seq; [apply pagewise_emit|].
  all: apply pagewise_bind; [apply pagewise_page|intros [name|element]].
  all: try (destruct in_executor; [apply pagewise_mret|];
            apply pagewise_seq; [apply pagewise_emit|apply pagewise_mret]).
  all: apply pagewise_bind; [apply pagewise_accepted|intros [|]];
    [apply pagewise_mret|].
  all: apply pagewise_bind; [apply pagewise_page|intros t].
  all: destruct (js_gt _ _);
    [destruct (truthy _); [apply pagewise_mret|];
     apply pagewise_seq; [apply pagewise_emit|apply pagewise_mret]|].
  all: apply pagewise_seq; [apply pagewise_emit|].
  - apply pagewise_mret.
  - apply pagewise_seq; [apply pagewise_advance|apply IH].
Qed.

Lemma pagewise_scrollCheck fuel element scrollStep maxScrollAttempts throwErrors attempts :
  pagewise (scrollCheck host fuel element scrollStep maxScrollAttempts throwErrors attempts).
Proof.
  revert attempts.
  induction fuel as [|fuel IH]; intros attempts; cbn [scrollCheck].
  all: apply pagewise_seq; [apply pagewise_emit|].
  all: apply pagewise_bind; [apply pagewise_page|intros rect].
  all: apply pagewise_bind; [apply pagewise_page|intros vh].
  all: destruct (in_viewport _ _); [apply pagewise_mret|].
  all: destruct (js_ge _ _);
    [destruct (truthy _); [apply pagewise_mret|];
     apply pagewise_seq; [apply pagewise_emit|apply pagewise_mret]|].
  all: apply pagewise_seq; [apply pagewise_emit|].
  all: apply pagewise_seq; [apply pagewise_advance|].
  all: apply pagewise_seq; [apply pagewise_emit|].
  - apply pagewise_mret.
  - apply pagewise_seq; [apply pagewise_advance|apply IH].
Qed.

Lemma pagewise_wait_with fuel selector c : pagewise (wait_with host fuel selector c).
Proof.
  apply pagewise_bind; [apply pagewise_page|intros t]. apply pagewise_checkSelector.
Qed.

Lemma pagewise_scroll_found fuel selector c element :
  pagewise (scroll_found host fuel selector c element).
Proof.
  destruct element as [[el|]| | |]; simpl; try apply pagewise_mret.
  - apply pagewise_scrollCheck.
  - destruct (truthy _); [apply pagewise_mret|].
    apply pagewise_seq; [apply pagewise_emit|apply pagewise_mret].
Qed.

Lemma pagewise_scroll_with fuel selector c : pagewise (scroll_with host fuel selector c).
Proof.
  apply pagewise_bind; [|intros; apply pagewise_scroll_found].
  destruct selector; [apply pagewise_wait_with|apply pagewise_mret].
Qed.

Lemma pagewise_trigger_found event c element :
  pagewise (trigger_found host event c element).
Proof.
  destruct element as [[el|]| | |]; simpl; try apply pagewise_mret.
  - apply pagewise_seq; [apply pagewise_emit|].
    apply pagewise_bind; [apply pagewise_page|intros [name|w']].
    + destruct (truthy _); [apply pagewise_mret|].
      apply pagewise_seq; [apply pagewise_emit|apply pagewise_mret].
    + apply pagewise_seq; [apply pagewise_advance|apply pagewise_mret].
  - destruct (truthy _); [apply pagewise_mret|].
    apply pagewise_seq; [apply pagewise_emit|apply pagewise_mret].
Qed.

Lemma pagewise_trigger_with fuel selector event c :
  pagewise (trigger_with host fuel selector event c).
Proof.
  apply pagewise_bind; [|intros; apply pagewise_trigger_found].
  destruct selector; [apply pagewise_wait_with|apply pagewise_mret].
Qed.
End PagewiseLibrary.

(** ** The store: fresh objects and the merged Configuration *)

Section Store.
Context {World : Type} (host : Host World).

Lemma alloc_extends (o : Obj) : extends_store (alloc o : M World loc).
Proof.
  intros st. unfold alloc, final; simpl.
  apply insert_subseteq, not_elem_of_dom, is_fresh.
Qed.

Lemma extends_bind {A B : Type} (m : M World A) (f : A → M World B) :
  extends_store m → (∀ a, extends_store (f a)) → extends_store (bind m f).
Proof.
  intros Hm Hf st. rewrite final_bind.
  etrans; [apply Hm | apply Hf].
Qed.

(** [{ ...defaults, ...options }] is a new object holding the merge; no
    object that existed is written. *)
Lemma merge_config_spec (options : option loc) (st : Proc World) :
  trace (merge_config options st) = []
  ∧ world (final (merge_config options st)) = world st
  ∧ observing (final (merge_config options st)) = observing st
  ∧ heap st ⊆ heap (final (merge_config options st))
  ∧ heap st !! result (merge_config options st) = None
  ∧ heap (final (merge_config options st)) !! result (merge_config options st)
    = Some (effective st options).
Proof.
  unfold merge_config, effective, baseline, options_object.
  destruct options as [l|]; cbn [options_or_empty].
  - unfold mret, M_ret, ret, bind, read, alloc, result, trace, final; simpl.
    split; [done|]. split; [done|]. split; [done|].
    split; [apply insert_subseteq, not_elem_of_dom, is_fresh|].
    split; [apply not_elem_of_dom, is_fresh|].
    apply lookup_insert_eq.
  - unfold mret, M_ret, ret, bind, read, alloc, result, trace, final; simpl.
    set (l1 := fresh (dom (heap st))).
    assert (Hl1 : heap st !! l1 = None) by apply not_elem_of_dom, is_fresh.
    set (l2 := fresh (dom (<[l1:=∅]> (heap st)))).
    assert (Hl2 : <[l1:=∅]> (heap st) !! l2 = None) by apply not_elem_of_dom, is_fresh.
    assert (Hne : l1 ≠ l2).
    { intros Heq. rewrite <- Heq, lookup_insert_eq in Hl2. discriminate. }
    rewrite lookup_insert_ne in Hl2 by done.
    split; [done|]. split; [done|]. split; [done|].
    split.
    { etrans; [apply insert_subseteq; exact Hl1|].
      apply insert_subseteq. by rewrite lookup_insert_ne. }
    split; [exact Hl2|].
    rewrite lookup_insert_eq, lookup_insert_eq. f_equal.
    destruct (decide (l1 = defaults)) as [->|Hd].
    + rewrite lookup_insert_eq, Hl1. reflexivity.
    + rewrite lookup_insert_ne by done. reflexivity.
Qed.

Lemma merge_config_extends options : extends_store (merge_config options : M World loc).
Proof. intros st. apply merge_config_spec. Qed.

(** Key by key: the value in [options] when the key is there, the value
    in [defaults] otherwise. *)
Lemma effective_lookup (st : Proc World) (options : option loc) (k : string) :
  effective st options !! k =
    match options_object st options !! k with
    | Some v => Some v
    | None => baseline st !! k
    end.
Proof.
  unfold effective, spread2.
  destruct (options_object st options !! k) as [v|] eqn:Hk.
  - by apply lookup_union_Some_l.
  - by rewrite lookup_union_r.
Qed.
End Store.

(** ** Every call runs on the merged Configuration *)

Section Behaviour.
Context {World : Type} (host : Host World).

Lemma bind_silent {A B : Type} (m : M World A) (f : A → M World B) st a st1 :
  m st = (a, [], st1) → bind m f st = f a st1.
Proof.
  intros H. unfold bind. rewrite H.
  destruct (f a st1) as [[b t] s]; reflexivity.
Qed.

Lemma bind_ext_final {A B : Type} (m : M World A) (f g : A → M World B) st :
  (∀ a, f a (final (m st)) = g a (final (m st))) → bind m f st = bind m g st.
Proof. intros H. rewrite !bind_unfold, H. reflexivity. Qed.

Lemma bind_assoc {A B C : Type} (m : M World A) (f : A → M World B)
    (g : B → M World C) st :
  bind (bind m f) g st = bind m (λ x, bind (f x) g) st.
Proof.
  unfold bind. destruct (m st) as [[a t1] s1].
  destruct (f a s1) as [[b t2] s2]. destruct (g b s2) as [[c t3] s3].
  by rewrite app_assoc.
Qed.

Lemma merge_config_run options (st : Proc World) :
  ∃ cfg st1,
    merge_config options st = (cfg, [], st1)
    ∧ heap st ⊆ heap st1 ∧ world st1 = world st ∧ observing st1 = observing st
    ∧ heap st !! cfg = None
    ∧ heap st1 !! cfg = Some (effective st options).
Proof.
  destruct (merge_config_spec options st) as (Ht & Hw & Ho & Hsub & Hn & Hc).
  exists (result (merge_config options st)), (final (merge_config options st)).
  split; [|done].
  rewrite (run_eta (merge_config options st)) at 1. by rewrite Ht.
Qed.

Lemma read_run (l : loc) (st : Proc World) (o : Obj) :
  heap st !! l = Some o → read l st = (o, [], st).
Proof. intros H. unfold read. by rewrite H. Qed.

Lemma baseline_extends (st st1 : Proc World) :
  loaded st → heap st ⊆ heap st1 → baseline st1 = baseline st.
Proof.
  intros [d Hd] Hsub. unfold baseline.
  by rewrite (lookup_weaken _ _ _ _ Hd Hsub), Hd.
Qed.

Lemma waitForSelector_run fuel selector options st :
  ∃ st1, heap st ⊆ heap st1 ∧ world st1 = world st ∧ observing st1 = observing st
    ∧ waitForSelector host fuel selector options st
      = wait_with host fuel selector (effective st options) st1.
Proof.
  destruct (merge_config_run options st) as (cfg & st1 & Hm & Hsub & Hw & Ho & _ & Hc).
  exists st1. split; [done|]. split; [done|]. split; [done|].
  unfold waitForSelector, wait_with.
  rewrite (bind_silent _ _ _ _ _ Hm).
  rewrite (bind_silent _ _ _ _ _ (read_run _ _ _ Hc)).
  reflexivity.
Qed.

Lemma options_or_empty_run options (st : Proc World) :
  options_valid st options →
  ∃ opts st1,
    options_or_empty options st = (opts, [], st1)
    ∧ heap st ⊆ heap st1 ∧ world st1 = world st ∧ observing st1 = observing st
    ∧ heap st1 !! opts = Some (options_object st options).
Proof.
  destruct options as [l|]; simpl.
  - intros [o Ho]. exists l, st. rewrite Ho. done.
  - intros _. eexists _, _. split; [reflexivity|]. simpl.
    split; [apply insert_subseteq, not_elem_of_dom, is_fresh|].
    split; [done|]. split; [done|]. apply lookup_insert_eq.
Qed.

Lemma scrollToSelector_run fuel selector options st :
  loaded st → options_valid st options →
  ∃ st1, heap st ⊆ heap st1 ∧ world st1 = world st ∧ observing st1 = observing st
    ∧ scrollToSelector host fuel selector options st
      = scroll_with host fuel selector (effective st options) st1.
Proof.
  intros Hl Hv.
  destruct (options_or_empty_run options st Hv) as (opts & sa & Ha & Hsa & Hwa & Hoa & Hopts).
  destruct (merge_config_run (Some opts) sa) as (cfg & sb & Hb & Hsb & Hwb & Hob & Hfresh & Hc).
  assert (Heff : effective sa (Some opts) = effective st options).
  { unfold effective. rewrite (baseline_extends st sa Hl Hsa).
    simpl. by rewrite Hopts. }
  rewrite Heff in Hc.
  unfold scrollToSelector.
  rewrite (bind_silent _ _ _ _ _ Ha), (bind_silent _ _ _ _ _ Hb).
  rewrite (bind_silent _ _ _ _ _ (read_run _ _ _ Hc)).
  destruct selector as [s|e].
  - assert (Hopts_b : heap sb !! opts = Some (options_object st options))
      by (eapply lookup_weaken; eauto).
    rewrite bind_assoc.
    rewrite (bind_silent _ _ _ _ _ (read_run _ _ _ Hopts_b)).
    rewrite bind_assoc.
    set (inner := result (alloc (<["visibleCheck" := VBool false]> (options_object st options)) sb)).
    set (sc := final (alloc (<["visibleCheck" := VBool false]> (options_object st options)) sb)).
    assert (Hal : alloc (<["visibleCheck" := VBool false]> (options_object st options)) sb
                  = (inner, [], sc)) by reflexivity.
    rewrite (bind_silent _ _ _ _ _ Hal).
    assert (Hsc : heap sb ⊆ heap sc) by apply alloc_extends.
    destruct (waitForSelector_run fuel s (Some inner) sc)
      as (sd & Hsd & Hwd & Hod & Hrun).
    exists sd.
    assert (Hst_sc : heap st ⊆ heap sc)
      by (etrans; [exact Hsa|]; etrans; [exact Hsb|exact Hsc]).
    split; [by etrans|].
    split; [by rewrite Hwd; change (world sc) with (world sb); rewrite Hwb|].
    split; [by rewrite Hod; change (observing sc) with (observing sb); rewrite Hob|].
    unfold scroll_with.
    rewrite !bind_unfold, Hrun.
    assert (Hin : effective sc (Some inner)
                  = <["visibleCheck" := VBool false]> (effective st options)).
    { unfold effective, spread2. rewrite (baseline_extends st sc Hl).
      - simpl. subst inner sc. unfold alloc, result, final; simpl.
        rewrite lookup_insert_eq. simpl. by rewrite insert_union_l.
      - exact Hst_sc. }
    rewrite Hin. reflexivity.
  - exists sb.
    split; [by etrans|]. split; [by rewrite Hwb|]. split; [by rewrite Hob|].
    reflexivity.
Qed.

Lemma effective_config_again (st st1 : Proc World) options cfg :
  loaded st → heap st ⊆ heap st1 →
  heap st1 !! cfg = Some (effective st options) →
  effective st1 (Some cfg) = effective st options.
Proof.
  intros Hl Hsub Hc. unfold effective at 1. simpl. rewrite Hc. simpl.
  rewrite (baseline_extends st st1 Hl Hsub).
  unfold effective, spread2.
  by rewrite <- (assoc_L (∪)), (idemp_L (∪)).
Qed.

Lemma triggerEvent_run fuel selector event options st :
  loaded st →
  ∃ st1, heap st ⊆ heap st1 ∧ world st1 = world st ∧ observing st1 = observing st
    ∧ triggerEvent host fuel selector event options st
      = trigger_with host fuel selector event (effective st options) st1.
Proof.
  intros Hl.
  destruct (merge_config_run options st) as (cfg & sa & Ha & Hsa & Hwa & Hoa & _ & Hc).
  unfold triggerEvent.
  rewrite (bind_silent _ _ _ _ _ Ha).
  destruct selector as [s|e].
  - destruct (waitForSelector_run fuel s (Some cfg) sa) as (sb & Hsb & Hwb & Hob & Hrun).
    rewrite (effective_config_again st sa options cfg Hl Hsa Hc) in Hrun.
    exists sb.
    split; [by etrans|]. split; [by rewrite Hwb|]. split; [by rewrite Hob|].
    unfold trigger_with.
    rewrite (bind_unfold (waitForSelector _ _ _ _)), Hrun.
    rewrite (bind_unfold (wait_with _ _ _ _)).
    assert (Hc' : heap (final (wait_with host fuel s (effective st options) sb)) !! cfg
                  = Some (effective st options)).
    { rewrite (pagewise_heap _ _ (pagewise_wait_with host fuel s _)).
      by eapply lookup_weaken. }
    rewrite (bind_silent _ _ _ _ _ (read_run _ _ _ Hc')).
    reflexivity.
  - exists sa. split; [done|]. split; [done|]. split; [done|].
    unfold trigger_with, mret, M_ret.
    rewrite (bind_silent _ _ sa (Fulfilled e) sa) by reflexivity.
    rewrite (bind_silent _ _ sa (Fulfilled e) sa) by reflexivity.
    rewrite (bind_silent _ _ _ _ _ (read_run _ _ _ Hc)).
    reflexivity.
Qed.
End Behaviour.

(** ** Counting events *)

Section Counting.
Context {World : Type} (host : Host World).

Lemma count_app p (t1 t2 : list Event) :
  count p (t1 ++ t2) = (count p t1 + count p t2)%nat.
Proof. unfold count. by rewrite filter_app, length_app. Qed.

Lemma count_cons p ev (t : list Event) :
  count p (ev :: t) = ((if p ev then 1 else 0) + count p t)%nat.
Proof.
  unfold count. destruct (p ev) eqn:Hp.
  - by rewrite filter_cons_True.
  - rewrite filter_cons_False; [done|]. by rewrite Hp.
Qed.

Lemma count_nil p : count p [] = 0%nat.
Proof. reflexivity. Qed.

Lemma count_bind {A B : Type} p (m : M World A) (f : A → M World B) st :
  count p (trace (bind m f st))
  = (count p (trace (m st)) + count p (trace (f (result (m st)) (final (m st)))))%nat.
Proof. by rewrite trace_bind, count_app. Qed.

Lemma silent_ret {A : Type} p (a : A) : silent_for p (mret a : M World A).
Proof. intros st; reflexivity. Qed.

Lemma silent_page {A : Type} p (f : World → A) : silent_for p (page f).
Proof. intros st; reflexivity. Qed.

Lemma silent_advance p (f : World → World) : silent_for p (advance f).
Proof. intros st; reflexivity. Qed.

Lemma silent_emit p ev : p ev = false → silent_for p (emit ev : M World unit).
Proof. intros H st. unfold emit, trace; simpl. by rewrite count_cons, H. Qed.

Lemma silent_bind {A B : Type} p (m : M World A) (f : A → M World B) :
  silent_for p m → (∀ a, silent_for p (f a)) → silent_for p (bind m f).
Proof. intros Hm Hf st. by rewrite count_bind, Hm, Hf. Qed.

Lemma silent_seq {A B : Type} p (m : M World A) (k : M World B) :
  silent_for p m → silent_for p k → silent_for p (m ;; k).
Proof. intros; apply silent_bind; auto. Qed.

Lemma silent_isVisible element : silent_for not_resolver_event (isVisible host element).
Proof.
  destruct element as [el|]; cbn [isVisible]; [|apply silent_ret].
  apply silent_seq; [by apply silent_emit|].
  apply silent_bind; [apply silent_page|intros style].
  destruct (_ && _); [|apply silent_ret].
  apply silent_seq; [by apply silent_emit|].
  apply silent_bind; [apply silent_page|intros width].
  destruct (0 <? width); [|apply silent_ret].
  apply silent_seq; [by apply silent_emit|].
  apply silent_bind; [apply silent_page|intros height]. apply silent_ret.
Qed.

Lemma silent_accepted visibleCheck element :
  silent_for not_resolver_event (accepted host visibleCheck element).
Proof.
  destruct element as [el|]; cbn [accepted]; [|apply silent_ret].
  destruct (negb _); [apply silent_ret | apply (silent_isVisible (Some el))].
Qed.

Lemma silent_checkSelector fuel selector timeout pollInterval visibleCheck
    throwErrors startTime in_executor :
  silent_for not_resolver_event
    (checkSelector host fuel selector timeout pollInterval visibleCheck
       throwErrors startTime in_executor).
Proof.
  revert in_executor.
  induction fuel as [|fuel IH]; intros in_executor; cbn [checkSelector].
  all: apply silent_seq; [by apply silent_emit|].
  all: apply silent_bind; [apply silent_page|intros [name|element]].
  all: try (destruct in_executor; [apply silent_ret|];
            apply silent_seq; [by apply silent_emit|apply silent_ret]).
  all: apply silent_bind; [apply silent_accepted|intros [|]]; [apply silent_ret|].
  all: apply silent_bind; [apply silent_page|intros t].
  all: destruct (js_gt _ _);
    [destruct (truthy _); [apply silent_ret|];
     apply silent_seq; [by apply silent_emit|apply silent_ret]|].
  all: apply silent_seq; [by apply silent_emit|].
  - apply silent_ret.
  - apply silent_seq; [apply silent_advance|apply IH].
Qed.

Lemma silent_wait_with fuel selector c :
  silent_for not_resolver_event (wait_with host fuel selector c).
Proof.
  apply silent_bind; [apply silent_page|intros t]. apply silent_checkSelector.
Qed.

Lemma silent_weaken {A : Type} (p q : Event → bool) (m : M World A) :
  (∀ ev, q ev = true → p ev = true) → silent_for p m → silent_for q m.
Proof.
  intros Hpq Hm st. specialize (Hm st). revert Hm.
  induction (trace (m st)) as [|ev t IH]; [done|].
  rewrite !count_cons. destruct (q ev) eqn:Hq.
  - rewrite (Hpq _ Hq). discriminate.
  - destruct (p ev); simpl; [discriminate | exact IH].
Qed.
End Counting.

(** ** The resolver: [waitForSelector] *)

Section Resolver.
Context {World : Type} (host : Host World).




End Resolver.


(** ** The convergence engine: [scrollToSelector] *)

Ltac count_events :=
  unfold mbind, M_bind;
  repeat (rewrite count_bind;
          cbn [emit page advance ret mret M_ret trace result final fst snd]);
  rewrite ?count_cons, ?count_nil;
  cbn [is_scroll is_measure is_query is_callback is_dispatch is_scroll_loop].

Section Convergence.
Context {World : Type} (host : Host World).

Lemma scrollCheck_scroll_bound fuel element scrollStep N throwErrors attempts
    (st : Proc World) :
  (count is_scroll
     (trace (scrollCheck host fuel element scrollStep (VNum N) throwErrors attempts st))
   ≤ Z.to_nat (N - 1 - attempts))%nat.
Proof.
  revert attempts st.
  induction fuel as [|fuel IH]; intros attempts st; cbn [scrollCheck].
  all: unfold mbind, M_bind.
  all: do 3 (rewrite count_bind; cbn [emit page trace result final fst snd]).
  all: destruct (in_viewport _ _); [count_events; lia|].
  all: cbn [to_number js_ge].
  all: destruct (Z.leb_spec N (attempts + 1)) as [Hle|Hlt];
    [destruct (truthy throwErrors); count_events; lia|].
  all: do 3 (rewrite count_bind; cbn [emit advance trace result final fst snd]).
  - count_events. lia.
  - rewrite count_bind; cbn [advance trace result final fst snd].
    match goal with |- context [scrollCheck host fuel ?e ?s ?n ?t ?a ?st'] =>
      specialize (IH a st') end.
    count_events. lia.
Qed.

Lemma scroll_with_scroll_bound fuel selector c N (st : Proc World) :
  get c "maxScrollAttempts" = VNum N →
  (count is_scroll (trace (scroll_with host fuel selector c st)) ≤ Z.to_nat (N - 1))%nat.
Proof.
  intros HN. unfold scroll_with. rewrite count_bind.
  assert (Hres : count is_scroll
            (trace (match selector with
                    | Selector s => wait_with host fuel s (<["visibleCheck" := VBool false]> c)
                    | Handle e => mret (Fulfilled e)
                    end st)) = 0%nat).
  { destruct selector as [s|e]; [|reflexivity].
    apply (silent_weaken not_resolver_event is_scroll);
      [|apply silent_wait_with].
    intros [] ?; done. }
  rewrite Hres. clear Hres.
  destruct (result _) as [[el|]| | |]; cbn [scroll_found].
  - rewrite HN. pose proof (scrollCheck_scroll_bound fuel el (get c "scrollStep") N
      (get c "throwErrors") 0 (final
        (match selector with
         | Selector s => wait_with host fuel s (<["visibleCheck" := VBool false]> c)
         | Handle e => mret (Fulfilled e)
         end st))) as Hb.
    replace (N - 1 - 0) with (N - 1) in Hb by lia. lia.
  - destruct (truthy _); count_events; lia.
  - count_events; lia.
  - count_events; lia.
  - count_events; lia.
Qed.

Lemma scrollCheck_exhausts element scrollStep N throwErrors :
  (∀ w, in_viewport (getBoundingClientRect host w element) (innerHeight host w) = false) →
  truthy throwErrors = false →
  ∀ (n fuel : nat) attempts (st : Proc World),
    n = Z.to_nat (N - 1 - attempts) → (n ≤ fuel)%nat →
    result (scrollCheck host fuel element scrollStep (VNum N) throwErrors attempts st)
      = Fulfilled (Some element)
    ∧ count is_scroll
        (trace (scrollCheck host fuel element scrollStep (VNum N) throwErrors attempts st)) = n
    ∧ count is_measure
        (trace (scrollCheck host fuel element scrollStep (VNum N) throwErrors attempts st)) = S n
    ∧ last (trace (scrollCheck host fuel element scrollStep (VNum N) throwErrors attempts st))
      = Some (EvWarn (ScrollError (Z.max N (attempts + 1)))).
Proof.
  intros Hnever Hthrow.
  induction n as [|n IH]; intros fuel attempts st Hn Hfuel.
  - assert (Hge : (N <=? attempts + 1) = true) by (apply Z.leb_le; lia).
    assert (Hmax : Z.max N (attempts + 1) = attempts + 1) by lia.
    destruct fuel; cbn [scrollCheck]; unfold mbind, M_bind.
    all: rewrite !result_bind, !trace_bind, !count_app.
    all: cbn [emit page trace result final fst snd].
    all: rewrite Hnever; cbn [to_number js_ge]; rewrite Hge, Hthrow, Hmax.
    all: rewrite !result_bind, !trace_bind.
    all: cbn [emit page trace result final fst snd ret mret M_ret app].
    all: rewrite ?count_cons, ?count_nil; cbn [is_scroll is_measure]; done.
  - assert (Hlt : (N <=? attempts + 1) = false) by (apply Z.leb_gt; lia).
    destruct fuel as [|fuel]; [lia|].
    cbn [scrollCheck]; unfold mbind, M_bind.
    rewrite !result_bind, !trace_bind.
    cbn [emit page trace result final fst snd].
    rewrite Hnever; cbn [to_number js_ge]; rewrite Hlt.
    rewrite !result_bind, !trace_bind.
    cbn [emit page advance trace result final fst snd app].
    match goal with |- context [scrollCheck host fuel ?e ?s ?m ?t ?a ?st'] =>
      destruct (IH fuel a st') as (Hr & Hs & Hm & Hlast); [lia|lia|];
      rewrite Hr;
      set (tr := trace (scrollCheck host fuel e s m t a st')) in *
    end.
    split; [done|].
    rewrite !count_cons, Hs, Hm. cbn [is_scroll is_measure].
    split; [done|]. split; [done|].
    replace (Z.max N (attempts + 1)) with (Z.max N (attempts + 1 + 1)) by lia.
    clearbody tr. destruct tr as [|ev tr]; [discriminate|].
    exact Hlast.
Qed.
End Convergence.

Section ConvergenceBudget.
Context {World : Type} (host : Host World).

(** C2, as the code has it.  With [maxScrollAttempts = N] a call issues
    at most [N - 1] scroll adjustments, hence at most [N], whatever the
    target and the outcome: the counter counts measurements, and the
    [N]-th measurement ends the loop without scrolling.  For an element
    that is never inside the viewport, with [throwErrors] false, the call
    measures [N] times (once when [N < 1]), scrolls [N - 1] times, warns
    and is fulfilled with the element. *)
Theorem scrollToSelector_attempt_budget fuel options (st : Proc World) N :
  loaded st → options_valid st options →
  get (effective st options) "maxScrollAttempts" = VNum N →
  (∀ selector,
     (count is_scroll (trace (scrollToSelector host fuel selector options st))
      ≤ Z.to_nat (N - 1))%nat
     ∧ (count is_scroll (trace (scrollToSelector host fuel selector options st))
        ≤ Z.to_nat N)%nat)
  ∧ (∀ el,
       (∀ w, in_viewport (getBoundingClientRect host w el) (innerHeight host w) = false) →
       truthy (get (effective st options) "throwErrors") = false →
       (Z.to_nat (N - 1) ≤ fuel)%nat →
       result (scrollToSelector host fuel (Handle (Some el)) options st)
         = Fulfilled (Some el)
       ∧ count is_scroll (trace (scrollToSelector host fuel (Handle (Some el)) options st))
         = Z.to_nat (N - 1)
       ∧ count is_measure (trace (scrollToSelector host fuel (Handle (Some el)) options st))
         = S (Z.to_nat (N - 1))
       ∧ last (trace (scrollToSelector host fuel (Handle (Some el)) options st))
         = Some (EvWarn (ScrollError (Z.max N 1)))).
Proof.
  intros Hl Hv HN. split.
  - intros selector.
    destruct (scrollToSelector_run host fuel selector options st Hl Hv)
      as (st1 & _ & _ & _ & ->).
    pose proof (scroll_with_scroll_bound host fuel selector _ N st1 HN). lia.
  - intros el Hnever Hthrow Hfuel.
    destruct (scrollToSelector_run host fuel (Handle (Some el)) options st Hl Hv)
      as (st1 & _ & _ & _ & ->).
    unfold scroll_with, mret, M_ret.
    rewrite (bind_silent _ _ st1 (Fulfilled (Some el)) st1) by reflexivity.
    cbn [scroll_found]. rewrite HN.
    apply (scrollCheck_exhausts host el _ N _ Hnever Hthrow (Z.to_nat (N - 1)) fuel 0 st1);
      [f_equal; lia | exact Hfuel].
Qed.
End ConvergenceBudget.

(** The budget at [maxScrollAttempts = 5] on the concrete page: four
    adjustments for the element pinned above the viewport. *)
Lemma scrollToSelector_attempt_budget_witness :
  count is_scroll
    (trace (scrollToSelector StaticPage.host 4 (Handle (Some 7%nat))
              (Some StaticPage.caller_options)
              (StaticPage.start_with (<["maxScrollAttempts" := VNum 5]> ∅)))) = 4%nat
  ∧ result (scrollToSelector StaticPage.host 4 (Handle (Some 7%nat))
              (Some StaticPage.caller_options)
              (StaticPage.start_with (<["maxScrollAttempts" := VNum 5]> ∅)))
    = Fulfilled (Some 7%nat).
Proof.
  assert (Hl : loaded (StaticPage.start_with (<["maxScrollAttempts" := VNum 5]> ∅)))
    by (apply (bool_decide_unpack _); vm_compute; reflexivity).
  assert (Hv : options_valid (StaticPage.start_with (<["maxScrollAttempts" := VNum 5]> ∅))
                 (Some StaticPage.caller_options))
    by (apply (bool_decide_unpack _); vm_compute; reflexivity).
  assert (HN : get (effective (StaticPage.start_with (<["maxScrollAttempts" := VNum 5]> ∅))
                      (Some StaticPage.caller_options)) "maxScrollAttempts" = VNum 5)
    by (vm_compute; reflexivity).
  destruct (scrollToSelector_attempt_budget StaticPage.host 4 _ _ 5 Hl Hv HN) as [_ Hex].
  destruct (Hex 7%nat) as (Hr & Hs & _).
  - intros w; reflexivity.
  - vm_compute; reflexivity.
  - simpl; lia.
  - split; [exact Hs | exact Hr].
Defined.

(** C2 as stated fails: an element that is never inside the viewport,
    [maxScrollAttempts = 5], [throwErrors] false.  The call is fulfilled
    with the element after a warning, having measured five times and
    scrolled four times, not five. *)
Lemma scrollToSelector_five_attempts_four_scrolls :
  (∀ w, in_viewport (getBoundingClientRect StaticPage.host w 7%nat)
          (innerHeight StaticPage.host w) = false)
  ∧ behaviour
      (scrollToSelector StaticPage.host 10 (Handle (Some 7%nat))
         (Some StaticPage.caller_options))
      (StaticPage.start_with (<["maxScrollAttempts" := VNum 5]> ∅))
    = (Fulfilled (Some 7%nat),
       [EvMeasure 7; EvScrollBy (Some (-100)); EvRequestFrame;
        EvMeasure 7; EvScrollBy (Some (-100)); EvRequestFrame;
        EvMeasure 7; EvScrollBy (Some (-100)); EvRequestFrame;
        EvMeasure 7; EvScrollBy (Some (-100)); EvRequestFrame;
        EvMeasure 7; EvWarn (ScrollError 5)],
       64)
  ∧ count is_scroll
      (trace (scrollToSelector StaticPage.host 10 (Handle (Some 7%nat))
                (Some StaticPage.caller_options)
                (StaticPage.start_with (<["maxScrollAttempts" := VNum 5]> ∅)))) ≠ 5%nat.
Proof.
  split; [intros w; reflexivity|].
  split; [vm_compute; reflexivity|].
  vm_compute. discriminate.
Qed.

(** ** Resolution before scrolling *)

Section Resolution.
Context {World : Type} (host : Host World).

(** The resolver is fulfilled with [null] only on the warning branch of
    its timeout, which [throwErrors] excludes. *)
Lemma checkSelector_null fuel selector timeout pollInterval visibleCheck
    throwErrors startTime in_executor (st : Proc World) :
  result (checkSelector host fuel selector timeout pollInterval visibleCheck
            throwErrors startTime in_executor st) = Fulfilled None →
  truthy throwErrors = false.
Proof.
  revert in_executor st.
  induction fuel as [|fuel IH]; intros in_executor st; cbn [checkSelector].
  all: unfold mbind, M_bind.
  all: rewrite !result_bind; cbn [emit page result final fst snd].
  all: destruct (querySelector host (world st) selector) as [name|element];
    [destruct in_executor; [discriminate|];
     rewrite result_bind; discriminate|].
  all: rewrite result_bind.
  all: destruct (result (accepted host visibleCheck element st)) eqn:Hok;
    [intros H; injection H as ->; discriminate Hok|].
  all: generalize (final (accepted host visibleCheck element st)); intros st'.
  all: rewrite result_bind; cbn [page result final fst snd].
  all: destruct (js_gt _ _);
    [destruct (truthy throwErrors); [discriminate|reflexivity]|].
  all: rewrite result_bind; cbn [emit result final fst snd].
  all: try discriminate.
  all: rewrite result_bind; apply IH.
Qed.


Lemma wait_with_presence fuel selector c :
  wait_with host fuel selector (<["visibleCheck" := VBool false]> c)
  = presence_check host fuel selector c.
Proof.
  unfold wait_with, presence_check, get.
  rewrite (lookup_insert_ne c "visibleCheck" "timeout") by done.
  rewrite (lookup_insert_ne c "visibleCheck" "pollInterval") by done.
  rewrite (lookup_insert_ne c "visibleCheck" "throwErrors") by done.
  rewrite lookup_insert_eq. reflexivity.
Qed.

Lemma pagewise_presence_check fuel selector c :
  pagewise (presence_check host fuel selector c).
Proof. rewrite <- wait_with_presence. apply pagewise_wait_with. Qed.

Lemma presence_check_null fuel selector c (st : Proc World) :
  result (presence_check host fuel selector c st) = Fulfilled None →
  truthy (get c "throwErrors") = false.
Proof.
  unfold presence_check. rewrite result_bind. apply checkSelector_null.
Qed.

(** An element that is there at the first check is accepted by the
    presence check without a look at its style or size. *)
Lemma presence_check_present fuel selector c el (st : Proc World) :
  querySelector host (world st) selector = inr (Some el) →
  presence_check host fuel selector c st = (Fulfilled (Some el), [EvQuery selector], st).
Proof.
  intros Hq. unfold presence_check.
  rewrite (bind_silent _ _ st (date_now host (world st)) st) by reflexivity.
  destruct fuel; cbn [checkSelector]; unfold mbind, M_bind.
  all: rewrite (bind_unfold (emit _)); cbn [emit result trace final fst snd].
  all: rewrite (bind_unfold (page _)); cbn [page result trace final fst snd].
  all: rewrite Hq; cbn [accepted truthy negb].
  all: unfold mret, M_ret; rewrite (bind_silent _ _ st true st) by reflexivity.
  all: reflexivity.
Qed.

(** The scroll phase reads the Configuration through five keys only. *)
Lemma scroll_with_tunables fuel selector (c c' : Obj) :
  (∀ k, k ≠ "visibleCheck" → get c' k = get c k) →
  scroll_with host fuel (Selector selector) c' = scroll_with host fuel (Selector selector) c.
Proof.
  intros Hk. unfold scroll_with. rewrite !wait_with_presence.
  unfold presence_check, scroll_found.
  rewrite !(Hk "timeout"), !(Hk "pollInterval"), !(Hk "throwErrors"),
    !(Hk "scrollStep"), !(Hk "maxScrollAttempts") by done.
  reflexivity.
Qed.

(** C6.  Given a selector string, [scrollToSelector] first runs the
    resolver with the caller's tunables but with visibility not required,
    whatever [visibleCheck] the caller or the defaults carry: that run is
    [waitForSelector] on the caller's options with [visibleCheck] set to
    [false], and two calls whose Configurations differ in [visibleCheck]
    only behave alike.  When that resolution is rejected the call is
    rejected with the same error; when it yields [null], which happens
    only with [throwErrors] false, the call warns and yields [null]; in
    both cases the scroll loop is never entered.  When it yields an
    element the scroll loop runs on that element, from the page the
    resolution left; an element present when the call is made is taken
    at the first query, without a look at its style or size. *)
Theorem scrollToSelector_resolves_presence_first fuel selector options (st : Proc World) :
  loaded st → options_valid st options →
  (∀ e,
     result (presence_check host fuel selector (effective st options) st) = Rejected e →
     behaviour (scrollToSelector host fuel (Selector selector) options) st
     = (Rejected e,
        trace (presence_check host fuel selector (effective st options) st),
        world (final (presence_check host fuel selector (effective st options) st))))
  ∧ (result (presence_check host fuel selector (effective st options) st) = Fulfilled None →
     truthy (get (effective st options) "throwErrors") = false
     ∧ behaviour (scrollToSelector host fuel (Selector selector) options) st
       = (Fulfilled None,
          trace (presence_check host fuel selector (effective st options) st)
            ++ [EvWarn (ElementNotFound selector)],
          world (final (presence_check host fuel selector (effective st options) st))))
  ∧ (truthy (get (effective st options) "throwErrors") = true →
     result (presence_check host fuel selector (effective st options) st) ≠ Fulfilled None)
  ∧ ((∀ el, result (presence_check host fuel selector (effective st options) st)
            ≠ Fulfilled (Some el)) →
     count is_scroll_loop
       (trace (scrollToSelector host fuel (Selector selector) options st)) = 0%nat)
  ∧ (∀ el,
       result (presence_check host fuel selector (effective st options) st)
       = Fulfilled (Some el) →
       behaviour (scrollToSelector host fuel (Selector selector) options) st
       = (result (scrollCheck host fuel el
                    (get (effective st options) "scrollStep")
                    (get (effective st options) "maxScrollAttempts")
                    (get (effective st options) "throwErrors") 0
                    (final (presence_check host fuel selector (effective st options) st))),
          trace (presence_check host fuel selector (effective st options) st)
          ++ trace (scrollCheck host fuel el
                      (get (effective st options) "scrollStep")
                      (get (effective st options) "maxScrollAttempts")
                      (get (effective st options) "throwErrors") 0
                      (final (presence_check host fuel selector (effective st options) st))),
          world (final (scrollCheck host fuel el
                          (get (effective st options) "scrollStep")
                          (get (effective st options) "maxScrollAttempts")
                          (get (effective st options) "throwErrors") 0
                          (final (presence_check host fuel selector
                                    (effective st options) st))))))
  ∧ (∀ el,
       querySelector host (world st) selector = inr (Some el) →
       behaviour (scrollToSelector host fuel (Selector selector) options) st
       = (result (scrollCheck host fuel el
                    (get (effective st options) "scrollStep")
                    (get (effective st options) "maxScrollAttempts")
                    (get (effective st options) "throwErrors") 0 st),
          EvQuery selector
          :: trace (scrollCheck host fuel el
                      (get (effective st options) "scrollStep")
                      (get (effective st options) "maxScrollAttempts")
                      (get (effective st options) "throwErrors") 0 st),
          world (final (scrollCheck host fuel el
                          (get (effective st options) "scrollStep")
                          (get (effective st options) "maxScrollAttempts")
                          (get (effective st options) "throwErrors") 0 st))))
  ∧ (∀ options',
       options_valid st options' →
       (∀ k, k ≠ "visibleCheck" →
          get (effective st options') k = get (effective st options) k) →
       behaviour (scrollToSelector host fuel (Selector selector) options') st
       = behaviour (scrollToSelector host fuel (Selector selector) options) st)
  ∧ (∀ forced,
       heap st !! forced
       = Some (<["visibleCheck" := VBool false]> (options_object st options)) →
       behaviour (waitForSelector host fuel selector (Some forced)) st
       = behaviour (presence_check host fuel selector (effective st options)) st).
Proof.
  intros Hl Hv.
  destruct (scrollToSelector_run host fuel (Selector selector) options st Hl Hv)
    as (st1 & _ & Hw & _ & Hrun).
  set (c := effective st options) in *.
  assert (Hb : behaviour (presence_check host fuel selector c) st1
               = behaviour (presence_check host fuel selector c) st)
    by (apply pagewise_behaviour; [apply pagewise_presence_check | exact Hw]).
  unfold behaviour in Hb. injection Hb as Hres Htr Hwo.
  unfold behaviour at 1 2 3 4. rewrite Hrun. unfold scroll_with.
  rewrite wait_with_presence.
  rewrite result_bind, trace_bind, final_bind.
  rewrite Hres, Htr.
  assert (Hfound : ∀ el,
            result (presence_check host fuel selector c st) = Fulfilled (Some el) →
            (result (scroll_found host fuel (Selector selector) c (Fulfilled (Some el))
                       (final (presence_check host fuel selector c st1))),
             trace (presence_check host fuel selector c st)
             ++ trace (scroll_found host fuel (Selector selector) c (Fulfilled (Some el))
                         (final (presence_check host fuel selector c st1))),
             world (final (scroll_found host fuel (Selector selector) c (Fulfilled (Some el))
                             (final (presence_check host fuel selector c st1)))))
            = (result (scrollCheck host fuel el (get c "scrollStep")
                         (get c "maxScrollAttempts") (get c "throwErrors") 0
                         (final (presence_check host fuel selector c st))),
               trace (presence_check host fuel selector c st)
               ++ trace (scrollCheck host fuel el (get c "scrollStep")
                           (get c "maxScrollAttempts") (get c "throwErrors") 0
                           (final (presence_check host fuel selector c st))),
               world (final (scrollCheck host fuel el (get c "scrollStep")
                               (get c "maxScrollAttempts") (get c "throwErrors") 0
                               (final (presence_check host fuel selector c st)))))).
  { intros el _. cbn [scroll_found].
    pose proof (pagewise_behaviour _ _ _
                  (pagewise_scrollCheck host fuel el (get c "scrollStep")
                     (get c "maxScrollAttempts") (get c "throwErrors") 0) Hwo) as Hs.
    unfold behaviour in Hs. injection Hs as Hr Ht Hf. by rewrite Hr, Ht, Hf. }
  split; [|split; [|split; [|split; [|split; [|split; [|split]]]]]].
  - intros e He. rewrite He. cbn [scroll_found].
    unfold mret, M_ret, ret, result, trace, final; simpl.
    rewrite app_nil_r. f_equal. exact Hwo.
  - intros Hnull. pose proof (presence_check_null _ _ _ _ Hnull) as Hthrow.
    split; [exact Hthrow|].
    rewrite Hnull. cbn [scroll_found]. rewrite Hthrow.
    unfold mbind, M_bind. rewrite result_bind, trace_bind, final_bind.
    unfold mret, M_ret, ret, emit, result, trace, final; simpl.
    f_equal. exact Hwo.
  - intros Hthrow Hnull. apply presence_check_null in Hnull. congruence.
  - intros Hnot. rewrite count_app.
    assert (Hsil : count is_scroll_loop (trace (presence_check host fuel selector c st))
                   = 0%nat).
    { rewrite <- wait_with_presence.
      apply (silent_weaken not_resolver_event is_scroll_loop);
        [|apply silent_wait_with].
      intros ev Hev. unfold not_resolver_event. by rewrite Hev. }
    rewrite Hsil.
    destruct (result (presence_check host fuel selector c st)) as [[el|]| | |];
      cbn [scroll_found].
    + by destruct (Hnot el).
    + destruct (truthy _); count_events; reflexivity.
    + reflexivity.
    + reflexivity.
    + reflexivity.
  - intros el Hel. rewrite Hel. apply Hfound, Hel.
  - intros el Hq.
    pose proof (presence_check_present fuel selector c el st Hq) as Hp.
    assert (Hel : result (presence_check host fuel selector c st) = Fulfilled (Some el))
      by (by rewrite Hp).
    rewrite Hel, (Hfound el Hel), Hp. reflexivity.
  - intros options' Hv' Hk.
    destruct (scrollToSelector_run host fuel (Selector selector) options' st Hl Hv')
      as (st2 & _ & Hw2 & _ & Hrun2).
    unfold behaviour. rewrite Hrun2, Hrun, (scroll_with_tunables fuel selector c _ Hk).
    exact (pagewise_behaviour _ st2 st1
             (pagewise_scroll_with host fuel (Selector selector) c) ltac:(congruence)).
  - intros forced Hforced.
    destruct (waitForSelector_run host fuel selector (Some forced) st)
      as (st3 & _ & Hw3 & _ & Hrun3).
    unfold behaviour at 1. rewrite Hrun3.
    assert (Heff : effective st (Some forced) = <["visibleCheck" := VBool false]> c).
    { unfold c, effective, spread2. cbn [options_object]. rewrite Hforced. cbn [default].
      by rewrite insert_union_l. }
    rewrite Heff, wait_with_presence.
    apply (pagewise_behaviour _ st3 st (pagewise_presence_check fuel selector c) Hw3).
Qed.
End Resolution.

(** ["#ghost"] is present with [display: none] and the caller asks for
    [visibleCheck]: the element is resolved at the first query all the
    same, and measured.  A selector that matches nothing, [timeout] 150:
    the resolver's [null] comes back with both warnings and no scroll. *)
Lemma scrollToSelector_resolves_presence_first_witness :
  behaviour (scrollToSelector StaticPage.host 5 (Selector "#ghost")
               (Some StaticPage.caller_options))
    (StaticPage.start_with (<["visibleCheck" := VBool true]> ∅))
  = (Fulfilled (Some 9%nat), [EvQuery "#ghost"; EvMeasure 9], 0)
  ∧ behaviour (scrollToSelector StaticPage.host 5 (Selector "#absent")
                 (Some StaticPage.caller_options))
      (StaticPage.start_with
         (<["timeout" := VNum 150]> (<["visibleCheck" := VBool true]> ∅)))
    = (Fulfilled None,
       [EvQuery "#absent"; EvSetTimeout (VNum 100); EvQuery "#absent";
        EvSetTimeout (VNum 100); EvQuery "#absent";
        EvWarn (TimeoutError "#absent" (VNum 150));
        EvWarn (ElementNotFound "#absent")],
       200).
Proof.
  split.
  - assert (Hl : loaded (StaticPage.start_with (<["visibleCheck" := VBool true]> ∅)))
      by (apply (bool_decide_unpack _); vm_compute; reflexivity).
    assert (Hv : options_valid
                   (StaticPage.start_with (<["visibleCheck" := VBool true]> ∅))
                   (Some StaticPage.caller_options))
      by (apply (bool_decide_unpack _); vm_compute; reflexivity).
    destruct (scrollToSelector_resolves_presence_first StaticPage.host 5 "#ghost" _ _ Hl Hv)
      as (_ & _ & _ & _ & _ & Hpresent & _).
    rewrite (Hpresent 9%nat); vm_compute; reflexivity.
  - assert (Hl : loaded (StaticPage.start_with
                           (<["timeout" := VNum 150]> (<["visibleCheck" := VBool true]> ∅))))
      by (apply (bool_decide_unpack _); vm_compute; reflexivity).
    assert (Hv : options_valid
                   (StaticPage.start_with
                      (<["timeout" := VNum 150]> (<["visibleCheck" := VBool true]> ∅)))
                   (Some StaticPage.caller_options))
      by (apply (bool_decide_unpack _); vm_compute; reflexivity).
    destruct (scrollToSelector_resolves_presence_first StaticPage.host 5 "#absent" _ _ Hl Hv)
      as (_ & Hnull & _).
    destruct Hnull as [_ Hb]; [vm_compute; reflexivity|].
    rewrite Hb. vm_compute. reflexivity.
Defined.

(** ** Absent handles and rejected queries *)

Section NotFoundPolicy.
Context {World : Type} (host : Host World).

(** C10.  Given [null] in place of an element, [scrollToSelector] and
    [triggerEvent] go straight to the not-found policy: with
    [throwErrors] they are rejected, without it they warn once and yield
    [null] and [false]; in neither case is anything measured, scrolled or
    dispatched, and the page is left as it was. *)
Theorem absent_handle_policy fuel event options (st : Proc World) :
  loaded st → options_valid st options →
  (truthy (get (effective st options) "throwErrors") = true →
     behaviour (scrollToSelector host fuel (Handle None) options) st
     = (Rejected (ElementNotFound "Elemento proporcionado"), [], world st)
     ∧ behaviour (triggerEvent host fuel (Handle None) event options) st
       = (Rejected (TriggerNotFound event), [], world st))
  ∧ (truthy (get (effective st options) "throwErrors") = false →
     behaviour (scrollToSelector host fuel (Handle None) options) st
     = (Fulfilled None, [EvWarn (ElementNotFound "Elemento proporcionado")], world st)
     ∧ behaviour (triggerEvent host fuel (Handle None) event options) st
       = (Fulfilled false, [EvWarn (TriggerNotFound event)], world st)).
Proof.
  intros Hl Hv.
  destruct (scrollToSelector_run host fuel (Handle None) options st Hl Hv)
    as (s1 & _ & Hw1 & _ & Hrun1).
  destruct (triggerEvent_run host fuel (Handle None) event options st Hl)
    as (s2 & _ & Hw2 & _ & Hrun2).
  unfold behaviour. rewrite Hrun1, Hrun2.
  unfold scroll_with, trigger_with, mret, M_ret.
  rewrite (bind_silent _ _ s1 (Fulfilled None) s1) by reflexivity.
  rewrite (bind_silent _ _ s2 (Fulfilled None) s2) by reflexivity.
  cbn [scroll_found trigger_found].
  split; intros ->;
    unfold mbind, M_bind, mret, M_ret, bind, ret, emit, result, trace, final; simpl;
    rewrite Hw1, Hw2; done.
Qed.
End NotFoundPolicy.

(** [null] for the element on the concrete page, with and without
    [throwErrors]. *)
Lemma absent_handle_policy_witness :
  behaviour (scrollToSelector StaticPage.host 3 (Handle None) (Some StaticPage.caller_options))
    (StaticPage.start_with (<["throwErrors" := VBool true]> ∅))
  = (Rejected (ElementNotFound "Elemento proporcionado"), [], 0)
  ∧ behaviour (triggerEvent StaticPage.host 3 (Handle None) "click" None) StaticPage.start
    = (Fulfilled false, [EvWarn (TriggerNotFound "click")], 0).
Proof.
  split.
  - assert (Hl : loaded (StaticPage.start_with (<["throwErrors" := VBool true]> ∅)))
      by (apply (bool_decide_unpack _); vm_compute; reflexivity).
    assert (Hv : options_valid (StaticPage.start_with (<["throwErrors" := VBool true]> ∅))
                   (Some StaticPage.caller_options))
      by (apply (bool_decide_unpack _); vm_compute; reflexivity).
    destruct (absent_handle_policy StaticPage.host 3 "click" _ _ Hl Hv) as [Hthrow _].
    destruct Hthrow as [Hs _]; [vm_compute; reflexivity | exact Hs].
  - assert (Hl : loaded StaticPage.start) by (apply (bool_decide_unpack _); vm_compute; reflexivity).
    destruct (absent_handle_policy StaticPage.host 3 "click" None _ Hl I) as [_ Hquiet].
    destruct Hquiet as [_ Ht]; [vm_compute; reflexivity | exact Ht].
Defined.

Section RejectedQuery.
Context {World : Type} (host : Host World).

Lemma wait_with_rejected fuel selector c name (st : Proc World) :
  querySelector host (world st) selector = inl name →
  wait_with host fuel selector c st = (Rejected (HostError name), [EvQuery selector], st).
Proof.
  intros Hq. unfold wait_with.
  destruct fuel; cbn [checkSelector];
    unfold mbind, M_bind, mret, M_ret, bind, ret, emit, page; simpl;
    rewrite Hq; reflexivity.
Qed.

(** C3, as the code has it.  A query the host rejects is not taken for
    "no match".  [waitForSelector], and [scrollToSelector] and
    [triggerEvent] given that query, are rejected with the host's error
    at the first check, whatever [throwErrors] says: no warning, no
    [null] or [false] result, no timer, nothing scrolled or dispatched.
    In a watcher the error escapes from the observer's function as an
    uncaught exception and the callback is not called. *)
Theorem rejected_query_surfaces fuel selector name event options
    (callback : Element → loc → M World unit) cfg obs (st : Proc World) :
  loaded st → options_valid st options →
  querySelector host (world st) selector = inl name →
  behaviour (waitForSelector host fuel selector options) st
  = (Rejected (HostError name), [EvQuery selector], world st)
  ∧ behaviour (scrollToSelector host fuel (Selector selector) options) st
    = (Rejected (HostError name), [EvQuery selector], world st)
  ∧ behaviour (triggerEvent host fuel (Selector selector) event options) st
    = (Rejected (HostError name), [EvQuery selector], world st)
  ∧ on_mutations host selector callback cfg obs st
    = (tt, [EvQuery selector; EvUncaught name], st).
Proof.
  intros Hl Hv Hq.
  destruct (waitForSelector_run host fuel selector options st)
    as (s1 & _ & Hw1 & _ & Hr1).
  destruct (scrollToSelector_run host fuel (Selector selector) options st Hl Hv)
    as (s2 & _ & Hw2 & _ & Hr2).
  destruct (triggerEvent_run host fuel (Selector selector) event options st Hl)
    as (s3 & _ & Hw3 & _ & Hr3).
  unfold behaviour. rewrite Hr1, Hr2, Hr3.
  unfold scroll_with, trigger_with.
  rewrite !bind_unfold.
  rewrite (wait_with_rejected fuel selector _ name s1) by congruence.
  rewrite (wait_with_rejected fuel selector _ name s2) by congruence.
  rewrite (wait_with_rejected fuel selector _ name s3) by congruence.
  cbn [result trace final fst snd scroll_found trigger_found mret M_ret ret app].
  rewrite Hw1, Hw2, Hw3.
  repeat split.
  unfold on_mutations, mbind, M_bind, bind, emit, page; simpl.
  rewrite Hq. reflexivity.
Qed.
End RejectedQuery.

(** The selector ["["] on the concrete page, default options. *)
Lemma rejected_query_surfaces_witness :
  behaviour (waitForSelector StaticPage.host 5 "[" None) StaticPage.start
  = (Rejected (HostError "SyntaxError"), [EvQuery "["], 0).
Proof.
  assert (Hl : loaded StaticPage.start) by (apply (bool_decide_unpack _); vm_compute; reflexivity).
  apply (rejected_query_surfaces StaticPage.host 5 "[" "SyntaxError" "click" None
           (λ _ _, mret tt) 1%positive 1%positive StaticPage.start Hl I).
  reflexivity.
Defined.

(** C3 as stated fails.  With the default [throwErrors = false] a query
    that matches nothing ends in a warning and [null]; the query ["["],
    which the host rejects, ends in a rejected promise without any
    warning, and in a watcher it ends in an uncaught exception. *)
Lemma rejected_query_is_not_no_match :
  get (effective StaticPage.start None) "throwErrors" = VBool false
  ∧ behaviour (waitForSelector StaticPage.host 5 "#absent"
                 (Some StaticPage.caller_options))
      (StaticPage.start_with (<["timeout" := VNum 0]> ∅))
    = (Fulfilled None,
       [EvQuery "#absent"; EvSetTimeout (VNum 100); EvQuery "#absent";
        EvWarn (TimeoutError "#absent" (VNum 0))],
       100)
  ∧ behaviour (waitForSelector StaticPage.host 5 "[" None) StaticPage.start
    = (Rejected (HostError "SyntaxError"), [EvQuery "["], 0)
  ∧ trace (observe_then StaticPage.host "[" (λ _ _, mret tt) None
             [MutationBatch (λ w, w + 1)] StaticPage.start)
    = [EvQuery "["; EvUncaught "SyntaxError"].
Proof. repeat split; vm_compute; reflexivity. Qed.

(** ** The defaults are read, never written, by the operations *)

Section Frame.
Context {World : Type} (host : Host World).

Lemma extends_ret {A : Type} (a : A) : extends_store (mret a : M World A).
Proof. intros st; reflexivity. Qed.

Lemma extends_read (l : loc) : extends_store (read l : M World Obj).
Proof. intros st; reflexivity. Qed.

Lemma extends_set_observing f : extends_store (set_observing f : M World unit).
Proof. intros st; reflexivity. Qed.

Lemma extends_seq {A B : Type} (m : M World A) (k : M World B) :
  extends_store m → extends_store k → extends_store (m ;; k).
Proof. intros; apply extends_bind; auto. Qed.

Lemma extends_options_or_empty options :
  extends_store (options_or_empty options : M World loc).
Proof. destruct options; [apply extends_ret | apply alloc_extends]. Qed.

Lemma extends_waitForSelector fuel selector options :
  extends_store (waitForSelector host fuel selector options).
Proof.
  intros st.
  destruct (waitForSelector_run host fuel selector options st) as (s1 & Hs & _ & _ & ->).
  by rewrite (pagewise_heap _ _ (pagewise_wait_with host fuel selector _)).
Qed.

Lemma extends_scrollToSelector fuel selector options :
  extends_store (scrollToSelector host fuel selector options).
Proof.
  unfold scrollToSelector.
  apply extends_bind; [apply extends_options_or_empty|intros opts].
  apply extends_bind; [apply merge_config_extends|intros cfg].
  apply extends_bind; [apply extends_read|intros c].
  apply extends_bind.
  - destruct selector as [s|e]; [|apply extends_ret].
    apply extends_bind; [apply extends_read|intros o].
    apply extends_bind; [apply alloc_extends|intros inner].
    apply extends_waitForSelector.
  - intros element.
    apply (pagewise_extends _ (pagewise_scroll_found host fuel selector c element)).
Qed.

Lemma extends_triggerEvent fuel selector event options :
  extends_store (triggerEvent host fuel selector event options).
Proof.
  unfold triggerEvent.
  apply extends_bind; [apply merge_config_extends|intros cfg].
  apply extends_bind.
  - destruct selector as [s|e]; [apply extends_waitForSelector|apply extends_ret].
  - intros element.
    apply extends_bind; [apply extends_read|intros c].
    apply (pagewise_extends _ (pagewise_trigger_found host event c element)).
Qed.

Lemma extends_observeSelector selector callback options :
  extends_store (observeSelector host selector callback options).
Proof.
  unfold observeSelector.
  apply extends_bind; [apply merge_config_extends|intros cfg].
  apply extends_bind; [apply alloc_extends|intros obs].
  apply extends_seq; [apply extends_set_observing|apply extends_ret].
Qed.

Lemma extends_run_call c : extends_store (run_call host c).
Proof.
  destruct c; cbn [run_call]; (apply extends_seq; [|apply extends_ret]).
  - apply extends_waitForSelector.
  - apply extends_scrollToSelector.
  - apply extends_triggerEvent.
  - apply extends_observeSelector.
  - apply pagewise_extends, pagewise_isVisible.
Qed.

Lemma extends_run_calls cs : extends_store (run_calls host cs).
Proof.
  induction cs as [|c cs IH]; cbn [run_calls]; [apply extends_ret|].
  apply extends_seq; [apply extends_run_call | exact IH].
Qed.

Lemma extends_baseline {A : Type} (m : M World A) (st : Proc World) :
  extends_store m → loaded st → baseline (final (m st)) = baseline st.
Proof. intros Hm Hl. apply baseline_extends; [exact Hl | apply Hm]. Qed.

(** C8.  A call of [waitForSelector], [scrollToSelector] or
    [triggerEvent] writes to no object that existed before it: the
    overrides are merged into a new object, and the [defaults] object
    reads after the call as it read before, also when the options passed
    are the [defaults] object itself. *)
Theorem calls_leave_defaults_unchanged fuel selector target event options
    (st : Proc World) :
  loaded st →
  (heap st ⊆ heap (final (waitForSelector host fuel selector options st))
   ∧ heap (final (waitForSelector host fuel selector options st)) !! defaults
     = heap st !! defaults)
  ∧ (heap st ⊆ heap (final (scrollToSelector host fuel target options st))
     ∧ heap (final (scrollToSelector host fuel target options st)) !! defaults
       = heap st !! defaults)
  ∧ (heap st ⊆ heap (final (triggerEvent host fuel target event options st))
     ∧ heap (final (triggerEvent host fuel target event options st)) !! defaults
       = heap st !! defaults).
Proof.
  intros [d Hd].
  pose proof (extends_waitForSelector fuel selector options st) as H1.
  pose proof (extends_scrollToSelector fuel target options st) as H2.
  pose proof (extends_triggerEvent fuel target event options st) as H3.
  rewrite Hd.
  repeat split; try assumption; by eapply lookup_weaken.
Qed.
End Frame.

(** The [defaults] object itself passed as options. *)
Lemma calls_leave_defaults_unchanged_witness :
  heap (final (scrollToSelector StaticPage.host 3 (Selector "#sticky") (Some defaults)
                 StaticPage.start)) !! defaults
  = Some initial_defaults.
Proof.
  assert (Hl : loaded StaticPage.start) by (apply (bool_decide_unpack _); vm_compute; reflexivity).
  destruct (calls_leave_defaults_unchanged StaticPage.host 3 "#sticky"
              (Selector "#sticky") "click" (Some defaults) StaticPage.start Hl)
    as (_ & [_ Hscroll] & _).
  rewrite Hscroll. reflexivity.
Defined.

(** ** Configuration: the merge and the process-wide baseline *)

Section Configuration.
Context {World : Type} (host : Host World).

Lemma config_run newConfig (st : Proc World) :
  config newConfig st
  = (defaults, [],
     {| heap := <[defaults := options_object st newConfig ∪ baseline st]> (heap st);
        observing := observing st; world := world st |}).
Proof. destruct newConfig as [l|]; reflexivity. Qed.

Lemma observeSelector_config selector callback options (st : Proc World) :
  ∃ cfg,
    obs_handler (result (observeSelector host selector callback options st))
    = on_mutations host selector callback cfg
    ∧ heap (final (observeSelector host selector callback options st)) !! cfg
      = Some (effective st options)
    ∧ obs_id (result (observeSelector host selector callback options st))
      ∈ observing (final (observeSelector host selector callback options st)).
Proof.
  destruct (merge_config_run options st) as (cfg & s1 & Hm & _ & _ & _ & _ & Hc).
  exists cfg. unfold observeSelector.
  rewrite (bind_silent _ _ _ _ _ Hm).
  unfold mbind, M_bind, mret, M_ret, bind, ret, alloc, set_observing, result, final; simpl.
  split; [reflexivity|]. split; [|set_solver].
  rewrite lookup_insert_ne; [exact Hc|].
  intros Heq.
  pose proof (is_fresh (dom (heap s1))) as Hfresh.
  rewrite Heq in Hfresh. apply Hfresh, elem_of_dom. eauto.
Qed.

(** C7.  The Configuration of a call is the key-by-key merge of the
    [defaults] object with the options of the call, the options winning,
    and each operation behaves as its body run on that merged object.
    [config(newConfig)] writes the properties of [newConfig] into the
    [defaults] object itself and returns it; no later call of an
    operation undoes this, so every later Configuration is merged over
    the new baseline. *)
Theorem configuration_is_merge_over_baseline (st : Proc World) :
  loaded st →
  (∀ options k,
     effective st options !! k
     = match options_object st options !! k with
       | Some v => Some v
       | None => baseline st !! k
       end)
  ∧ (∀ fuel selector options,
       behaviour (waitForSelector host fuel selector options) st
       = behaviour (wait_with host fuel selector (effective st options)) st)
  ∧ (∀ fuel selector options,
       options_valid st options →
       behaviour (scrollToSelector host fuel selector options) st
       = behaviour (scroll_with host fuel selector (effective st options)) st)
  ∧ (∀ fuel selector event options,
       behaviour (triggerEvent host fuel selector event options) st
       = behaviour (trigger_with host fuel selector event (effective st options)) st)
  ∧ (∀ selector callback options,
       ∃ cfg,
         obs_handler (result (observeSelector host selector callback options st))
         = on_mutations host selector callback cfg
         ∧ heap (final (observeSelector host selector callback options st)) !! cfg
           = Some (effective st options))
  ∧ (∀ newConfig,
       result (config newConfig st) = defaults
       ∧ trace (config newConfig st) = []
       ∧ baseline (final (config newConfig st))
         = spread2 (baseline st) (options_object st newConfig)
       ∧ (∀ l, l ≠ defaults →
            heap (final (config newConfig st)) !! l = heap st !! l)
       ∧ (∀ calls,
            baseline (final (run_calls host calls (final (config newConfig st))))
            = spread2 (baseline st) (options_object st newConfig))
       ∧ (∀ calls options,
            effective (final (run_calls host calls (final (config newConfig st))))
              options
            = spread2 (spread2 (baseline st) (options_object st newConfig))
                (options_object
                   (final (run_calls host calls (final (config newConfig st))))
                   options))).
Proof.
  intros Hl.
  split; [intros; apply effective_lookup|].
  split.
  { intros fuel selector options.
    destruct (waitForSelector_run host fuel selector options st)
      as (s1 & _ & Hw & _ & Hrun).
    unfold behaviour at 1. rewrite Hrun.
    apply (pagewise_behaviour _ s1 st (pagewise_wait_with host fuel selector _) Hw). }
  split.
  { intros fuel selector options Hv.
    destruct (scrollToSelector_run host fuel selector options st Hl Hv)
      as (s1 & _ & Hw & _ & Hrun).
    unfold behaviour at 1. rewrite Hrun.
    apply (pagewise_behaviour _ s1 st (pagewise_scroll_with host fuel selector _) Hw). }
  split.
  { intros fuel selector event options.
    destruct (triggerEvent_run host fuel selector event options st Hl)
      as (s1 & _ & Hw & _ & Hrun).
    unfold behaviour at 1. rewrite Hrun.
    apply (pagewise_behaviour _ s1 st (pagewise_trigger_with host fuel selector event _) Hw). }
  split.
  { intros selector callback options.
    destruct (observeSelector_config selector callback options st) as (cfg & H1 & H2 & _).
    eauto. }
  intros newConfig. rewrite config_run.
  cbn [result trace final fst snd].
  set (st' := {| heap := _; observing := _; world := _ |}).
  assert (Hb : baseline st' = spread2 (baseline st) (options_object st newConfig)).
  { unfold baseline at 1, st'; simpl. by rewrite lookup_insert_eq. }
  assert (Hl' : loaded st').
  { unfold loaded, st'; simpl. rewrite lookup_insert_eq. eauto. }
  assert (Hcalls : ∀ calls, baseline (final (run_calls host calls st'))
                            = spread2 (baseline st) (options_object st newConfig)).
  { intros calls. rewrite <- Hb.
    apply extends_baseline; [apply extends_run_calls | exact Hl']. }
  split; [reflexivity|]. split; [reflexivity|]. split; [exact Hb|].
  split.
  { intros l Hne. unfold st'; simpl. by rewrite lookup_insert_ne. }
  split; [exact Hcalls|].
  intros calls options. unfold effective at 1. by rewrite Hcalls.
Qed.
End Configuration.

(** [config({ timeout: 5000, throwErrors: true })], two calls, then the
    Configuration of a call without options. *)
Lemma configuration_is_merge_over_baseline_witness :
  get (effective
         (final (run_calls StaticPage.host
                   [CallWaitForSelector 2 "#absent" None;
                    CallTriggerEvent 2 (Handle None) "click" None]
                   (final (config (Some StaticPage.caller_options)
                             (StaticPage.start_with
                                (<["timeout" := VNum 5000]>
                                   (<["throwErrors" := VBool true]> ∅)))))))
         None) "timeout" = VNum 5000.
Proof.
  assert (Hl : loaded (StaticPage.start_with
                         (<["timeout" := VNum 5000]> (<["throwErrors" := VBool true]> ∅))))
    by (apply (bool_decide_unpack _); vm_compute; reflexivity).
  destruct (configuration_is_merge_over_baseline StaticPage.host _ Hl)
    as (_ & _ & _ & _ & _ & Hconfig).
  destruct (Hconfig (Some StaticPage.caller_options)) as (_ & _ & _ & _ & _ & Heff).
  rewrite Heff. vm_compute. reflexivity.
Defined.

(** ** The mutation watcher: [observeSelector] *)

Section Watcher.
Context {World : Type} (host : Host World).

(** Looking at an element changes nothing. *)
Lemma isVisible_final element (st : Proc World) :
  final (isVisible host element st) = st.
Proof.
  destruct element as [el|]; [|reflexivity].
  unfold isVisible, mbind, M_bind, mret, M_ret, bind, ret, emit, page, final; simpl.
  destruct (_ && _); [|reflexivity]. simpl.
  destruct (0 <? _); reflexivity.
Qed.

Lemma accepted_final visibleCheck element (st : Proc World) :
  final (accepted host visibleCheck element st) = st.
Proof.
  destruct element as [el|]; cbn [accepted]; [|reflexivity].
  destruct (negb _); [reflexivity|]. apply (isVisible_final (Some el)).
Qed.

Lemma watch_app (o : Observer) (before after : list PageStep) (st : Proc World) :
  watch o (before ++ after) st = bind (watch o before) (λ _, watch o after) st.
Proof.
  revert st. induction before as [|step before IH]; intros st.
  - cbn [app watch]. unfold mret, M_ret.
    by rewrite (bind_silent _ _ st tt st).
  - destruct step as [change|]; cbn [app watch]; unfold mbind, M_bind.
    + rewrite !bind_assoc. apply bind_ext_final; intros [].
      rewrite !bind_assoc. apply bind_ext_final; intros []. apply IH.
    + rewrite !bind_assoc. apply bind_ext_final; intros []. apply IH.
Qed.

(** A disconnected observer is handed nothing. *)
Lemma deliver_batch_disconnected (o : Observer) (st : Proc World) :
  obs_id o ∉ observing st → deliver_batch o st = (tt, [], st).
Proof.
  intros Hno. unfold deliver_batch, bind, is_observing.
  rewrite bool_decide_eq_false_2 by done. reflexivity.
Qed.

Lemma watch_disconnected (o : Observer) (steps : list PageStep) (st : Proc World) :
  obs_id o ∉ observing st → count is_callback (trace (watch o steps st)) = 0%nat.
Proof.
  revert st. induction steps as [|[change|] steps IH]; intros st Hno; cbn [watch].
  - reflexivity.
  - unfold mbind, M_bind. rewrite !count_bind.
    cbn [advance trace result final fst snd].
    rewrite deliver_batch_disconnected by done.
    cbn [trace result final fst snd]. rewrite count_nil. apply IH. exact Hno.
  - unfold mbind, M_bind. rewrite count_bind.
    unfold disconnect at 1, mbind, M_bind. rewrite count_bind.
    cbn [emit set_observing trace result final fst snd].
    rewrite count_cons, count_nil. cbn [is_callback].
    rewrite IH; [reflexivity|].
    unfold disconnect, mbind, M_bind, bind, emit, set_observing, final; simpl.
    intros [_ Hin]%elem_of_difference. apply Hin. by apply elem_of_singleton.
Qed.

Lemma disconnect_run (obs : loc) (st : Proc World) :
  disconnect obs st
  = (tt, [EvDisconnect obs],
     {| heap := heap st; observing := observing st ∖ {[obs]}; world := world st |}).
Proof. reflexivity. Qed.

Lemma disposed_is_silent (o : Observer) (steps : list PageStep) (st : Proc World) :
  count is_callback (trace ((disconnect (obs_id o);; watch o steps) st)) = 0%nat.
Proof.
  unfold mbind, M_bind. rewrite count_bind, disconnect_run.
  cbn [trace result final fst snd]. rewrite count_cons, count_nil. cbn [is_callback].
  rewrite watch_disconnected; [reflexivity|]. simpl.
  intros [_ Hin]%elem_of_difference. apply Hin. by apply elem_of_singleton.
Qed.

(** One batch handed to a connected watcher whose element is there and
    accepted: the callback is called once, with the element and the
    observer. *)
Lemma on_mutations_fires selector callback cfg obs c el (st : Proc World) :
  querySelector host (world st) selector = inr (Some el) →
  heap st !! cfg = Some c →
  result (accepted host (get c "visibleCheck") (Some el) st) = true →
  trace (on_mutations host selector callback cfg obs st)
  = EvQuery selector
    :: trace (accepted host (get c "visibleCheck") (Some el) st)
    ++ EvCallback el obs
    :: trace (callback el obs (final (accepted host (get c "visibleCheck") (Some el) st)))
  ∧ final (on_mutations host selector callback cfg obs st)
    = final (callback el obs (final (accepted host (get c "visibleCheck") (Some el) st))).
Proof.
  intros Hq Hc Hok. unfold on_mutations, mbind, M_bind.
  rewrite !trace_bind, !final_bind.
  cbn [emit page trace result final fst snd]. rewrite Hq.
  rewrite (bind_silent _ _ _ _ _ (read_run _ _ _ Hc)).
  rewrite !trace_bind, !final_bind, Hok, !trace_bind, !final_bind.
  cbn [emit trace result final fst snd]. done.
Qed.

Lemma watch_fires_every_batch selector callback cfg obs c el :
  (∀ w, querySelector host w selector = inr (Some el)) →
  (∀ st, result (accepted host (get c "visibleCheck") (Some el) st) = true) →
  (∀ e o, pagewise (callback e o)) →
  (∀ e o, silent_for is_callback (callback e o)) →
  ∀ (changes : list (World → World)) (st : Proc World),
    obs ∈ observing st → heap st !! cfg = Some c →
    count is_callback
      (trace (watch {| obs_id := obs;
                       obs_handler := on_mutations host selector callback cfg |}
                (map MutationBatch changes) st))
    = length changes.
Proof.
  intros Hq Hok Hpage Hquiet.
  induction changes as [|change changes IH]; intros st Hin Hc; [reflexivity|].
  cbn [map watch length]. unfold mbind, M_bind.
  rewrite !count_bind. cbn [advance trace result final fst snd]. rewrite count_nil.
  set (s1 := {| heap := heap st; observing := observing st; world := change (world st) |}).
  unfold deliver_batch at 1 2. cbn [obs_id obs_handler].
  assert (Hobs : is_observing obs s1 = (true, [], s1)).
  { unfold is_observing. by rewrite bool_decide_eq_true_2. }
  rewrite (bind_silent _ _ _ _ _ Hobs).
  destruct (on_mutations_fires selector callback cfg obs c el s1 (Hq _) Hc (Hok _))
    as [Htr Hfin].
  rewrite Htr, Hfin.
  set (s2 := final (accepted host (get c "visibleCheck") (Some el) s1)).
  assert (Hacc : count is_callback (trace (accepted host (get c "visibleCheck") (Some el) s1))
                 = 0%nat).
  { apply (silent_weaken not_resolver_event is_callback); [|apply silent_accepted].
    intros ev Hev. unfold not_resolver_event. rewrite Hev.
    by destruct (is_scroll_loop ev), (is_dispatch ev). }
  rewrite count_cons, count_app, Hacc, count_cons, Hquiet. cbn [is_query is_callback].
  assert (Hheap2 : heap s2 = heap st)
    by (unfold s2; by rewrite (pagewise_heap _ _ (pagewise_accepted host _ _))).
  assert (Hobs2 : observing s2 = observing st)
    by (unfold s2; by rewrite (pagewise_observing _ _ (pagewise_accepted host _ _))).
  rewrite IH; [lia| |].
  - by rewrite (pagewise_observing _ _ (Hpage el obs)), Hobs2.
  - by rewrite (pagewise_heap _ _ (Hpage el obs)), Hheap2.
Qed.

Lemma observeSelector_run selector callback options (st : Proc World) :
  ∃ cfg obs heap1,
    observeSelector host selector callback options st
    = ({| obs_id := obs; obs_handler := on_mutations host selector callback cfg |}, [],
       {| heap := heap1; observing := {[obs]} ∪ observing st; world := world st |})
    ∧ heap st ⊆ heap1
    ∧ heap st !! cfg = None ∧ heap st !! obs = None ∧ cfg ≠ obs
    ∧ heap1 !! cfg = Some (effective st options).
Proof.
  destruct (merge_config_run options st) as (cfg & s1 & Hm & Hsub & Hw & Ho & Hfresh & Hc).
  exists cfg, (fresh (dom (heap s1))), (<[fresh (dom (heap s1)) := ∅]> (heap s1)).
  assert (Hnew : heap s1 !! fresh (dom (heap s1)) = None)
    by apply not_elem_of_dom, is_fresh.
  assert (Hne : cfg ≠ fresh (dom (heap s1))).
  { intros Heq. rewrite <- Heq, Hc in Hnew. discriminate. }
  split.
  { unfold observeSelector. rewrite (bind_silent _ _ _ _ _ Hm).
    unfold mbind, M_bind, mret, M_ret, bind, ret, alloc, set_observing; simpl.
    by rewrite Hw, Ho. }
  split; [etrans; [exact Hsub|]; by apply insert_subseteq|].
  split; [exact Hfresh|].
  split; [|split; [exact Hne|]].
  - destruct (heap st !! fresh (dom (heap s1))) as [o|] eqn:Hold; [|reflexivity].
    by rewrite (lookup_weaken _ _ _ _ Hold Hsub) in Hnew.
  - by rewrite lookup_insert_ne.
Qed.

Lemma accepted_quiet visibleCheck element (st : Proc World) :
  count is_callback (trace (accepted host visibleCheck element st)) = 0%nat.
Proof.
  apply (silent_weaken not_resolver_event is_callback); [|apply silent_accepted].
  intros ev Hev. unfold not_resolver_event. rewrite Hev.
  by destruct (is_scroll_loop ev), (is_dispatch ev).
Qed.

(** [matching] is the acceptance test of the observer function. *)
Lemma matching_accepted selector visibleCheck el (st : Proc World) :
  querySelector host (world st) selector = inr (Some el) →
  matching host selector visibleCheck st
  = if result (accepted host visibleCheck (Some el) st) then Some el else None.
Proof.
  intros Hq. unfold matching. rewrite Hq. cbn [accepted].
  destruct (negb (truthy visibleCheck)); reflexivity.
Qed.

Lemma matching_found selector visibleCheck el (st : Proc World) :
  matching host selector visibleCheck st = Some el →
  querySelector host (world st) selector = inr (Some el)
  ∧ result (accepted host visibleCheck (Some el) st) = true.
Proof.
  unfold matching.
  destruct (querySelector host (world st) selector) as [name|[el'|]] eqn:Hq;
    [discriminate| |discriminate].
  cbn [accepted]. destruct (negb (truthy visibleCheck)); cbn [orb].
  - intros [= ->]. done.
  - destruct (result (isVisible host (Some el') st)) eqn:Hv; [|discriminate].
    intros [= ->]. done.
Qed.

(** The observer function, by cases on what it finds. *)
Lemma on_mutations_matching selector callback cfg obs c el (st : Proc World) :
  heap st !! cfg = Some c →
  matching host selector (get c "visibleCheck") st = Some el →
  on_mutations host selector callback cfg obs st
  = (tt,
     EvQuery selector
     :: trace (accepted host (get c "visibleCheck") (Some el) st)
     ++ EvCallback el obs :: trace (callback el obs st),
     final (callback el obs st)).
Proof.
  intros Hc [Hq Hok]%matching_found.
  destruct (on_mutations_fires selector callback cfg obs c el st Hq Hc Hok)
    as [Htr Hfin].
  rewrite accepted_final in Htr, Hfin.
  rewrite (run_eta (on_mutations host selector callback cfg obs st)), Htr, Hfin.
  by destruct (result (on_mutations host selector callback cfg obs st)).
Qed.

Lemma on_mutations_no_match selector callback cfg obs c (st : Proc World) :
  heap st !! cfg = Some c →
  matching host selector (get c "visibleCheck") st = None →
  count is_callback (trace (on_mutations host selector callback cfg obs st)) = 0%nat
  ∧ final (on_mutations host selector callback cfg obs st) = st.
Proof.
  intros Hc Hm. unfold on_mutations, mbind, M_bind.
  rewrite count_bind, final_bind. cbn [emit trace result final fst snd].
  rewrite count_cons, count_nil. cbn [is_callback].
  rewrite count_bind, final_bind. cbn [page trace result final fst snd].
  rewrite count_nil.
  destruct (querySelector host (world st) selector) as [name|[el|]] eqn:Hq.
  - cbn [emit trace final fst snd]. by rewrite count_cons, count_nil.
  - rewrite (matching_accepted selector _ el st Hq) in Hm.
    rewrite (bind_silent _ _ _ _ _ (read_run _ _ _ Hc)).
    rewrite count_bind, final_bind, accepted_quiet, accepted_final.
    destruct (result (accepted host (get c "visibleCheck") (Some el) st));
      [discriminate|].
    done.
  - rewrite (bind_silent _ _ _ _ _ (read_run _ _ _ Hc)).
    rewrite (bind_silent _ _ st false st) by reflexivity. done.
Qed.

Lemma deliver_batch_connected (o : Observer) (st : Proc World) :
  obs_id o ∈ observing st → deliver_batch o st = obs_handler o (obs_id o) st.
Proof.
  intros Hin. unfold deliver_batch.
  assert (Hobs : is_observing (obs_id o) st = (true, [], st)).
  { unfold is_observing. by rewrite bool_decide_eq_true_2. }
  by rewrite (bind_silent _ _ _ _ _ Hobs).
Qed.

Lemma watch_batch (o : Observer) change rest (st : Proc World) :
  trace (watch o (MutationBatch change :: rest) st)
  = trace (deliver_batch o (at_page st (change (world st))))
    ++ trace (watch o rest (final (deliver_batch o (at_page st (change (world st)))))).
Proof.
  cbn [watch]. unfold mbind, M_bind. rewrite !trace_bind. reflexivity.
Qed.

(** The count of calls is the count of batches with a match. *)
Lemma watch_counts_matching selector callback cfg obs c :
  (∀ e o, pagewise (callback e o)) →
  (∀ e o, silent_for is_callback (callback e o)) →
  ∀ (changes : list (World → World)) (st : Proc World),
    obs ∈ observing st → heap st !! cfg = Some c →
    count is_callback
      (trace (watch {| obs_id := obs;
                       obs_handler := on_mutations host selector callback cfg |}
                (map MutationBatch changes) st))
    = matching_batches host selector (get c "visibleCheck") callback obs changes st.
Proof.
  intros Hpage Hquiet.
  induction changes as [|change changes IH]; intros st Hin Hc; [reflexivity|].
  cbn [map matching_batches]. rewrite watch_batch, count_app.
  set (s1 := at_page st (change (world st))).
  rewrite (deliver_batch_connected _ s1) by exact Hin. cbn [obs_id obs_handler].
  destruct (matching host selector (get c "visibleCheck") s1) as [el|] eqn:Hm.
  - rewrite (on_mutations_matching selector callback cfg obs c el s1 Hc Hm).
    cbn [trace final fst snd].
    rewrite count_cons, count_app, accepted_quiet, count_cons, Hquiet.
    cbn [is_callback]. rewrite IH; [reflexivity| |].
    + by rewrite (pagewise_observing _ _ (Hpage el obs)).
    + by rewrite (pagewise_heap _ _ (Hpage el obs)).
  - destruct (on_mutations_no_match selector callback cfg obs c s1 Hc Hm) as [H0 Hfin].
    rewrite H0, Hfin. by rewrite IH.
Qed.

(** A callback that disposes its registration: one batch gives no call,
    or one call after which the watcher is disconnected. *)
Lemma on_mutations_disposing selector callback cfg obs (st : Proc World) :
  disposes_registration callback →
  (∀ e o, silent_for is_callback (callback e o)) →
  count is_callback (trace (on_mutations host selector callback cfg obs st)) = 0%nat
  ∨ (count is_callback (trace (on_mutations host selector callback cfg obs st)) = 1%nat
     ∧ obs ∉ observing (final (on_mutations host selector callback cfg obs st))).
Proof.
  intros Hdisp Hquiet. unfold on_mutations, mbind, M_bind.
  rewrite !count_bind, !final_bind.
  cbn [emit page trace result final fst snd].
  rewrite count_cons, count_nil. cbn [is_callback].
  destruct (querySelector host (world st) selector) as [name|element].
  { left. cbn [emit trace fst snd]. by rewrite count_cons, count_nil. }
  cbv beta iota.
  rewrite !count_bind, !final_bind. cbn [read trace result final fst snd].
  rewrite ?count_nil, ?count_bind, ?final_bind.
  rewrite accepted_quiet.
  destruct element as [el|]; [|left; reflexivity].
  destruct (result _); [|left; reflexivity].
  right. rewrite count_bind, final_bind. cbn [emit trace result final fst snd].
  rewrite count_cons, count_nil, Hquiet. cbn [is_callback].
  split; [reflexivity|]. apply Hdisp.
Qed.

Lemma watch_disposing_at_most_once selector callback cfg obs steps (st : Proc World) :
  disposes_registration callback →
  (∀ e o, silent_for is_callback (callback e o)) →
  (count is_callback
     (trace (watch {| obs_id := obs;
                      obs_handler := on_mutations host selector callback cfg |}
               steps st)) ≤ 1)%nat.
Proof.
  intros Hdisp Hquiet.
  revert st. induction steps as [|[change|] steps IH]; intros st.
  - cbn. lia.
  - rewrite watch_batch, count_app.
    set (s1 := at_page st (change (world st))).
    destruct (decide (obs ∈ observing s1)) as [Hin|Hout].
    + rewrite (deliver_batch_connected _ s1) by exact Hin. cbn [obs_id obs_handler].
      destruct (on_mutations_disposing selector callback cfg obs s1 Hdisp Hquiet)
        as [H0|[H1 Hgone]].
      * rewrite H0. specialize (IH (final (on_mutations host selector callback cfg obs s1))).
        lia.
      * rewrite H1, watch_disconnected by exact Hgone. lia.
    + rewrite deliver_batch_disconnected by exact Hout.
      cbn [trace result final fst snd]. rewrite count_nil.
      specialize (IH s1). lia.
  - cbn [watch]. rewrite disposed_is_silent. lia.
Qed.

(** After disposal a batch is not even looked at. *)
Lemma watch_disconnected_trace (o : Observer) (changes : list (World → World))
    (st : Proc World) :
  obs_id o ∉ observing st → trace (watch o (map MutationBatch changes) st) = [].
Proof.
  revert st. induction changes as [|change changes IH]; intros st Hno; [reflexivity|].
  cbn [map]. rewrite watch_batch.
  rewrite deliver_batch_disconnected by exact Hno.
  cbn [trace final fst snd]. apply IH. exact Hno.
Qed.

(** C1, as the code has it.  [observeSelector] calls nothing when it
    installs the watcher and registers one observer, the one it returns.
    While that observer is connected, a mutation batch at which an element
    matches [selector] (and is visible, when [visibleCheck] is set) makes
    the observer function query the page, test the element and call the
    callback once, with that element and the observer itself; a batch at
    which there is no such element calls nothing and changes nothing.  So
    the calls made over a sequence of batches are as many as the batches
    with a match: [n] of them give [n] calls, not one.  The callback is
    called at most once in total when it disposes the registration it is
    handed, and then exactly once if the first batch has a match.  After
    the handle is disposed no batch calls the callback, nor is the page
    queried again. *)
Theorem watcher_fires_at_every_matching_batch selector callback options (st : Proc World) :
  let o := result (observeSelector host selector callback options st) in
  let installed := final (observeSelector host selector callback options st) in
  let visibleCheck := get (effective st options) "visibleCheck" in
  (trace (observeSelector host selector callback options st) = []
   ∧ observing installed = {[obs_id o]} ∪ observing st
   ∧ world installed = world st)
  ∧ (∃ cfg,
       heap installed !! cfg = Some (effective st options)
       ∧ ∀ s, heap s !! cfg = Some (effective st options) →
           (obs_id o ∈ observing s →
            (∀ el, matching host selector visibleCheck s = Some el →
               deliver_batch o s
               = (tt,
                  EvQuery selector
                  :: trace (accepted host visibleCheck (Some el) s)
                  ++ EvCallback el (obs_id o) :: trace (callback el (obs_id o) s),
                  final (callback el (obs_id o) s)))
            ∧ (matching host selector visibleCheck s = None →
               count is_callback (trace (deliver_batch o s)) = 0%nat
               ∧ final (deliver_batch o s) = s))
           ∧ (obs_id o ∉ observing s → deliver_batch o s = (tt, [], s)))
  ∧ ((∀ e ob, pagewise (callback e ob)) →
     (∀ e ob, silent_for is_callback (callback e ob)) →
     ∀ changes,
       count is_callback
         (trace (observe_then host selector callback options
                   (map MutationBatch changes) st))
       = matching_batches host selector visibleCheck callback (obs_id o) changes installed)
  ∧ (∀ el changes,
       (∀ w, querySelector host w selector = inr (Some el)) →
       (∀ st', result (accepted host visibleCheck (Some el) st') = true) →
       (∀ e ob, pagewise (callback e ob)) →
       (∀ e ob, silent_for is_callback (callback e ob)) →
       count is_callback
         (trace (observe_then host selector callback options
                   (map MutationBatch changes) st))
       = length changes)
  ∧ (disposes_registration callback →
     (∀ e ob, silent_for is_callback (callback e ob)) →
     (∀ steps,
        (count is_callback
           (trace (observe_then host selector callback options steps st)) ≤ 1)%nat)
     ∧ (∀ el change rest,
          matching host selector visibleCheck (at_page installed (change (world st)))
          = Some el →
          count is_callback
            (trace (observe_then host selector callback options
                      (MutationBatch change :: rest) st))
          = 1%nat))
  ∧ (∀ before after,
       count is_callback
         (trace (observe_then host selector callback options
                   (before ++ Dispose :: after) st))
       = count is_callback
           (trace (observe_then host selector callback options before st)))
  ∧ (∀ before changes,
       trace (observe_then host selector callback options
                (before ++ Dispose :: map MutationBatch changes) st)
       = trace (observe_then host selector callback options before st)
         ++ [EvDisconnect (obs_id o)]).
Proof.
  intros o installed visibleCheck.
  destruct (observeSelector_run selector callback options st)
    as (cfg & obs & heap1 & Hrun & Hsub & Hfresh & Hobs & Hne & Hc).
  assert (Ho : o = {| obs_id := obs;
                      obs_handler := on_mutations host selector callback cfg |})
    by (unfold o; by rewrite Hrun).
  assert (Hi : installed
               = {| heap := heap1; observing := {[obs]} ∪ observing st;
                    world := world st |})
    by (unfold installed; by rewrite Hrun).
  assert (Hin : obs ∈ observing installed) by (rewrite Hi; cbn; set_solver).
  assert (Hcfg : heap installed !! cfg = Some (effective st options))
    by (by rewrite Hi).
  assert (Hthen : ∀ steps,
            trace (observe_then host selector callback options steps st)
            = trace (watch o steps installed)).
  { intros steps. unfold observe_then.
    by rewrite (bind_silent _ _ _ _ _ Hrun), Ho, Hi. }
  clearbody o installed. subst o.
  cbn [obs_id] in *.
  split; [|split; [|split; [|split; [|split; [|split]]]]].
  - rewrite Hrun, Hi. done.
  - exists cfg. split; [exact Hcfg|]. intros s Hs. split.
    + intros Hconn. rewrite deliver_batch_connected by exact Hconn.
      cbn [obs_id obs_handler]. split.
      * intros el Hm. by apply (on_mutations_matching selector callback cfg obs _ el s Hs).
      * intros Hm. by apply (on_mutations_no_match selector callback cfg obs _ s Hs).
    + intros Hout. by apply deliver_batch_disconnected.
  - intros Hpage Hquiet changes. rewrite Hthen.
    by apply (watch_counts_matching selector callback cfg obs _ Hpage Hquiet).
  - intros el changes Hq Hok Hpage Hquiet. rewrite Hthen.
    by apply (watch_fires_every_batch selector callback cfg obs _ el Hq Hok Hpage Hquiet).
  - intros Hdisp Hquiet. split.
    + intros steps. rewrite Hthen.
      by apply watch_disposing_at_most_once.
    + intros el change rest Hm. rewrite Hthen, watch_batch, count_app.
      assert (Hw : world installed = world st) by (by rewrite Hi).
      rewrite Hw.
      set (s1 := at_page installed (change (world st))) in *.
      rewrite (deliver_batch_connected _ s1) by exact Hin.
      cbn [obs_id obs_handler].
      rewrite (on_mutations_matching selector callback cfg obs _ el s1 Hcfg Hm).
      cbn [trace final fst snd].
      rewrite count_cons, count_app, accepted_quiet, count_cons, Hquiet.
      cbn [is_callback]. rewrite watch_disconnected; [reflexivity|]. apply Hdisp.
  - intros before after. rewrite !Hthen.
    rewrite watch_app, count_bind. cbn [watch]. rewrite disposed_is_silent. lia.
  - intros before changes. rewrite !Hthen.
    rewrite watch_app, trace_bind. f_equal.
    cbn [watch]. unfold mbind, M_bind. rewrite trace_bind, disconnect_run.
    cbn [trace result final fst snd obs_id].
    rewrite watch_disconnected_trace; [reflexivity|].
    cbn [obs_id observing].
    intros [_ Hno]%elem_of_difference. apply Hno. by apply elem_of_singleton.
Qed.
End Watcher.

(** The page gets the element ["#late"] at time 300 and is mutated at
    times 150, 300 and 450: the callback is called at the last two
    batches, with the element and the observer. *)
Lemma watcher_fires_at_every_matching_batch_witness :
  count is_callback
    (trace (observe_then StaticPage.host "#late" (λ _ _, mret tt) None
              (map MutationBatch [λ w, w + 150; λ w, w + 150; λ w, w + 150])
              StaticPage.start))
  = 2%nat
  ∧ deliver_batch
      (result (observeSelector StaticPage.host "#late" (λ _ _, mret tt) None
                 StaticPage.start))
      (at_page (final (observeSelector StaticPage.host "#late" (λ _ _, mret tt) None
                         StaticPage.start)) 300)
    = (tt,
       [EvQuery "#late"; EvGetComputedStyle 3; EvOffsetWidth 3; EvOffsetHeight 3;
        EvCallback 3 4%positive],
       at_page (final (observeSelector StaticPage.host "#late" (λ _ _, mret tt) None
                         StaticPage.start)) 300).
Proof.
  pose proof (watcher_fires_at_every_matching_batch StaticPage.host "#late"
                (λ _ _, mret tt) None StaticPage.start) as H.
  cbv zeta in H. destruct H as (_ & (cfg & Hcfg & Hbatch) & Hcount & _).
  split.
  - rewrite Hcount.
    + vm_compute. reflexivity.
    + intros e ob; apply pagewise_mret.
    + intros e ob s; reflexivity.
  - destruct (Hbatch (at_page (final (observeSelector StaticPage.host "#late"
                                        (λ _ _, mret tt) None StaticPage.start)) 300)
                Hcfg) as [Hconn _].
    destruct Hconn as [Hfire _]; [vm_compute; set_solver|].
    rewrite (Hfire 3%nat); vm_compute; reflexivity.
Defined.

(** C1 as stated fails.  The element ["#sticky"] is present and visible
    at both batches, the watcher stays installed, and the callback is
    called at each of them: twice, not once. *)
Lemma watcher_fires_twice :
  trace (observe_then StaticPage.host "#sticky" (λ _ _, mret tt) None
           [MutationBatch (λ w, w + 1); MutationBatch (λ w, w + 1)]
           StaticPage.start)
  = [EvQuery "#sticky"; EvGetComputedStyle 7; EvOffsetWidth 7; EvOffsetHeight 7;
     EvCallback 7 4%positive;
     EvQuery "#sticky"; EvGetComputedStyle 7; EvOffsetWidth 7; EvOffsetHeight 7;
     EvCallback 7 4%positive]
  ∧ count is_callback
      (trace (observe_then StaticPage.host "#sticky" (λ _ _, mret tt) None
                [MutationBatch (λ w, w + 1); MutationBatch (λ w, w + 1)]
                StaticPage.start))
    ≠ 1%nat.
Proof. split; [vm_compute; reflexivity | vm_compute; discriminate]. Qed.

(** ** Scenarios *)

(** The element is there at call time: found by the first check, no timer. *)
Example waitForSelector_present_immediately :
  behaviour (waitForSelector StaticPage.host 5 "#sticky" None) StaticPage.start
  = (Fulfilled (Some 7%nat),
     [EvQuery "#sticky"; EvGetComputedStyle 7; EvOffsetWidth 7; EvOffsetHeight 7],
     0).
Proof. vm_compute; reflexivity. Qed.

(** The element appears after three poll intervals of 100 ms. *)
Example waitForSelector_appears_late :
  behaviour (waitForSelector StaticPage.host 5 "#late" None) StaticPage.start
  = (Fulfilled (Some 3%nat),
     [EvQuery "#late"; EvSetTimeout (VNum 100);
      EvQuery "#late"; EvSetTimeout (VNum 100);
      EvQuery "#late"; EvSetTimeout (VNum 100);
      EvQuery "#late"; EvGetComputedStyle 3; EvOffsetWidth 3; EvOffsetHeight 3],
     300).
Proof. vm_compute; reflexivity. Qed.

(** An element with [display: none] is never accepted by the resolver
    under [visibleCheck], and is scrolled to all the same. *)
Example scrollToSelector_needs_presence_only :
  behaviour (waitForSelector StaticPage.host 5 "#ghost" (Some StaticPage.caller_options))
    (StaticPage.start_with (<["timeout" := VNum 150]> ∅))
  = (Fulfilled None,
     [EvQuery "#ghost"; EvGetComputedStyle 9; EvSetTimeout (VNum 100);
      EvQuery "#ghost"; EvGetComputedStyle 9; EvSetTimeout (VNum 100);
      EvQuery "#ghost"; EvGetComputedStyle 9;
      EvWarn (TimeoutError "#ghost" (VNum 150))],
     200)
  ∧ behaviour (scrollToSelector StaticPage.host 5 (Selector "#ghost")
                 (Some StaticPage.caller_options))
      (StaticPage.start_with (<["timeout" := VNum 150]> ∅))
    = (Fulfilled (Some 9%nat), [EvQuery "#ghost"; EvMeasure 9], 0).
Proof. split; vm_compute; reflexivity. Qed.

(** [config] changes what later calls read; options still win. *)
Example config_then_wait :
  behaviour (config (Some StaticPage.caller_options);;
             waitForSelector StaticPage.host 5 "#absent" None)
    (StaticPage.start_with (<["timeout" := VNum 150]> (<["throwErrors" := VBool true]> ∅)))
  = (Rejected (TimeoutError "#absent" (VNum 150)),
     [EvQuery "#absent"; EvSetTimeout (VNum 100); EvQuery "#absent";
      EvSetTimeout (VNum 100); EvQuery "#absent"],
     200).
Proof. vm_compute; reflexivity. Qed.

(** A callback that disposes its observer is called once. *)
Example watcher_disarmed_by_callback :
  trace (observe_then StaticPage.host "#sticky" (λ _ ob, disconnect ob) None
           [MutationBatch (λ w, w + 1); MutationBatch (λ w, w + 1)]
           StaticPage.start)
  = [EvQuery "#sticky"; EvGetComputedStyle 7; EvOffsetWidth 7; EvOffsetHeight 7;
     EvCallback 7 4%positive; EvDisconnect 4%positive].
Proof. vm_compute; reflexivity. Qed.

(** * Further properties of the library *)

(** ** The resolver *)

Section ResolverFacts.
Context {World : Type} (host : Host World).

Lemma accepted_visible visibleCheck el (st : Proc World) :
  result (accepted host visibleCheck (Some el) st) = true →
  truthy visibleCheck = true →
  result (isVisible host (Some el) st) = true.
Proof. cbn [accepted]. intros H Ht. rewrite Ht in H. exact H. Qed.

Lemma accepted_absent visibleCheck (st : Proc World) :
  accepted host visibleCheck None st = (false, [], st).
Proof. reflexivity. Qed.

(** One pass of [checkSelector], by cases on what the page answers. *)
Lemma checkSelector_found fuel selector timeout pollInterval visibleCheck
    throwErrors startTime in_executor (st : Proc World) el :
  result (checkSelector host fuel selector timeout pollInterval visibleCheck
            throwErrors startTime in_executor st) = Fulfilled (Some el) →
  querySelector host
    (world (final (checkSelector host fuel selector timeout pollInterval visibleCheck
                     throwErrors startTime in_executor st))) selector = inr (Some el)
  ∧ result (accepted host visibleCheck (Some el)
              (final (checkSelector host fuel selector timeout pollInterval visibleCheck
                        throwErrors startTime in_executor st))) = true.
Proof.
  revert in_executor st.
  induction fuel as [|fuel IH]; intros in_executor st; cbn [checkSelector].
  all: unfold mbind, M_bind.
  all: rewrite !result_bind, !final_bind; cbn [emit page result final fst snd].
  all: destruct (querySelector host (world st) selector) as [name|element] eqn:Hq;
    [destruct in_executor; [discriminate|];
     rewrite result_bind; discriminate|].
  all: rewrite result_bind, final_bind, accepted_final.
  all: destruct (result (accepted host visibleCheck element st)) eqn:Hok;
    [intros H; injection H as ->; cbn [mret M_ret ret final snd];
     rewrite Hq; split; [reflexivity|exact Hok]|].
  all: rewrite result_bind, final_bind; cbn [page result final fst snd].
  all: destruct (js_gt _ _);
    [destruct (truthy throwErrors); [discriminate|];
     rewrite result_bind; discriminate|].
  all: rewrite result_bind, final_bind; cbn [emit result final fst snd].
  all: try discriminate.
  all: rewrite result_bind, final_bind; cbn [advance result final fst snd].
  all: apply IH.
Qed.

Lemma checkSelector_step fuel selector timeout pollInterval visibleCheck
    throwErrors startTime in_executor (st : Proc World) :
  checkSelector host fuel selector timeout pollInterval visibleCheck
    throwErrors startTime in_executor st
  = match querySelector host (world st) selector with
    | inl name =>
        if in_executor then (Rejected (HostError name), [EvQuery selector], st)
        else (Abandoned, [EvQuery selector; EvUncaught name], st)
    | inr element =>
        let seen := trace (accepted host visibleCheck element st) in
        if result (accepted host visibleCheck element st)
        then (Fulfilled element, EvQuery selector :: seen, st)
        else if js_gt (Some (date_now host (world st) - startTime)) (to_number timeout)
        then if truthy throwErrors
             then (Rejected (TimeoutError selector timeout), EvQuery selector :: seen, st)
             else (Fulfilled None,
                   EvQuery selector :: seen ++ [EvWarn (TimeoutError selector timeout)], st)
        else match fuel with
             | O => (Suspended, EvQuery selector :: seen ++ [EvSetTimeout pollInterval], st)
             | S fuel' =>
                 let r := checkSelector host fuel' selector timeout pollInterval visibleCheck
                            throwErrors startTime false (after_timer host pollInterval st) in
                 (result r, EvQuery selector :: seen ++ EvSetTimeout pollInterval :: trace r,
                  final r)
             end
    end.
Proof.
  destruct fuel as [|fuel]; cbn [checkSelector]; unfold mbind, M_bind.
  all: rewrite bind_unfold; cbn [emit result trace final fst snd].
  all: rewrite bind_unfold; cbn [page result trace final fst snd].
  all: destruct (querySelector host (world st) selector) as [name|element];
    [destruct in_executor; [reflexivity|];
     rewrite bind_unfold; reflexivity|].
  all: rewrite bind_unfold, accepted_final. cbv zeta.
  all: destruct (result (accepted host visibleCheck element st));
    [cbn [mret M_ret ret result trace final fst snd app];
     by rewrite app_nil_r|].
  all: rewrite bind_unfold; cbn [page result trace final fst snd].
  all: destruct (js_gt _ _);
    [destruct (truthy throwErrors);
     [cbn [mret M_ret ret result trace final fst snd app]; by rewrite app_nil_r|];
     rewrite bind_unfold; cbn [emit mret M_ret ret result trace final fst snd app];
     reflexivity|].
  all: rewrite bind_unfold; cbn [emit result trace final fst snd].
  - cbn [mret M_ret ret result trace final fst snd app]. reflexivity.
  - rewrite bind_unfold; cbn [advance result trace final fst snd app]. reflexivity.
Qed.

Lemma count_inspection p (tr : list Event) :
  Forall (λ ev, is_inspection ev = true) tr →
  (∀ ev, is_inspection ev = true → p ev = false) →
  count p tr = 0%nat.
Proof.
  intros Hall Hp. induction Hall as [|ev tr Hev _ IH]; [reflexivity|].
  by rewrite count_cons, (Hp ev Hev), IH.
Qed.

Lemma accepted_inspects visibleCheck element (st : Proc World) :
  Forall (λ ev, is_inspection ev = true) (trace (accepted host visibleCheck element st)).
Proof.
  destruct element as [el|]; cbn [accepted]; [|constructor].
  destruct (negb _); [constructor|].
  unfold isVisible, mbind, M_bind, mret, M_ret, bind, ret, emit, page, trace; simpl.
  destruct (_ && _); simpl; [|repeat constructor].
  destruct (0 <? _); simpl; repeat constructor.
Qed.

Lemma accepted_count p visibleCheck element (st : Proc World) :
  (∀ ev, is_inspection ev = true → p ev = false) →
  count p (trace (accepted host visibleCheck element st)) = 0%nat.
Proof. intros Hp. eapply count_inspection; [apply accepted_inspects | exact Hp]. Qed.

Lemma wait_with_unfold fuel selector c (st : Proc World) :
  wait_with host fuel selector c st
  = checkSelector host fuel selector (get c "timeout") (get c "pollInterval")
      (get c "visibleCheck") (get c "throwErrors") (date_now host (world st)) true st.
Proof. unfold wait_with. by rewrite (bind_silent _ _ st (date_now host (world st)) st). Qed.

Lemma js_gt_true x v :
  js_gt (Some x) (to_number v) = true → ∃ T, to_number v = Some T ∧ T < x.
Proof.
  destruct (to_number v) as [T|]; [|discriminate].
  cbn [js_gt]. intros H%Z.ltb_lt. eauto.
Qed.

Lemma checkSelector_gave_up fuel selector timeout pollInterval visibleCheck
    throwErrors startTime in_executor (st : Proc World) :
  gave_up (result (checkSelector host fuel selector timeout pollInterval visibleCheck
                     throwErrors startTime in_executor st)) →
  ∃ T, to_number timeout = Some T
       ∧ T < date_now host
               (world (final (checkSelector host fuel selector timeout pollInterval
                                visibleCheck throwErrors startTime in_executor st)))
             - startTime.
Proof.
  revert in_executor st.
  induction fuel as [|fuel IH]; intros in_executor st; rewrite checkSelector_step.
  all: destruct (querySelector host (world st) selector) as [name|element];
    [destruct in_executor; intros [H|(s & t & H)]; discriminate|].
  all: cbv zeta.
  all: destruct (result (accepted host visibleCheck element st)) eqn:Hok;
    [intros [H|(s & t & H)]; [|discriminate];
     injection H as ->; rewrite accepted_absent in Hok; discriminate|].
  all: destruct (js_gt _ _) eqn:Hgt;
    [intros _; destruct (truthy throwErrors); apply (js_gt_true _ _ Hgt)|].
  - intros [H|(s & t & H)]; discriminate.
  - apply IH.
Qed.

Lemma checkSelector_warnings fuel selector timeout pollInterval visibleCheck
    throwErrors startTime in_executor (st : Proc World) :
  count is_warning
    (trace (checkSelector host fuel selector timeout pollInterval visibleCheck
              throwErrors startTime in_executor st))
  = warnings_owed
      (result (checkSelector host fuel selector timeout pollInterval visibleCheck
                 throwErrors startTime in_executor st)).
Proof.
  revert in_executor st.
  induction fuel as [|fuel IH]; intros in_executor st; rewrite checkSelector_step.
  all: destruct (querySelector host (world st) selector) as [name|element];
    [destruct in_executor; reflexivity|].
  all: cbv zeta.
  all: assert (Hseen : count is_warning (trace (accepted host visibleCheck element st)) = 0%nat)
    by (apply accepted_count; by intros []).
  all: destruct (result (accepted host visibleCheck element st)) eqn:Hok;
    [cbn [result trace fst snd]; rewrite count_cons, Hseen;
     destruct element; [reflexivity|];
     rewrite accepted_absent in Hok; discriminate|].
  all: destruct (js_gt _ _);
    [destruct (truthy throwErrors); cbn [result trace fst snd];
     rewrite count_cons, ?count_app, Hseen; reflexivity|].
  - cbn [result trace fst snd]. rewrite count_cons, count_app, Hseen. reflexivity.
  - cbn [result trace fst snd]. rewrite count_cons, count_app, count_cons, Hseen, IH.
    reflexivity.
Qed.

Lemma checkSelector_rhythm fuel selector timeout pollInterval visibleCheck
    throwErrors startTime in_executor (st : Proc World) :
  count is_query
    (trace (checkSelector host fuel selector timeout pollInterval visibleCheck
              throwErrors startTime in_executor st))
  = (count is_timer
       (trace (checkSelector host fuel selector timeout pollInterval visibleCheck
                 throwErrors startTime in_executor st))
     + (if is_suspended
             (result (checkSelector host fuel selector timeout pollInterval visibleCheck
                        throwErrors startTime in_executor st))
        then 0 else 1))%nat
  ∧ (count is_timer
       (trace (checkSelector host fuel selector timeout pollInterval visibleCheck
                 throwErrors startTime in_executor st))
     ≤ S fuel)%nat
  ∧ (is_suspended
       (result (checkSelector host fuel selector timeout pollInterval visibleCheck
                  throwErrors startTime in_executor st)) = true →
     count is_timer
       (trace (checkSelector host fuel selector timeout pollInterval visibleCheck
                 throwErrors startTime in_executor st)) = S fuel)
  ∧ (∀ delay,
       EvSetTimeout delay
         ∈ trace (checkSelector host fuel selector timeout pollInterval visibleCheck
                    throwErrors startTime in_executor st) →
       delay = pollInterval).
Proof.
  revert in_executor st.
  induction fuel as [|fuel IH]; intros in_executor st; rewrite checkSelector_step.
  all: destruct (querySelector host (world st) selector) as [name|element];
    [destruct in_executor; cbn [result trace fst snd is_suspended];
     rewrite ?count_cons, ?count_nil; cbn [is_query is_timer];
     (split; [lia|]; split; [lia|]; split; [discriminate|]);
     intros delay Hin; repeat (apply elem_of_cons in Hin as [Hin|Hin]; [discriminate|]);
     by apply elem_of_nil in Hin|].
  all: cbv zeta.
  all: assert (Hq : count is_query (trace (accepted host visibleCheck element st)) = 0%nat)
    by (apply accepted_count; by intros []).
  all: assert (Ht : count is_timer (trace (accepted host visibleCheck element st)) = 0%nat)
    by (apply accepted_count; by intros []).
  all: assert (Hno : ∀ delay, EvSetTimeout delay
                       ∉ trace (accepted host visibleCheck element st)).
  1,3: (intros delay Hin;
        pose proof (accepted_inspects visibleCheck element st) as Hall;
        rewrite Forall_forall in Hall; specialize (Hall _ Hin); discriminate).
  all: destruct (result (accepted host visibleCheck element st));
    [cbn [result trace fst snd is_suspended];
     rewrite count_cons, Hq, count_cons, Ht; cbn [is_query is_timer];
     (split; [lia|]; split; [lia|]; split; [discriminate|]);
     intros delay [Hin|Hin]%elem_of_cons; [discriminate|by destruct (Hno delay)]|].
  all: destruct (js_gt _ _);
    [destruct (truthy throwErrors); cbn [result trace fst snd is_suspended];
     rewrite !count_cons, ?count_app, ?count_cons, ?count_nil, Hq, Ht;
     cbn [is_query is_timer];
     (split; [lia|]; split; [lia|]; split; [discriminate|]);
     intros delay [Hin|Hin]%elem_of_cons; try discriminate;
     [by destruct (Hno delay)|];
     apply elem_of_app in Hin as [Hin|Hin]; [by destruct (Hno delay)|];
     apply elem_of_cons in Hin as [Hin|Hin]; [discriminate|by apply elem_of_nil in Hin]|].
  - cbn [result trace fst snd is_suspended].
    rewrite !count_cons, !count_app, !count_cons, !count_nil, Hq, Ht.
    cbn [is_query is_timer].
    split; [lia|]. split; [lia|]. split; [intros _; lia|].
    intros delay [Hin|Hin]%elem_of_cons; [discriminate|].
    apply elem_of_app in Hin as [Hin|Hin]; [by destruct (Hno delay)|].
    apply elem_of_cons in Hin as [Hin|Hin]; [by injection Hin|by apply elem_of_nil in Hin].
  - destruct (IH false (after_timer host pollInterval st)) as (H1 & H2 & H3 & H4).
    cbn [result trace fst snd].
    rewrite !count_cons, !count_app, !count_cons, Hq, Ht, H1.
    cbn [is_query is_timer].
    split; [lia|]. split; [lia|]. split; [intros Hs; specialize (H3 Hs); lia|].
    intros delay [Hin|Hin]%elem_of_cons; [discriminate|].
    apply elem_of_app in Hin as [Hin|Hin]; [by destruct (Hno delay)|].
    apply elem_of_cons in Hin as [Hin|Hin]; [by injection Hin|by apply H4].
Qed.

Lemma checkSelector_never_expires fuel selector timeout pollInterval visibleCheck
    throwErrors startTime in_executor (st : Proc World) :
  to_number timeout = None →
  (∀ w, querySelector host w selector = inr None) →
  result (checkSelector host fuel selector timeout pollInterval visibleCheck
            throwErrors startTime in_executor st) = Suspended.
Proof.
  intros Hnan Hq. revert in_executor st.
  induction fuel as [|fuel IH]; intros in_executor st; rewrite checkSelector_step.
  all: rewrite Hq, accepted_absent, Hnan; cbn [result trace fst snd js_gt].
  - reflexivity.
  - apply IH.
Qed.

(** X1.  An element [waitForSelector] is fulfilled with is the one the
    document answers for the selector on the page as it is at that moment,
    and, when [visibleCheck] is set, it is visible on that page. *)
Theorem waitForSelector_found_is_there fuel selector options (st : Proc World) el :
  result (waitForSelector host fuel selector options st) = Fulfilled (Some el) →
  querySelector host (world (final (waitForSelector host fuel selector options st)))
    selector = inr (Some el)
  ∧ (truthy (get (effective st options) "visibleCheck") = true →
     result (isVisible host (Some el) (final (waitForSelector host fuel selector options st)))
     = true).
Proof.
  destruct (waitForSelector_run host fuel selector options st) as (s1 & _ & _ & _ & ->).
  rewrite wait_with_unfold. intros Hfound.
  destruct (checkSelector_found _ _ _ _ _ _ _ _ _ _ Hfound) as [Hq Hok].
  split; [exact Hq|]. intros Hvc. by apply (accepted_visible _ _ _ Hok).
Qed.

(** X2.  [waitForSelector] never gives up early: when it ends in the
    timeout error or in [null], the timeout is a number and strictly more
    than that many milliseconds have passed on the page's clock since the
    call. *)
Theorem waitForSelector_gives_up_late fuel selector options (st : Proc World) :
  gave_up (result (waitForSelector host fuel selector options st)) →
  ∃ T, to_number (get (effective st options) "timeout") = Some T
       ∧ T < date_now host (world (final (waitForSelector host fuel selector options st)))
             - date_now host (world st).
Proof.
  destruct (waitForSelector_run host fuel selector options st) as (s1 & _ & Hw & _ & ->).
  rewrite wait_with_unfold, <- Hw. apply checkSelector_gave_up.
Qed.

(** X3.  With a timeout that is not a number, such as an explicit
    [timeout: undefined] in the options, a selector that never matches is
    polled for ever: after any number [n] of timer callbacks the promise is
    still pending, [n + 1] checks have been made and [n + 1] timers set. *)
Theorem waitForSelector_polls_for_ever fuel selector options (st : Proc World) :
  to_number (get (effective st options) "timeout") = None →
  (∀ w, querySelector host w selector = inr None) →
  result (waitForSelector host fuel selector options st) = Suspended
  ∧ count is_query (trace (waitForSelector host fuel selector options st)) = S fuel
  ∧ count is_timer (trace (waitForSelector host fuel selector options st)) = S fuel.
Proof.
  intros Hnan Hq.
  destruct (waitForSelector_run host fuel selector options st) as (s1 & _ & _ & _ & ->).
  rewrite wait_with_unfold.
  pose proof (checkSelector_never_expires fuel selector _ (get (effective st options) "pollInterval")
                (get (effective st options) "visibleCheck")
                (get (effective st options) "throwErrors")
                (date_now host (world s1)) true s1 Hnan Hq) as Hs.
  destruct (checkSelector_rhythm fuel selector (get (effective st options) "timeout")
              (get (effective st options) "pollInterval")
              (get (effective st options) "visibleCheck")
              (get (effective st options) "throwErrors")
              (date_now host (world s1)) true s1) as (H1 & _ & H3 & _).
  rewrite Hs in H1, H3. cbn [is_suspended] in H1, H3.
  specialize (H3 eq_refl). split; [exact Hs|]. split; [lia|exact H3].
Qed.


(** X5.  [waitForSelector] warns exactly when it is fulfilled with
    [null], and then once: no [null] comes without its diagnostic, and
    neither a found element nor a rejection is accompanied by one. *)
Theorem waitForSelector_warns_iff_null fuel selector options (st : Proc World) :
  count is_warning (trace (waitForSelector host fuel selector options st))
  = warnings_owed (result (waitForSelector host fuel selector options st)).
Proof.
  destruct (waitForSelector_run host fuel selector options st) as (s1 & _ & _ & _ & ->).
  rewrite wait_with_unfold. apply checkSelector_warnings.
Qed.
End ResolverFacts.

(** ["#late"] appears at time 300 and is found then, visible. *)
Lemma waitForSelector_found_is_there_witness :
  querySelector StaticPage.host
    (world (final (waitForSelector StaticPage.host 5 "#late" None StaticPage.start)))
    "#late" = inr (Some 3%nat).
Proof.
  apply (waitForSelector_found_is_there StaticPage.host 5 "#late" None StaticPage.start 3).
  vm_compute; reflexivity.
Defined.

(** Timeout 150 with polls every 100: given up at 200. *)
Lemma waitForSelector_gives_up_late_witness :
  ∃ T, to_number (get (effective (StaticPage.start_with (<["timeout" := VNum 150]> ∅))
                        (Some StaticPage.caller_options)) "timeout") = Some T
       ∧ T < date_now StaticPage.host
               (world (final (waitForSelector StaticPage.host 5 "#absent"
                                (Some StaticPage.caller_options)
                                (StaticPage.start_with (<["timeout" := VNum 150]> ∅)))))
             - date_now StaticPage.host
                 (world (StaticPage.start_with (<["timeout" := VNum 150]> ∅))).
Proof.
  apply (waitForSelector_gives_up_late StaticPage.host 5 "#absent"
           (Some StaticPage.caller_options)
           (StaticPage.start_with (<["timeout" := VNum 150]> ∅))).
  left. vm_compute; reflexivity.
Defined.

(** [{ timeout: undefined }] written over the default 10000. *)
Lemma waitForSelector_polls_for_ever_witness :
  result (waitForSelector StaticPage.host 7 "#absent" (Some StaticPage.caller_options)
            (StaticPage.start_with (<["timeout" := VUndefined]> ∅))) = Suspended
  ∧ count is_query
      (trace (waitForSelector StaticPage.host 7 "#absent" (Some StaticPage.caller_options)
                (StaticPage.start_with (<["timeout" := VUndefined]> ∅)))) = 8%nat
  ∧ count is_timer
      (trace (waitForSelector StaticPage.host 7 "#absent" (Some StaticPage.caller_options)
                (StaticPage.start_with (<["timeout" := VUndefined]> ∅)))) = 8%nat.
Proof.
  apply (waitForSelector_polls_for_ever StaticPage.host 7 "#absent"
           (Some StaticPage.caller_options)
           (StaticPage.start_with (<["timeout" := VUndefined]> ∅))).
  - vm_compute; reflexivity.
  - intros w; reflexivity.
Defined.

(** ** The convergence engine *)

Section ConvergenceFacts.
Context {World : Type} (host : Host World).

(** One pass of [scrollCheck]. *)
Lemma scrollCheck_step fuel element scrollStep maxScrollAttempts throwErrors attempts
    (st : Proc World) :
  scrollCheck host fuel element scrollStep maxScrollAttempts throwErrors attempts st
  = let rect := getBoundingClientRect host (world st) element in
    if in_viewport rect (innerHeight host (world st))
    then (Fulfilled (Some element), [EvMeasure element], st)
    else if js_ge (Some (attempts + 1)) (to_number maxScrollAttempts)
    then if truthy throwErrors
         then (Rejected (ScrollError (attempts + 1)), [EvMeasure element], st)
         else (Fulfilled (Some element),
               [EvMeasure element; EvWarn (ScrollError (attempts + 1))], st)
    else match fuel with
         | O => (Suspended,
                 [EvMeasure element; EvScrollBy (scroll_amount rect scrollStep);
                  EvRequestFrame],
                 {| heap := heap st; observing := observing st;
                    world := scrollBy host (scroll_amount rect scrollStep) (world st) |})
         | S fuel' =>
             let r := scrollCheck host fuel' element scrollStep maxScrollAttempts
                        throwErrors (attempts + 1)
                        (after_scroll host (scroll_amount rect scrollStep) st) in
             (result r,
              EvMeasure element :: EvScrollBy (scroll_amount rect scrollStep)
                :: EvRequestFrame :: trace r,
              final r)
         end.
Proof.
  destruct fuel as [|fuel]; cbn [scrollCheck]; unfold mbind, M_bind.
  all: do 3 (rewrite bind_unfold; cbn [emit page result trace final fst snd app]).
  all: cbv zeta.
  all: destruct (in_viewport _ _); [reflexivity|].
  all: destruct (js_ge _ _);
    [destruct (truthy throwErrors); [reflexivity|];
     rewrite bind_unfold; reflexivity|].
  all: do 3 (rewrite bind_unfold; cbn [emit advance result trace final fst snd app]).
  - reflexivity.
  - rewrite bind_unfold; cbn [advance result trace final fst snd app]. reflexivity.
Qed.

Lemma scrollCheck_fulfilled fuel element scrollStep maxScrollAttempts throwErrors attempts
    (st : Proc World) e :
  result (scrollCheck host fuel element scrollStep maxScrollAttempts throwErrors attempts st)
    = Fulfilled e →
  e = Some element
  ∧ (count is_scroll_warning
       (trace (scrollCheck host fuel element scrollStep maxScrollAttempts throwErrors
                 attempts st)) = 0%nat →
     in_viewport
       (getBoundingClientRect host
          (world (final (scrollCheck host fuel element scrollStep maxScrollAttempts
                           throwErrors attempts st))) element)
       (innerHeight host
          (world (final (scrollCheck host fuel element scrollStep maxScrollAttempts
                           throwErrors attempts st)))) = true).
Proof.
  revert attempts st.
  induction fuel as [|fuel IH]; intros attempts st; rewrite scrollCheck_step; cbv zeta.
  all: destruct (in_viewport _ _) eqn:Hin;
    [cbn [result trace final fst snd]; intros H; injection H as <-; auto|].
  all: destruct (js_ge _ _);
    [destruct (truthy throwErrors); cbn [result trace final fst snd];
     [discriminate|];
     intros H; injection H as <-; split; [reflexivity|];
     rewrite !count_cons; cbn [is_scroll_warning]; discriminate|].
  - discriminate.
  - cbn [result trace final fst snd]. intros H.
    destruct (IH _ _ H) as [He Hview]. split; [exact He|].
    rewrite !count_cons. cbn [is_scroll_warning]. exact Hview.
Qed.


Lemma scrollCheck_exhausts_throwing element scrollStep N throwErrors :
  (∀ w, in_viewport (getBoundingClientRect host w element) (innerHeight host w) = false) →
  truthy throwErrors = true →
  ∀ (n fuel : nat) attempts (st : Proc World),
    n = Z.to_nat (N - 1 - attempts) → (n ≤ fuel)%nat →
    result (scrollCheck host fuel element scrollStep (VNum N) throwErrors attempts st)
      = Rejected (ScrollError (Z.max N (attempts + 1)))
    ∧ count is_scroll
        (trace (scrollCheck host fuel element scrollStep (VNum N) throwErrors attempts st)) = n
    ∧ count is_warning
        (trace (scrollCheck host fuel element scrollStep (VNum N) throwErrors attempts st))
      = 0%nat.
Proof.
  intros Hnever Hthrow.
  induction n as [|n IH]; intros fuel attempts st Hn Hfuel;
    rewrite scrollCheck_step; cbv zeta; rewrite Hnever; cbn [to_number js_ge].
  - assert (Hge : (N <=? attempts + 1) = true) by (apply Z.leb_le; lia).
    rewrite Hge, Hthrow. cbn [result trace fst snd].
    rewrite !count_cons, !count_nil. cbn [is_scroll is_warning].
    split; [f_equal; f_equal; lia|done].
  - assert (Hlt : (N <=? attempts + 1) = false) by (apply Z.leb_gt; lia).
    rewrite Hlt. destruct fuel as [|fuel]; [lia|].
    match goal with |- context [scrollCheck host fuel ?e ?s ?m ?t ?a ?st'] =>
      destruct (IH fuel a st') as (Hr & Hs & Hw); [lia|lia|] end.
    cbn [result trace fst snd]. rewrite !count_cons, Hr, Hs, Hw.
    cbn [is_scroll is_warning].
    split; [f_equal; f_equal; lia|done].
Qed.

Lemma scrollCheck_unbounded element scrollStep maxScrollAttempts throwErrors :
  (∀ w, in_viewport (getBoundingClientRect host w element) (innerHeight host w) = false) →
  to_number maxScrollAttempts = None →
  ∀ (fuel : nat) attempts (st : Proc World),
    result (scrollCheck host fuel element scrollStep maxScrollAttempts throwErrors attempts st)
      = Suspended
    ∧ count is_scroll
        (trace (scrollCheck host fuel element scrollStep maxScrollAttempts throwErrors
                  attempts st)) = S fuel.
Proof.
  intros Hnever Hnan.
  induction fuel as [|fuel IH]; intros attempts st;
    rewrite scrollCheck_step; cbv zeta; rewrite Hnever, Hnan; cbn [js_ge].
  - cbn [result trace fst snd]. rewrite !count_cons, !count_nil. done.
  - match goal with |- context [scrollCheck host fuel ?e ?s ?m ?t ?a ?st'] =>
      destruct (IH a st') as (Hr & Hs) end.
    cbn [result trace fst snd]. rewrite !count_cons, Hr, Hs. done.
Qed.

Lemma count_zero_absent p (tr : list Event) ev :
  count p tr = 0%nat → ev ∈ tr → p ev = false.
Proof.
  induction tr as [|ev' tr IH]; intros Hc Hin; [by apply elem_of_nil in Hin|].
  rewrite count_cons in Hc.
  apply elem_of_cons in Hin as [->|Hin].
  - destruct (p ev'); [discriminate|reflexivity].
  - apply IH; [|exact Hin]. destruct (p ev'); [discriminate|exact Hc].
Qed.

Lemma scroll_with_handle fuel el c (st : Proc World) :
  scroll_with host fuel (Handle (Some el)) c st
  = scrollCheck host fuel el (get c "scrollStep") (get c "maxScrollAttempts")
      (get c "throwErrors") 0 st.
Proof.
  unfold scroll_with, mret, M_ret.
  by rewrite (bind_silent _ _ st (Fulfilled (Some el)) st).
Qed.


(** X6.  When [scrollToSelector] is fulfilled with an element and has
    not warned that it ran out of attempts, that element lies inside the
    viewport on the page as the call leaves it: [top >= 0] and
    [bottom <= innerHeight]. *)
Theorem scrollToSelector_quiet_success_in_view fuel selector options (st : Proc World) el :
  loaded st → options_valid st options →
  result (scrollToSelector host fuel selector options st) = Fulfilled (Some el) →
  count is_scroll_warning (trace (scrollToSelector host fuel selector options st)) = 0%nat →
  in_viewport
    (getBoundingClientRect host
       (world (final (scrollToSelector host fuel selector options st))) el)
    (innerHeight host (world (final (scrollToSelector host fuel selector options st))))
  = true.
Proof.
  intros Hl Hv.
  destruct (scrollToSelector_run host fuel selector options st Hl Hv)
    as (s1 & _ & _ & _ & ->).
  unfold scroll_with.
  set (m := match selector with Selector s => _ | Handle e => _ end).
  rewrite result_bind, trace_bind, final_bind, count_app.
  destruct (result (m s1)) as [[e0|]| | |]; cbn [scroll_found].
  - intros Hres Hquiet.
    destruct (scrollCheck_fulfilled _ _ _ _ _ _ _ _ Hres) as [He Hview].
    injection He as ->. apply Hview. lia.
  - destruct (truthy _); [discriminate|].
    unfold mbind, M_bind. rewrite result_bind. discriminate.
  - discriminate.
  - discriminate.
  - discriminate.
Qed.


(** X8.  An element that is already inside the viewport is returned after
    one measurement, without any scroll, whatever [maxScrollAttempts] is,
    zero and [undefined] included. *)
Theorem scrollToSelector_already_in_view fuel el options (st : Proc World) :
  loaded st → options_valid st options →
  in_viewport (getBoundingClientRect host (world st) el) (innerHeight host (world st)) = true →
  behaviour (scrollToSelector host fuel (Handle (Some el)) options) st
  = (Fulfilled (Some el), [EvMeasure el], world st).
Proof.
  intros Hl Hv Hin.
  destruct (scrollToSelector_run host fuel (Handle (Some el)) options st Hl Hv)
    as (s1 & _ & Hw & _ & Hrun).
  unfold behaviour. rewrite Hrun, scroll_with_handle, scrollCheck_step. cbv zeta.
  rewrite Hw, Hin. cbn [result trace final fst snd]. by rewrite Hw.
Qed.

(** X9.  With [throwErrors] set, an element that never comes inside the
    viewport makes [scrollToSelector] reject with the scroll error once the
    budget [maxScrollAttempts = N] is used up, after [N - 1] adjustments
    and without any warning. *)
Theorem scrollToSelector_exhaustion_rejects fuel el options (st : Proc World) N :
  loaded st → options_valid st options →
  get (effective st options) "maxScrollAttempts" = VNum N →
  truthy (get (effective st options) "throwErrors") = true →
  (∀ w, in_viewport (getBoundingClientRect host w el) (innerHeight host w) = false) →
  (Z.to_nat (N - 1) ≤ fuel)%nat →
  result (scrollToSelector host fuel (Handle (Some el)) options st)
    = Rejected (ScrollError (Z.max N 1))
  ∧ count is_scroll (trace (scrollToSelector host fuel (Handle (Some el)) options st))
    = Z.to_nat (N - 1)
  ∧ count is_warning (trace (scrollToSelector host fuel (Handle (Some el)) options st))
    = 0%nat.
Proof.
  intros Hl Hv HN Hthrow Hnever Hfuel.
  destruct (scrollToSelector_run host fuel (Handle (Some el)) options st Hl Hv)
    as (s1 & _ & _ & _ & ->).
  rewrite scroll_with_handle, HN.
  apply (scrollCheck_exhausts_throwing el _ N _ Hnever Hthrow (Z.to_nat (N - 1)) fuel 0 s1);
    [f_equal; lia | exact Hfuel].
Qed.

(** X10.  When [maxScrollAttempts] is not a number, such as an explicit
    [undefined] in the options, nothing bounds the loop: for an element
    that never comes inside the viewport the call is still pending after
    any number [n] of animation frames, having scrolled [n + 1] times. *)
Theorem scrollToSelector_unbounded_without_budget fuel el options (st : Proc World) :
  loaded st → options_valid st options →
  to_number (get (effective st options) "maxScrollAttempts") = None →
  (∀ w, in_viewport (getBoundingClientRect host w el) (innerHeight host w) = false) →
  result (scrollToSelector host fuel (Handle (Some el)) options st) = Suspended
  ∧ count is_scroll (trace (scrollToSelector host fuel (Handle (Some el)) options st))
    = S fuel.
Proof.
  intros Hl Hv Hnan Hnever.
  destruct (scrollToSelector_run host fuel (Handle (Some el)) options st Hl Hv)
    as (s1 & _ & _ & _ & ->).
  rewrite scroll_with_handle.
  by apply scrollCheck_unbounded.
Qed.
End ConvergenceFacts.

Ltac concrete_state :=
  first [ exact I | apply (bool_decide_unpack _); vm_compute; reflexivity ].

(** ["#ghost"] is resolved, measured once and found inside the viewport. *)
Lemma scrollToSelector_quiet_success_in_view_witness :
  in_viewport
    (getBoundingClientRect StaticPage.host
       (world (final (scrollToSelector StaticPage.host 3 (Selector "#ghost") None
                        StaticPage.start))) 9%nat)
    (innerHeight StaticPage.host
       (world (final (scrollToSelector StaticPage.host 3 (Selector "#ghost") None
                        StaticPage.start))))
  = true.
Proof.
  apply (scrollToSelector_quiet_success_in_view StaticPage.host 3 (Selector "#ghost") None
           StaticPage.start 9); try concrete_state; vm_compute; reflexivity.
Defined.


(** Element 3 is in view; a budget of zero attempts changes nothing. *)
Lemma scrollToSelector_already_in_view_witness :
  behaviour (scrollToSelector StaticPage.host 0 (Handle (Some 3%nat))
               (Some StaticPage.caller_options))
    (StaticPage.start_with (<["maxScrollAttempts" := VNum 0]> ∅))
  = (Fulfilled (Some 3%nat), [EvMeasure 3], 0).
Proof.
  apply (scrollToSelector_already_in_view StaticPage.host 0 3
           (Some StaticPage.caller_options)
           (StaticPage.start_with (<["maxScrollAttempts" := VNum 0]> ∅)));
    try concrete_state; reflexivity.
Defined.

(** The pinned element with three attempts and [throwErrors]. *)
Lemma scrollToSelector_exhaustion_rejects_witness :
  result (scrollToSelector StaticPage.host 2 (Handle (Some 7%nat))
            (Some StaticPage.caller_options)
            (StaticPage.start_with
               (<["maxScrollAttempts" := VNum 3]> (<["throwErrors" := VBool true]> ∅))))
  = Rejected (ScrollError (Z.max 3 1)).
Proof.
  apply (scrollToSelector_exhaustion_rejects StaticPage.host 2 7
           (Some StaticPage.caller_options)
           (StaticPage.start_with
              (<["maxScrollAttempts" := VNum 3]> (<["throwErrors" := VBool true]> ∅))) 3);
    try concrete_state; try (vm_compute; reflexivity); try (intros w; reflexivity).
Defined.

(** [{ maxScrollAttempts: undefined }] and the pinned element. *)
Lemma scrollToSelector_unbounded_without_budget_witness :
  result (scrollToSelector StaticPage.host 60 (Handle (Some 7%nat))
            (Some StaticPage.caller_options)
            (StaticPage.start_with (<["maxScrollAttempts" := VUndefined]> ∅)))
  = Suspended
  ∧ count is_scroll
      (trace (scrollToSelector StaticPage.host 60 (Handle (Some 7%nat))
                (Some StaticPage.caller_options)
                (StaticPage.start_with (<["maxScrollAttempts" := VUndefined]> ∅))))
    = 61%nat.
Proof.
  apply (scrollToSelector_unbounded_without_budget StaticPage.host 60 7
           (Some StaticPage.caller_options)
           (StaticPage.start_with (<["maxScrollAttempts" := VUndefined]> ∅)));
    try concrete_state; try (vm_compute; reflexivity); intros w; reflexivity.
Defined.

(** ** Event dispatch *)

Section DispatchFacts.
Context {World : Type} (host : Host World).

Lemma trigger_with_handle fuel e event c (st : Proc World) :
  trigger_with host fuel (Handle e) event c st
  = trigger_found host event c (Fulfilled e) st.
Proof.
  unfold trigger_with, mret, M_ret.
  by rewrite (bind_silent _ _ st (Fulfilled e) st).
Qed.

(** What [trigger_found] does with the outcome of the resolution. *)
Lemma trigger_found_dispatches event c element (st : Proc World) :
  (count is_dispatch (trace (trigger_found host event c element st)) ≤ 1)%nat
  ∧ (result (trigger_found host event c element st) = Fulfilled true →
     count is_dispatch (trace (trigger_found host event c element st)) = 1%nat
     ∧ count is_warning (trace (trigger_found host event c element st)) = 0%nat)
  ∧ (∀ el ev, EvDispatch el ev ∈ trace (trigger_found host event c element st) →
       ev = event ∧ element = Fulfilled (Some el)).
Proof.
  destruct element as [[el|]| | |]; cbn [trigger_found]; unfold mbind, M_bind.
  - rewrite !bind_unfold. cbn [emit page result trace final fst snd app].
    destruct (dispatchEvent host (world st) el event) as [name|w'].
    + destruct (truthy _); rewrite ?bind_unfold;
        cbn [emit mret M_ret ret result trace final fst snd app];
        rewrite !count_cons, !count_nil; cbn [is_dispatch is_warning];
        (split; [lia|]; split; [discriminate|]);
        intros el' ev Hin;
        repeat (apply elem_of_cons in Hin as [Hin|Hin];
                [first [by injection Hin as -> -> | discriminate]|]);
        by apply elem_of_nil in Hin.
    + rewrite bind_unfold. cbn [advance mret M_ret ret result trace final fst snd app].
      rewrite !count_cons, !count_nil. cbn [is_dispatch is_warning].
      split; [lia|]. split; [done|].
      intros el' ev Hin.
      apply elem_of_cons in Hin as [Hin|Hin]; [by injection Hin as -> ->|].
      by apply elem_of_nil in Hin.
  - destruct (truthy _); rewrite ?bind_unfold;
      cbn [emit mret M_ret ret result trace final fst snd app];
      rewrite ?count_cons, ?count_nil; cbn [is_dispatch is_warning];
      (split; [lia|]; split; [discriminate|]);
      intros el' ev Hin;
      repeat (apply elem_of_cons in Hin as [Hin|Hin]; [discriminate|]);
      by apply elem_of_nil in Hin.
  - cbn [mret M_ret ret result trace fst snd]. rewrite count_nil.
    split; [lia|]. split; [discriminate|]. intros el' ev Hin. by apply elem_of_nil in Hin.
  - cbn [mret M_ret ret result trace fst snd]. rewrite count_nil.
    split; [lia|]. split; [discriminate|]. intros el' ev Hin. by apply elem_of_nil in Hin.
  - cbn [mret M_ret ret result trace fst snd]. rewrite count_nil.
    split; [lia|]. split; [discriminate|]. intros el' ev Hin. by apply elem_of_nil in Hin.
Qed.

(** X11.  Given an element, [triggerEvent] dispatches the event at it once.
    If the dispatch goes through, the call is fulfilled with [true] and the
    page is the one the dispatch leaves; if the host throws, the page is
    untouched and the error is rethrown under [throwErrors], otherwise
    reported in a warning with the result [false]. *)
Theorem triggerEvent_dispatch_outcomes fuel el event options (st : Proc World) :
  loaded st →
  (∀ w', dispatchEvent host (world st) el event = inr w' →
     behaviour (triggerEvent host fuel (Handle (Some el)) event options) st
     = (Fulfilled true, [EvDispatch el event], w'))
  ∧ (∀ name, dispatchEvent host (world st) el event = inl name →
       truthy (get (effective st options) "throwErrors") = true →
       behaviour (triggerEvent host fuel (Handle (Some el)) event options) st
       = (Rejected (HostError name), [EvDispatch el event], world st))
  ∧ (∀ name, dispatchEvent host (world st) el event = inl name →
       truthy (get (effective st options) "throwErrors") = false →
       behaviour (triggerEvent host fuel (Handle (Some el)) event options) st
       = (Fulfilled false, [EvDispatch el event; EvWarnDispatch event name], world st)).
Proof.
  intros Hl.
  destruct (triggerEvent_run host fuel (Handle (Some el)) event options st Hl)
    as (s1 & _ & Hw & _ & Hrun).
  unfold behaviour. rewrite Hrun, trigger_with_handle. cbn [trigger_found].
  unfold mbind, M_bind. rewrite !bind_unfold.
  cbn [emit page result trace final fst snd app]. rewrite Hw.
  split; [|split].
  - intros w' ->. rewrite bind_unfold. reflexivity.
  - intros name -> ->. cbn [mret M_ret ret result trace final fst snd]. by rewrite Hw.
  - intros name -> ->. rewrite bind_unfold.
    cbn [emit mret M_ret ret result trace final fst snd app]. by rewrite Hw.
Qed.

(** X12.  Whatever the target, [triggerEvent] dispatches at most once, and
    only the event it was asked for, at the element it was given or the
    element the resolver found under the caller's Configuration; a result
    [true] means one dispatch and no warning. *)
Theorem triggerEvent_dispatches_once fuel selector event options (st : Proc World) :
  loaded st →
  (count is_dispatch (trace (triggerEvent host fuel selector event options st)) ≤ 1)%nat
  ∧ (result (triggerEvent host fuel selector event options st) = Fulfilled true →
     count is_dispatch (trace (triggerEvent host fuel selector event options st)) = 1%nat
     ∧ count is_warning (trace (triggerEvent host fuel selector event options st)) = 0%nat)
  ∧ (∀ el ev,
       EvDispatch el ev ∈ trace (triggerEvent host fuel selector event options st) →
       ev = event
       ∧ match selector with
         | Handle e => e = Some el
         | Selector s =>
             result (wait_with host fuel s (effective st options) st) = Fulfilled (Some el)
         end).
Proof.
  intros Hl.
  destruct (triggerEvent_run host fuel selector event options st Hl)
    as (s1 & _ & Hw & _ & ->).
  set (c := effective st options).
  unfold trigger_with.
  set (m := match selector with Selector s => _ | Handle e => _ end).
  rewrite result_bind, trace_bind, !count_app.
  assert (Hnone : count is_dispatch (trace (m s1)) = 0%nat).
  { destruct selector as [s|e]; [|reflexivity].
    apply (silent_weaken not_resolver_event is_dispatch); [|apply silent_wait_with].
    intros ev Hev. unfold not_resolver_event. rewrite Hev.
    by destruct (is_scroll_loop ev). }
  assert (Hquiet : result (m s1) ≠ Fulfilled None →
                   count is_warning (trace (m s1)) = 0%nat).
  { destruct selector as [s|e]; [|reflexivity].
    subst m. cbv beta. rewrite wait_with_unfold, checkSelector_warnings.
    intros Hne. destruct (result _) as [[?|]| | |]; try reflexivity. by destruct Hne. }
  destruct (trigger_found_dispatches event c (result (m s1)) (final (m s1)))
    as (H1 & H2 & H3).
  rewrite Hnone. split; [lia|]. split.
  - intros Htrue. destruct (H2 Htrue) as [Hd Hwarn]. split; [lia|].
    rewrite Hwarn, Hquiet; [reflexivity|].
    intros Hnull. rewrite Hnull in Htrue. cbn [trigger_found] in Htrue.
    destruct (truthy _); [discriminate|].
    unfold mbind, M_bind in Htrue. rewrite result_bind in Htrue. discriminate.
  - intros el ev [Hin|Hin]%elem_of_app.
    + pose proof (count_zero_absent _ _ _ Hnone Hin). discriminate.
    + destruct (H3 el ev Hin) as [-> Hfound]. split; [reflexivity|].
      subst m. destruct selector as [s|e].
      * pose proof (pagewise_behaviour _ s1 st (pagewise_wait_with host fuel s c) Hw) as Hb.
        unfold behaviour in Hb. injection Hb as Hr _ _. rewrite <- Hr. exact Hfound.
      * cbn [mret M_ret ret result fst] in Hfound. by injection Hfound.
Qed.
End DispatchFacts.

(** A dispatch the host refuses, with the default [throwErrors = false]. *)
Lemma triggerEvent_dispatch_outcomes_witness :
  behaviour (triggerEvent FragilePage.host 0 (Handle (Some 9%nat)) "click" None)
    StaticPage.start
  = (Fulfilled false,
     [EvDispatch 9 "click"; EvWarnDispatch "click" "InvalidStateError"], 0).
Proof.
  assert (Hl : loaded StaticPage.start) by (apply (bool_decide_unpack _); vm_compute; reflexivity).
  destruct (triggerEvent_dispatch_outcomes FragilePage.host 0 9 "click" None
              StaticPage.start Hl) as (_ & _ & Hwarn).
  apply (Hwarn "InvalidStateError"); vm_compute; reflexivity.
Defined.

(** ["#late"] is waited for, found at 300 and clicked once. *)
Lemma triggerEvent_dispatches_once_witness :
  count is_dispatch
    (trace (triggerEvent FragilePage.host 5 (Selector "#late") "click" None
              StaticPage.start)) = 1%nat.
Proof.
  assert (Hl : loaded StaticPage.start) by (apply (bool_decide_unpack _); vm_compute; reflexivity).
  destruct (triggerEvent_dispatches_once FragilePage.host 5 (Selector "#late") "click"
              None StaticPage.start Hl) as (_ & Htrue & _).
  apply Htrue. vm_compute; reflexivity.
Defined.

(** ** Watchers and the baseline *)

Section WatcherFacts.
Context {World : Type} (host : Host World).


Lemma on_mutations_snapshot selector callback cfg obs (s s' : Proc World) :
  (∀ e o, pagewise (callback e o)) →
  world s = world s' → heap s !! cfg = heap s' !! cfg →
  behaviour (on_mutations host selector callback cfg obs) s
  = behaviour (on_mutations host selector callback cfg obs) s'.
Proof.
  intros Hcb Hw Hc. unfold behaviour, on_mutations, mbind, M_bind.
  rewrite !(bind_unfold (emit _)). cbn [emit result trace final fst snd].
  rewrite !(bind_unfold (page _)). cbn [page result trace final fst snd].
  rewrite <- Hw.
  destruct (querySelector host (world s) selector) as [name|element].
  { unfold emit, result, trace, final; simpl. by rewrite Hw. }
  rewrite (bind_silent _ _ s (default ∅ (heap s !! cfg)) s) by reflexivity.
  rewrite (bind_silent _ _ s' (default ∅ (heap s' !! cfg)) s') by reflexivity.
  rewrite <- Hc.
  set (body := bind (accepted host (get (default ∅ (heap s !! cfg)) "visibleCheck") element) _).
  assert (Hbody : pagewise body).
  { apply pagewise_bind; [apply pagewise_accepted|intros ok].
    destruct element as [el|]; [|apply pagewise_mret].
    destruct ok; [|apply pagewise_mret].
    apply pagewise_bind; [apply pagewise_emit|intros _; apply Hcb]. }
  pose proof (pagewise_behaviour _ s s' Hbody Hw) as Hb.
  unfold behaviour in Hb. injection Hb as Hr Ht Hf. by rewrite Hr, Ht, Hf.
Qed.

(** X14.  A watcher keeps the Configuration merged when it was installed:
    a later [config(newConfig)] changes the baseline of later calls but
    not what an installed watcher does with a mutation batch. *)
Theorem watcher_keeps_its_configuration selector callback options newConfig
    (st : Proc World) :
  loaded st →
  (∀ e o, pagewise (callback e o)) →
  behaviour (deliver_batch (result (observeSelector host selector callback options st)))
    (final (config newConfig (final (observeSelector host selector callback options st))))
  = behaviour (deliver_batch (result (observeSelector host selector callback options st)))
      (final (observeSelector host selector callback options st)).
Proof.
  intros [d Hd] Hcb.
  destruct (observeSelector_run host selector callback options st)
    as (cfg & obs & heap1 & Hrun & Hsub & Hcfg & _ & _ & Hc).
  rewrite Hrun. cbn [result final fst snd]. rewrite config_run. cbn [final snd].
  assert (Hne : cfg ≠ defaults) by (intros ->; rewrite Hd in Hcfg; discriminate).
  unfold behaviour, deliver_batch. cbn [obs_id obs_handler].
  set (s := {| heap := heap1; observing := _; world := _ |}).
  set (s' := {| heap := <[defaults := _]> _; observing := _; world := _ |}).
  assert (Hin : bool_decide (obs ∈ {[obs]} ∪ observing st) = true)
    by (apply bool_decide_eq_true_2; set_solver).
  rewrite (bind_silent _ _ s' true s') by (unfold is_observing; simpl; by rewrite Hin).
  rewrite (bind_silent _ _ s true s) by (unfold is_observing; simpl; by rewrite Hin).
  apply (on_mutations_snapshot selector callback cfg obs s' s Hcb); [reflexivity|].
  unfold s', s; simpl. by rewrite lookup_insert_ne.
Qed.
End WatcherFacts.

(** ["#ghost"] is watched with the default [visibleCheck]; switching the
    baseline to [visibleCheck: false] afterwards changes nothing for it. *)
Lemma watcher_keeps_its_configuration_witness :
  behaviour (deliver_batch (result (observeSelector StaticPage.host "#ghost"
                                      (λ _ _, mret tt) None
                                      (StaticPage.start_with
                                         (<["visibleCheck" := VBool false]> ∅)))))
    (final (config (Some StaticPage.caller_options)
              (final (observeSelector StaticPage.host "#ghost" (λ _ _, mret tt) None
                        (StaticPage.start_with (<["visibleCheck" := VBool false]> ∅))))))
  = (tt, [EvQuery "#ghost"; EvGetComputedStyle 9], 0).
Proof.
  assert (Hl : loaded (StaticPage.start_with (<["visibleCheck" := VBool false]> ∅)))
    by (apply (bool_decide_unpack _); vm_compute; reflexivity).
  rewrite (watcher_keeps_its_configuration StaticPage.host "#ghost" (λ _ _, mret tt) None
             (Some StaticPage.caller_options) _ Hl (λ _ _, pagewise_mret tt)).
  vm_compute. reflexivity.
Defined.

Section BaselineFacts.
Context {World : Type}.

Lemma baseline_after_config newConfig (st : Proc World) :
  baseline (final (config newConfig st))
  = spread2 (baseline st) (options_object st newConfig).
Proof.
  rewrite config_run. unfold baseline at 1; simpl. by rewrite lookup_insert_eq.
Qed.

Lemma options_object_after_config newConfig other (st : Proc World) :
  other ≠ Some defaults →
  options_object (final (config newConfig st)) other = options_object st other.
Proof.
  intros Hne. rewrite config_run. destruct other as [l|]; [|reflexivity].
  simpl. rewrite lookup_insert_ne; [reflexivity|]. intros Heq. by subst l.
Qed.

(** X15.  Successive calls of [config] accumulate: after [config(a)] and
    then [config(b)] a key of the baseline holds the value from [b] if [b]
    has the key, else the value from [a] if [a] has it, else its previous
    value; no key of the baseline is ever removed. *)
Theorem config_accumulates a b (st : Proc World) :
  b ≠ Some defaults →
  (∀ k,
     baseline (final (config b (final (config a st)))) !! k
     = match options_object st b !! k with
       | Some v => Some v
       | None =>
           match options_object st a !! k with
           | Some v => Some v
           | None => baseline st !! k
           end
       end)
  ∧ (∀ k, is_Some (baseline st !! k) →
          is_Some (baseline (final (config b (final (config a st)))) !! k)).
Proof.
  intros Hb.
  assert (Hk : ∀ k,
     baseline (final (config b (final (config a st)))) !! k
     = match options_object st b !! k with
       | Some v => Some v
       | None =>
           match options_object st a !! k with
           | Some v => Some v
           | None => baseline st !! k
           end
       end).
  { intros k. rewrite !baseline_after_config, options_object_after_config by exact Hb.
    unfold spread2.
    destruct (options_object st b !! k) as [v|] eqn:Hbk.
    - by apply lookup_union_Some_l.
    - rewrite lookup_union_r by exact Hbk.
      destruct (options_object st a !! k) as [v|] eqn:Hak.
      + by apply lookup_union_Some_l.
      + by rewrite lookup_union_r. }
  split; [exact Hk|].
  intros k Hsome. rewrite Hk.
  destruct (options_object st b !! k); [eauto|].
  destruct (options_object st a !! k); [eauto|exact Hsome].
Qed.

(** X16.  [config] is idempotent, and it changes nothing at all when every
    property of its argument already has that value in the baseline: so for
    no argument, for an empty object, and for the [defaults] object that
    [config] itself returns. *)
Theorem config_idempotent_and_neutral newConfig (st : Proc World) :
  loaded st →
  final (config newConfig (final (config newConfig st))) = final (config newConfig st)
  ∧ (options_object st newConfig ⊆ baseline st → final (config newConfig st) = st)
  ∧ final (config None st) = st
  ∧ final (config (Some defaults) st) = st.
Proof.
  intros [d Hd].
  assert (Hneutral : ∀ nc, options_object st nc ⊆ baseline st → final (config nc st) = st).
  { intros nc Hsub. rewrite config_run. cbn [final snd].
    rewrite (map_subseteq_union _ _ Hsub).
    unfold baseline. rewrite Hd. simpl. rewrite (insert_id _ _ _ Hd).
    by destruct st. }
  split; [|split; [apply Hneutral|split]].
  - rewrite (config_run newConfig (final (config newConfig st))).
    cbn [final snd].
    rewrite (config_run newConfig st). cbn [final snd heap observing world].
    f_equal. rewrite insert_insert_eq. f_equal.
    unfold baseline; simpl. rewrite lookup_insert_eq. simpl.
    destruct newConfig as [l|]; simpl.
    + destruct (decide (l = defaults)) as [->|Hne].
      * rewrite lookup_insert_eq, Hd. simpl.
        by rewrite (idemp_L (∪)), (idemp_L (∪)).
      * rewrite lookup_insert_ne by done.
        by rewrite (assoc_L (∪)), (idemp_L (∪)).
    + by rewrite !(left_id_L ∅ (∪)).
  - apply Hneutral. simpl. apply map_empty_subseteq.
  - apply Hneutral. simpl. unfold baseline. by rewrite Hd.
Qed.
End BaselineFacts.

(** [config({timeout: 5000, throwErrors: true})], then [config({timeout: 1})]. *)
Lemma config_accumulates_witness :
  baseline
    (final (config (Some 3%positive)
              (final (config (Some 2%positive)
                        {| heap := <[3%positive := <["timeout" := VNum 1]> ∅]>
                                     (<[2%positive := <["timeout" := VNum 5000]>
                                                        (<["throwErrors" := VBool true]> ∅)]>
                                        {[ defaults := initial_defaults ]});
                           observing := ∅; world := 0 |})))) !! "throwErrors"
  = Some (VBool true).
Proof.
  destruct (config_accumulates (Some 2%positive) (Some 3%positive)
              {| heap := <[3%positive := <["timeout" := VNum 1]> ∅]>
                           (<[2%positive := <["timeout" := VNum 5000]>
                                              (<["throwErrors" := VBool true]> ∅)]>
                              {[ defaults := initial_defaults ]});
                 observing := ∅; world := 0 |}) as [Hk _]; [discriminate|].
  rewrite Hk. vm_compute. reflexivity.
Defined.

(** [config(config({}))] on the freshly loaded module. *)
Lemma config_idempotent_and_neutral_witness :
  final (config (Some defaults) (StaticPage.start_with ∅)) = StaticPage.start_with ∅.
Proof.
  assert (Hl : loaded (StaticPage.start_with ∅)) by (apply (bool_decide_unpack _); vm_compute; reflexivity).
  destruct (config_idempotent_and_neutral (Some defaults) (StaticPage.start_with ∅) Hl)
    as (_ & _ & _ & Hself).
  exact Hself.
Defined.

(** ** [selectAll] *)

Section SelectAllFacts.
Context {World : Type} (host : Host World)
        (querySelectorAll : World → string → string + list Element).

Lemma filter_visible_run elements (st : Proc World) :
  result (filter_visible host elements st) = visible_among host st elements
  ∧ final (filter_visible host elements st) = st
  ∧ count is_warning (trace (filter_visible host elements st)) = 0%nat.
Proof.
  revert st. induction elements as [|el rest IH]; intros st; [done|].
  cbn [filter_visible]. rewrite !result_bind, !final_bind, !trace_bind, !count_app.
  rewrite (isVisible_final host (Some el) st).
  destruct (IH st) as (Hr & Hf & Hc). rewrite Hf, Hr, Hc.
  cbn [mret M_ret ret result trace final fst snd visible_among List.filter].
  split; [|split; [reflexivity|]].
  - fold (visible_among host st rest). by destruct (result (isVisible host (Some el) st)).
  - rewrite count_nil.
    assert (Hv : count is_warning (trace (isVisible host (Some el) st)) = 0%nat).
    { apply (accepted_count host is_warning (VBool true) (Some el) st). by intros []. }
    rewrite Hv. reflexivity.
Qed.

Lemma select_found_run selector c waited (st : Proc World) :
  (∀ l, result (select_found host querySelectorAll selector c waited st) = Fulfilled l →
     ∃ all, querySelectorAll (world st) selector = inr all
            ∧ l = if truthy (get c "visibleCheck")
                  then visible_among host st all else all)
  ∧ final (select_found host querySelectorAll selector c waited st) = st
  ∧ count is_warning (trace (select_found host querySelectorAll selector c waited st))
    = 0%nat
  ∧ (∀ e all, waited = Fulfilled e → querySelectorAll (world st) selector = inr all →
       result (select_found host querySelectorAll selector c waited st)
       = Fulfilled (if truthy (get c "visibleCheck")
                    then visible_among host st all else all))
  ∧ (∀ e, waited = Rejected e →
       result (select_found host querySelectorAll selector c waited st) = Rejected e).
Proof.
  destruct waited as [e|e| |]; cbn [select_found].
  2-4: (split; [discriminate|]; split; [reflexivity|]; split; [reflexivity|];
        split; [discriminate|]; intros e' He; try discriminate; by injection He as ->).
  rewrite !result_bind, !final_bind, !trace_bind, !count_app.
  cbn [page result trace final fst snd]. rewrite count_nil.
  destruct (querySelectorAll (world st) selector) as [name|all].
  { cbn [mret M_ret ret result trace final fst snd].
    split; [discriminate|]. split; [reflexivity|]. split; [reflexivity|].
    split; [discriminate|discriminate]. }
  destruct (truthy (get c "visibleCheck")).
  - rewrite !result_bind, !final_bind, !trace_bind, !count_app.
    destruct (filter_visible_run all st) as (Hr & Hf & Hc). rewrite Hr, Hf, Hc.
    cbn [mret M_ret ret result trace final fst snd].
    split; [intros l H; injection H as <-; eauto|].
    split; [reflexivity|]. split; [reflexivity|].
    split; [|discriminate]. intros e' all' _ H; by injection H as <-.
  - cbn [mret M_ret ret result trace final fst snd].
    split; [intros l H; injection H as <-; eauto|].
    split; [reflexivity|]. split; [reflexivity|].
    split; [|discriminate]. intros e' all' _ H; by injection H as <-.
Qed.

Lemma presence_check_unfold fuel selector c (st : Proc World) :
  presence_check host fuel selector c st
  = checkSelector host fuel selector (get c "timeout") (get c "pollInterval")
      (VBool false) (get c "throwErrors") (date_now host (world st)) true st.
Proof.
  unfold presence_check. by rewrite (bind_silent _ _ st (date_now host (world st)) st).
Qed.

Lemma selectAll_run fuel selector options (st : Proc World) :
  loaded st →
  ∃ s1, heap st ⊆ heap s1 ∧ world s1 = world st
    ∧ selectAll host querySelectorAll fuel selector options st
      = bind (presence_check host fuel selector (effective st options))
          (select_found host querySelectorAll selector (effective st options)) s1.
Proof.
  intros Hl.
  destruct (merge_config_run options st) as (cfg & sa & Ha & Hsa & Hwa & _ & _ & Hc).
  set (c := effective st options) in *.
  set (inner := result (alloc (<["visibleCheck" := VBool false]> c) sa)).
  set (sb := final (alloc (<["visibleCheck" := VBool false]> c) sa)).
  assert (Hal : alloc (<["visibleCheck" := VBool false]> c) sa = (inner, [], sb))
    by reflexivity.
  assert (Hsb : heap sa ⊆ heap sb) by apply alloc_extends.
  destruct (waitForSelector_run host fuel selector (Some inner) sb)
    as (sc & Hsc & Hwc & _ & Hrun).
  assert (Hin : effective sb (Some inner) = <["visibleCheck" := VBool false]> c).
  { unfold effective at 1, spread2.
    rewrite (baseline_extends st sb Hl) by (by etrans).
    simpl. subst inner sb. unfold alloc, result, final; simpl.
    rewrite lookup_insert_eq. simpl.
    rewrite <- insert_union_l. f_equal.
    unfold c, effective, spread2. by rewrite <- (assoc_L (∪)), (idemp_L (∪)). }
  rewrite Hin, wait_with_presence in Hrun.
  exists sc. split; [by etrans; [|etrans]|].
  split; [by rewrite Hwc; change (world sb) with (world sa)|].
  unfold selectAll.
  rewrite (bind_silent _ _ _ _ _ Ha), (bind_silent _ _ _ _ _ (read_run _ _ _ Hc)).
  rewrite (bind_silent _ _ _ _ _ Hal).
  rewrite !bind_unfold, Hrun. reflexivity.
Qed.

(** X17.  The array [selectAll] is fulfilled with is what
    [querySelectorAll] answers on the page as it is then: all of it, in
    document order, when [visibleCheck] is off, and exactly its visible
    elements, in the same order, when [visibleCheck] is on. *)
Theorem selectAll_returns_current_matches fuel selector options (st : Proc World) l :
  loaded st →
  result (selectAll host querySelectorAll fuel selector options st) = Fulfilled l →
  ∃ all,
    querySelectorAll
      (world (final (selectAll host querySelectorAll fuel selector options st))) selector
    = inr all
    ∧ l = if truthy (get (effective st options) "visibleCheck")
          then visible_among host
                 (final (selectAll host querySelectorAll fuel selector options st)) all
          else all.
Proof.
  intros Hl.
  destruct (selectAll_run fuel selector options st Hl) as (s1 & _ & _ & ->).
  rewrite result_bind, final_bind.
  intros Hres.
  match type of Hres with result (select_found _ _ _ ?c ?w ?s) = _ =>
    destruct (select_found_run selector c w s) as (Hl' & Hf & _) end.
  rewrite Hf. exact (Hl' l Hres).
Qed.

(** X18.  A timeout of the wait inside [selectAll] is not an error of
    [selectAll]: when the wait ends in [null] (which takes [throwErrors]
    off), the call warns once and is fulfilled with whatever matches at
    that moment, the empty array included.  A rejection of the wait is
    passed on. *)
Theorem selectAll_survives_timeout fuel selector options (st : Proc World) :
  loaded st →
  (∀ all,
     result (presence_check host fuel selector (effective st options) st) = Fulfilled None →
     querySelectorAll
       (world (final (presence_check host fuel selector (effective st options) st)))
       selector = inr all →
     (∃ l, result (selectAll host querySelectorAll fuel selector options st) = Fulfilled l
           ∧ (all = [] → l = []))
     ∧ count is_warning (trace (selectAll host querySelectorAll fuel selector options st))
       = 1%nat)
  ∧ (∀ e,
       result (presence_check host fuel selector (effective st options) st) = Rejected e →
       result (selectAll host querySelectorAll fuel selector options st) = Rejected e).
Proof.
  intros Hl.
  destruct (selectAll_run fuel selector options st Hl) as (s1 & _ & Hw & ->).
  set (c := effective st options).
  pose proof (pagewise_behaviour _ s1 st (pagewise_presence_check host fuel selector c) Hw)
    as Hb.
  unfold behaviour in Hb. injection Hb as Hr Ht Hwo.
  rewrite result_bind, trace_bind, count_app, Hr, Ht.
  destruct (select_found_run selector c
              (result (presence_check host fuel selector c st))
              (final (presence_check host fuel selector c s1)))
    as (_ & _ & Hquiet & Hok & Hrej).
  rewrite Hquiet. split.
  - intros all Hnull Hall. rewrite <- Hwo in Hall.
    rewrite (Hok None all Hnull Hall). split.
    + eexists. split; [reflexivity|]. intros ->. by destruct (truthy _).
    + rewrite presence_check_unfold in Hnull |- *.
      rewrite checkSelector_warnings, Hnull. reflexivity.
  - intros e He. exact (Hrej e He).
Qed.
End SelectAllFacts.

(** The three [".item"] elements, of which element 9 is not displayed. *)
Lemma selectAll_returns_current_matches_witness :
  ∃ all,
    ListPage.query_all
      (world (final (selectAll ListPage.host ListPage.query_all 3 ".item" None
                       StaticPage.start))) ".item" = inr all
    ∧ [7%nat; 3%nat]
      = if truthy (get (effective StaticPage.start None) "visibleCheck")
        then visible_among ListPage.host
               (final (selectAll ListPage.host ListPage.query_all 3 ".item" None
                         StaticPage.start)) all
        else all.
Proof.
  assert (Hl : loaded StaticPage.start) by (apply (bool_decide_unpack _); vm_compute; reflexivity).
  apply (selectAll_returns_current_matches ListPage.host ListPage.query_all 3 ".item" None
           StaticPage.start [7%nat; 3%nat] Hl).
  vm_compute. reflexivity.
Defined.

(** Nothing matches ["#absent"]: a warning and the empty array. *)
Lemma selectAll_survives_timeout_witness :
  count is_warning
    (trace (selectAll ListPage.host ListPage.query_all 5 "#absent"
              (Some StaticPage.caller_options)
              (StaticPage.start_with (<["timeout" := VNum 150]> ∅)))) = 1%nat.
Proof.
  assert (Hl : loaded (StaticPage.start_with (<["timeout" := VNum 150]> ∅)))
    by (apply (bool_decide_unpack _); vm_compute; reflexivity).
  destruct (selectAll_survives_timeout ListPage.host ListPage.query_all 5 "#absent"
              (Some StaticPage.caller_options) _ Hl) as [Hnull _].
  destruct (Hnull []) as [_ Hwarn]; [vm_compute; reflexivity..|exact Hwarn].
Defined.

(** ** SelectorToolkit *)

Section ToolkitFacts.
Context {World : Type} (host : Host World) (dom : Dom World).

Lemma sbind_unfold {A B : Type} (m : Script World A) (f : A → Script World B) (w : World) :
  sbind m f w
  = (outcome (f (outcome (m w)) (page_after (m w))),
     actions (m w) ++ actions (f (outcome (m w)) (page_after (m w))),
     page_after (f (outcome (m w)) (page_after (m w)))).
Proof.
  unfold sbind, outcome, actions, page_after.
  destruct (m w) as [[a t1] w1]; simpl.
  destruct (f a w1) as [[b t2] w2]; reflexivity.
Qed.

Lemma tally_cons p a (tr : list Action) :
  tally p (a :: tr) = ((if p a then 1 else 0) + tally p tr)%nat.
Proof. unfold tally. simpl. by destruct (p a). Qed.

Lemma tally_app p (t1 t2 : list Action) :
  tally p (t1 ++ t2) = (tally p t1 + tally p t2)%nat.
Proof. unfold tally. by rewrite List.filter_app, length_app. Qed.

(** One turn of the loop. *)
Lemma wait_loop_step fuel selector timeout interval startTime (w : World) :
  SelectorToolkit.wait_loop host fuel selector timeout interval startTime w
  = if js_lt (Some (date_now host w - startTime)) (to_number timeout)
    then match querySelector host w selector with
         | inl name => (Failed (Thrown name), [ActQuery selector], w)
         | inr (Some el) => (Done el, [ActQuery selector], w)
         | inr None =>
             match fuel with
             | O => (Waiting, [ActQuery selector; ActSleep interval], w)
             | S fuel' =>
                 let r := SelectorToolkit.wait_loop host fuel' selector timeout interval
                            startTime (timer_fired host interval w) in
                 (outcome r, ActQuery selector :: ActSleep interval :: actions r,
                  page_after r)
             end
         end
    else (Failed (Unavailable selector timeout), [], w).
Proof.
  destruct fuel as [|fuel]; cbn [SelectorToolkit.wait_loop].
  all: rewrite sbind_unfold; cbn [look outcome actions page_after fst snd app].
  all: destruct (js_lt _ _); [|reflexivity].
  all: rewrite sbind_unfold; cbn [act outcome actions page_after fst snd app].
  all: rewrite sbind_unfold; cbn [look outcome actions page_after fst snd app].
  all: destruct (querySelector host w selector) as [name|[el|]]; try reflexivity.
  rewrite sbind_unfold; cbn [act outcome actions page_after fst snd app].
  rewrite sbind_unfold; cbn [move outcome actions page_after fst snd app]. reflexivity.
Qed.

Lemma waitForSelector_unfold fuel selector timeout interval (w : World) :
  SelectorToolkit.waitForSelector host fuel selector timeout interval w
  = SelectorToolkit.wait_loop host fuel selector (param_or timeout (VNum 10000))
      (param_or interval (VNum 200)) (date_now host w) w.
Proof.
  unfold SelectorToolkit.waitForSelector. rewrite sbind_unfold.
  cbn [look outcome actions page_after fst snd app].
  by destruct (SelectorToolkit.wait_loop _ _ _ _ _ _ _) as [[o t] w'].
Qed.

Lemma js_lt_false x v :
  js_lt (Some x) (to_number v) = false →
  to_number v = None ∨ ∃ T, to_number v = Some T ∧ T ≤ x.
Proof.
  destruct (to_number v) as [T|]; [|auto].
  cbn [js_lt]. intros H%Z.ltb_ge. eauto.
Qed.

Lemma wait_loop_facts fuel selector timeout interval startTime (w : World) :
  (∀ s t,
     outcome (SelectorToolkit.wait_loop host fuel selector timeout interval startTime w)
     = Failed (Unavailable s t) →
     s = selector ∧ t = timeout
     ∧ (to_number timeout = None
        ∨ ∃ T, to_number timeout = Some T
               ∧ T ≤ date_now host
                       (page_after (SelectorToolkit.wait_loop host fuel selector timeout
                                      interval startTime w))
                     - startTime))
  ∧ (∀ el,
       outcome (SelectorToolkit.wait_loop host fuel selector timeout interval startTime w)
       = Done el →
       querySelector host
         (page_after (SelectorToolkit.wait_loop host fuel selector timeout interval
                        startTime w)) selector = inr (Some el))
  ∧ tally is_error_log
      (actions (SelectorToolkit.wait_loop host fuel selector timeout interval startTime w))
    = 0%nat.
Proof.
  revert w. induction fuel as [|fuel IH]; intros w; rewrite wait_loop_step.
  all: destruct (js_lt _ _) eqn:Hlt;
    [|cbn [outcome actions page_after fst snd];
      split; [intros s t H; injection H as <- <-;
              split; [reflexivity|]; split; [reflexivity|]; by apply js_lt_false|];
      split; [discriminate|reflexivity]].
  all: destruct (querySelector host w selector) as [name|[el|]] eqn:Hq;
    cbn [outcome actions page_after fst snd].
  all: try (split; [discriminate|]; split; [|reflexivity]; try discriminate;
            intros el' H; injection H as <-; exact Hq).
  destruct (IH (timer_fired host interval w)) as (H1 & H2 & H3).
  split; [exact H1|]. split; [exact H2|].
  rewrite !tally_cons. cbn [is_error_log]. exact H3.
Qed.


(** X20.  An element the toolkit's [waitForSelector] is fulfilled with is
    the one the document answers for the selector at that moment; and a
    selector the host rejects, tried before the deadline, fails the call
    with the host's exception after that one check. *)
Theorem toolkit_wait_found_or_thrown fuel selector timeout interval (w : World) :
  (∀ el,
     outcome (SelectorToolkit.waitForSelector host fuel selector timeout interval w)
     = Done el →
     querySelector host
       (page_after (SelectorToolkit.waitForSelector host fuel selector timeout interval w))
       selector = inr (Some el))
  ∧ (∀ name T,
       querySelector host w selector = inl name →
       to_number (param_or timeout (VNum 10000)) = Some T → 0 < T →
       SelectorToolkit.waitForSelector host fuel selector timeout interval w
       = (Failed (Thrown name), [ActQuery selector], w)).
Proof.
  rewrite waitForSelector_unfold. split.
  - apply wait_loop_facts.
  - intros name T Hq HT Hpos. rewrite wait_loop_step, Z.sub_diag, HT. cbn [js_lt].
    rewrite (proj2 (Z.ltb_lt 0 T) Hpos), Hq. reflexivity.
Qed.

(** X21.  [run] never fails: whatever the wait ends in, its promise is
    fulfilled or still pending.  A failure of the wait, timeout or host
    exception, is logged once as an error and the page is left as the wait
    left it; a success is followed by scrolling the element into view,
    clicking and focusing it when it has these methods, and setting its
    outline and transition, in this order, without any error log. *)
Theorem toolkit_run_never_fails fuel selector (w : World) :
  is_failed (outcome (SelectorToolkit.run host dom fuel selector w)) = false
  ∧ (∀ e,
       outcome (SelectorToolkit.waitForSelector host fuel selector VUndefined VUndefined w)
       = Failed e →
       SelectorToolkit.run host dom fuel selector w
       = (Done tt,
          actions (SelectorToolkit.waitForSelector host fuel selector VUndefined
                     VUndefined w) ++ [ActLogError e],
          page_after (SelectorToolkit.waitForSelector host fuel selector VUndefined
                        VUndefined w)))
  ∧ (∀ el,
       outcome (SelectorToolkit.waitForSelector host fuel selector VUndefined VUndefined w)
       = Done el →
       let w1 := page_after (SelectorToolkit.waitForSelector host fuel selector VUndefined
                               VUndefined w) in
       let w2 := scrollIntoView dom w1 el in
       let w3 := if has_click dom w2 el then click dom w2 el else w2 in
       outcome (SelectorToolkit.run host dom fuel selector w) = Done tt
       ∧ actions (SelectorToolkit.run host dom fuel selector w)
         = actions (SelectorToolkit.waitForSelector host fuel selector VUndefined
                      VUndefined w)
           ++ [ActScrollIntoView el]
           ++ (if has_click dom w2 el then [ActClick el] else [])
           ++ (if has_focus dom w3 el then [ActFocus el] else [])
           ++ [ActSetStyle el "outline" "2px solid #f00";
               ActSetStyle el "transition" "outline 0.3s ease-in-out"]
       ∧ tally is_error_log (actions (SelectorToolkit.run host dom fuel selector w))
         = 0%nat).
Proof.
  assert (Hquiet : tally is_error_log
            (actions (SelectorToolkit.waitForSelector host fuel selector VUndefined
                        VUndefined w)) = 0%nat).
  { rewrite waitForSelector_unfold. apply wait_loop_facts. }
  unfold SelectorToolkit.run. rewrite sbind_unfold.
  destruct (SelectorToolkit.waitForSelector host fuel selector VUndefined VUndefined w)
    as [[waited tr] w1].
  cbn [outcome actions page_after fst snd] in *.
  destruct waited as [el|e|].
  - split; [|split; [discriminate|]].
    + unfold SelectorToolkit.activateElement, SelectorToolkit.highlightElement,
        sbind, sret, act, look, move, outcome; simpl.
      destruct (has_click dom _ el); simpl; destruct (has_focus dom _ el); reflexivity.
    + intros el' H; injection H as <-. cbv zeta.
      unfold SelectorToolkit.activateElement, SelectorToolkit.highlightElement,
        sbind, sret, act, look, move, outcome, actions; simpl.
      destruct (has_click dom (scrollIntoView dom w1 el) el); simpl;
        destruct (has_focus dom _ el); simpl;
        (split; [reflexivity|]; split; [reflexivity|]);
        rewrite tally_app, Hquiet; reflexivity.
  - split; [reflexivity|]. split; [|discriminate].
    intros e' H; injection H as <-. reflexivity.
  - split; [reflexivity|]. split; discriminate.
Qed.
End ToolkitFacts.


(** ["#late"] with the default timeout, polled every 200 ms. *)
Lemma toolkit_wait_found_or_thrown_witness :
  querySelector StaticPage.host
    (page_after (SelectorToolkit.waitForSelector StaticPage.host 5 "#late" VUndefined
                   VUndefined 0)) "#late" = inr (Some 3%nat).
Proof.
  destruct (toolkit_wait_found_or_thrown StaticPage.host 5 "#late" VUndefined VUndefined 0)
    as [Hfound _].
  apply Hfound. vm_compute. reflexivity.
Defined.

(** [run("[")]: the host's exception is logged, nothing is thrown. *)
Lemma toolkit_run_never_fails_witness :
  SelectorToolkit.run StaticPage.host static_dom 5 "[" 0
  = (Done tt, [ActQuery "["; ActLogError (Thrown "SyntaxError")], 0).
Proof.
  destruct (toolkit_run_never_fails StaticPage.host static_dom 5 "[" 0) as (_ & Hfail & _).
  rewrite (Hfail (Thrown "SyntaxError")); vm_compute; reflexivity.
Defined.

(** ** utilsDOM *)

Section UtilsFacts.
Context {World : Type} (host : Host World) (dom : Dom World).

(** X22.  The selector helpers of [utilsDOM] are transparent and safe on
    a missing element: each makes one query; if the document rejects the
    selector the exception comes out and nothing is done; if nothing
    matches the result is [null] and nothing is done; if an element matches
    the result is that element, except that [activarElemento] throws a
    [TypeError] when the element has no [focus] method.
    [activateAndScroll(null)] does nothing. *)
Theorem utils_helpers_safe_on_missing selector (w : World) :
  (∀ name, querySelector host w selector = inl name →
     UtilsDOM.qSelector host selector w = (inl name, [ActQuery selector], w)
     ∧ UtilsDOM.activarElemento host dom selector w = (inl name, [ActQuery selector], w)
     ∧ UtilsDOM.seleccionarElemento host dom selector w
       = (inl name, [ActQuery selector], w)
     ∧ UtilsDOM.scrollElemento host dom selector w = (inl name, [ActQuery selector], w))
  ∧ (querySelector host w selector = inr None →
     UtilsDOM.qSelector host selector w = (inr None, [ActQuery selector], w)
     ∧ UtilsDOM.activarElemento host dom selector w = (inr None, [ActQuery selector], w)
     ∧ UtilsDOM.seleccionarElemento host dom selector w
       = (inr None, [ActQuery selector], w)
     ∧ UtilsDOM.scrollElemento host dom selector w = (inr None, [ActQuery selector], w))
  ∧ (∀ e, querySelector host w selector = inr (Some e) →
       UtilsDOM.qSelector host selector w = (inr (Some e), [ActQuery selector], w)
       ∧ outcome (UtilsDOM.activarElemento host dom selector w)
         = (if has_focus dom w e then inr (Some e) else inl "TypeError")
       ∧ outcome (UtilsDOM.seleccionarElemento host dom selector w) = inr (Some e)
       ∧ outcome (UtilsDOM.scrollElemento host dom selector w) = inr (Some e))
  ∧ UtilsDOM.activateAndScroll dom None w = (inr tt, [], w).
Proof.
  unfold UtilsDOM.qSelector, UtilsDOM.activarElemento, UtilsDOM.seleccionarElemento,
    UtilsDOM.scrollElemento, UtilsDOM.with_element, UtilsDOM.call_focus,
    sbind, sret, act, look, move, outcome; simpl.
  split; [intros name ->; done|]. split; [intros ->; done|].
  split; [|reflexivity].
  intros e ->. simpl.
  split; [reflexivity|]. split; [by destruct (has_focus dom w e)|].
  split; [|reflexivity].
  destruct (has_select dom w e); [reflexivity|].
  by destruct (has_createRange dom w).
Qed.
End UtilsFacts.

(** Nothing matches ["#absent"] on the concrete page. *)
Lemma utils_helpers_safe_on_missing_witness :
  UtilsDOM.seleccionarElemento StaticPage.host static_dom "#absent" 0
  = (inr None, [ActQuery "#absent"], 0).
Proof.
  destruct (utils_helpers_safe_on_missing StaticPage.host static_dom "#absent" 0)
    as (_ & Hnone & _).
  destruct Hnone as (_ & _ & Hsel & _); [reflexivity | exact Hsel].
Defined.

(** ** Calls by selector are a wait followed by a call on the element *)

Section Composition.
Context {World : Type} (host : Host World).

Lemma behaviour_same_page {A : Type} (m : M World A) (s s' : Proc World) :
  pagewise m → world s = world s' →
  result (m s) = result (m s') ∧ trace (m s) = trace (m s')
  ∧ world (final (m s)) = world (final (m s')).
Proof.
  intros Hm Hw. pose proof (pagewise_behaviour m s s' Hm Hw) as Hb.
  unfold behaviour in Hb. by injection Hb.
Qed.

(** X23.  [triggerEvent(selector, event, options)] is
    [waitForSelector(selector, options)] followed, once that is fulfilled,
    by [triggerEvent] on its value, [null] included, with the same options
    on the page the wait left: same result, the two traces in sequence,
    same final page. *)
Theorem triggerEvent_is_wait_then_trigger fuel selector event options
    (st : Proc World) e :
  loaded st →
  result (waitForSelector host fuel selector options st) = Fulfilled e →
  behaviour (triggerEvent host fuel (Selector selector) event options) st
  = (result (triggerEvent host fuel (Handle e) event options
               (at_page st (world (final (waitForSelector host fuel selector options st))))),
     trace (waitForSelector host fuel selector options st)
       ++ trace (triggerEvent host fuel (Handle e) event options
                   (at_page st
                      (world (final (waitForSelector host fuel selector options st))))),
     world (final (triggerEvent host fuel (Handle e) event options
                     (at_page st
                        (world (final (waitForSelector host fuel selector options st))))))).
Proof.
  intros Hl.
  set (c := effective st options).
  destruct (waitForSelector_run host fuel selector options st) as (sw & _ & Hww & _ & ->).
  fold c. set (w1 := world (final (wait_with host fuel selector c sw))).
  assert (Hl' : loaded (at_page st w1)) by exact Hl.
  destruct (triggerEvent_run host fuel (Handle e) event options (at_page st w1) Hl')
    as (s2 & _ & Hw2 & _ & ->).
  change (effective (at_page st w1) options) with c.
  destruct (triggerEvent_run host fuel (Selector selector) event options st Hl)
    as (s1 & _ & Hw1 & _ & Hrun).
  fold c in Hrun. unfold behaviour. rewrite Hrun. clear Hrun.
  rewrite trigger_with_handle. unfold trigger_with.
  rewrite result_bind, trace_bind, final_bind.
  destruct (behaviour_same_page (wait_with host fuel selector c) s1 sw
              (pagewise_wait_with host fuel selector c)) as (Hr & Ht & Hwf);
    [congruence|].
  rewrite Hr, Ht. intros Hres. rewrite Hres.
  destruct (behaviour_same_page (trigger_found host event c (Fulfilled e))
              (final (wait_with host fuel selector c s1)) s2
              (pagewise_trigger_found host event c (Fulfilled e))) as (Hr2 & Ht2 & Hw2');
    [rewrite Hwf; exact (eq_sym Hw2)|].
  by rewrite Hr2, Ht2, Hw2'.
Qed.

(** X24.  [scrollToSelector(selector, options)] is the resolver run
    without the visibility requirement followed, once that has found an
    element, by [scrollToSelector] on that element with the same options
    on the page the wait left. *)
Theorem scrollToSelector_is_wait_then_scroll fuel selector options (st : Proc World) el :
  loaded st → options_valid st options →
  result (presence_check host fuel selector (effective st options) st)
    = Fulfilled (Some el) →
  behaviour (scrollToSelector host fuel (Selector selector) options) st
  = (result (scrollToSelector host fuel (Handle (Some el)) options
               (at_page st
                  (world (final (presence_check host fuel selector
                                   (effective st options) st))))),
     trace (presence_check host fuel selector (effective st options) st)
       ++ trace (scrollToSelector host fuel (Handle (Some el)) options
                   (at_page st
                      (world (final (presence_check host fuel selector
                                       (effective st options) st))))),
     world (final (scrollToSelector host fuel (Handle (Some el)) options
                     (at_page st
                        (world (final (presence_check host fuel selector
                                         (effective st options) st))))))).
Proof.
  intros Hl Hv.
  set (c := effective st options).
  set (w1 := world (final (presence_check host fuel selector c st))).
  assert (Hl' : loaded (at_page st w1)) by exact Hl.
  assert (Hv' : options_valid (at_page st w1) options) by exact Hv.
  destruct (scrollToSelector_run host fuel (Handle (Some el)) options (at_page st w1)
              Hl' Hv') as (s2 & _ & Hw2 & _ & ->).
  change (effective (at_page st w1) options) with c.
  destruct (scrollToSelector_run host fuel (Selector selector) options st Hl Hv)
    as (s1 & _ & Hw1 & _ & Hrun).
  fold c in Hrun. unfold behaviour. rewrite Hrun. clear Hrun.
  unfold scroll_with at 1 2 3. rewrite wait_with_presence.
  rewrite result_bind, trace_bind, final_bind.
  destruct (behaviour_same_page (presence_check host fuel selector c) s1 st
              (pagewise_presence_check host fuel selector c) Hw1) as (Hr & Ht & Hwf).
  rewrite Hr, Ht. intros Hres. rewrite Hres.
  unfold scroll_with, mret, M_ret.
  rewrite (bind_silent _ _ s2 (Fulfilled (Some el)) s2) by reflexivity.
  destruct (behaviour_same_page (scroll_found host fuel (Selector selector) c
                                   (Fulfilled (Some el)))
              (final (presence_check host fuel selector c s1)) s2
              (pagewise_scroll_found host fuel (Selector selector) c (Fulfilled (Some el))))
    as (Hr2 & Ht2 & Hw2'); [rewrite Hwf; exact (eq_sym Hw2)|].
  rewrite Hr2, Ht2, Hw2'. reflexivity.
Qed.
End Composition.

(** ["#late"] clicked by selector: four checks, then one dispatch. *)
Lemma triggerEvent_is_wait_then_trigger_witness :
  behaviour (triggerEvent FragilePage.host 5 (Selector "#late") "click" None)
    StaticPage.start
  = (Fulfilled true,
     [EvQuery "#late"; EvSetTimeout (VNum 100);
      EvQuery "#late"; EvSetTimeout (VNum 100);
      EvQuery "#late"; EvSetTimeout (VNum 100);
      EvQuery "#late"; EvGetComputedStyle 3; EvOffsetWidth 3; EvOffsetHeight 3;
      EvDispatch 3 "click"],
     301).
Proof.
  assert (Hl : loaded StaticPage.start) by (apply (bool_decide_unpack _); vm_compute; reflexivity).
  rewrite (triggerEvent_is_wait_then_trigger FragilePage.host 5 "#late" "click" None
             StaticPage.start (Some 3%nat) Hl); vm_compute; reflexivity.
Defined.

(** ["#sticky"] scrolled to by selector with two attempts. *)
Lemma scrollToSelector_is_wait_then_scroll_witness :
  behaviour (scrollToSelector StaticPage.host 5 (Selector "#sticky")
               (Some StaticPage.caller_options))
    (StaticPage.start_with (<["maxScrollAttempts" := VNum 2]> ∅))
  = (Fulfilled (Some 7%nat),
     [EvQuery "#sticky"; EvMeasure 7; EvScrollBy (Some (-100)); EvRequestFrame;
      EvMeasure 7; EvWarn (ScrollError 2)],
     16).
Proof.
  assert (Hl : loaded (StaticPage.start_with (<["maxScrollAttempts" := VNum 2]> ∅)))
    by (apply (bool_decide_unpack _); vm_compute; reflexivity).
  assert (Hv : options_valid (StaticPage.start_with (<["maxScrollAttempts" := VNum 2]> ∅))
                 (Some StaticPage.caller_options))
    by (apply (bool_decide_unpack _); vm_compute; reflexivity).
  rewrite (scrollToSelector_is_wait_then_scroll StaticPage.host 5 "#sticky"
             (Some StaticPage.caller_options) _ 7%nat Hl Hv); vm_compute; reflexivity.
Defined.
